(** * Sentiment-based product recommendation: the engine of [model.py]

    A shallow embedding of [_popularity_fallback], [get_top20_products] and
    [get_final_recommendations], and of the request handler of [app.py],
    with the properties of the recommendation pipeline that follow from
    the code.

    Modelling conventions.
    - A float is a binary64 number: the operations are those of the
      IEEE 754 specification of the Standard Library ([SpecFloat]), with
      rounding to nearest even, infinities and signed zeros.  A cell is an
      [option]: [None] is [NaN] (or the [None] pandas stores as a missing
      value), [Some x] a number.  The entries of the two numeric tables
      are numbers, never [NaN].
    - [Series.sum] and [np.dot] accumulate from left to right, starting
      from 0.0, and [np.dot] rounds each product before it adds it.  The
      order in which numpy adds eight numbers or more, and the one of the
      linear-algebra library behind [np.dot], are not in the source: the
      model fixes this one.
    - The metadata and candidate DataFrames are [Frame]s: an index kind, the
      list of column labels and typed rows.  The statistics table is
      indexed by ['id'] (line 20) or by position.  The two label-by-label
      numeric tables (item similarity, user-item ratings) are [Matrix]
      values.
    - DataFrames are Python objects: they live in a [heap] and the program
      manipulates references ([ref]).  A pandas method that returns a new
      object allocates; [df[c] = v] updates the object in place.
    - Python exceptions are the [Raise] outcome of the [M] monad.
    - A lookup by label takes the first match.  pandas does something else
      when a label occurs twice in the statistics table (it raises, or
      returns several rows): the statements that depend on a lookup assume
      the labels of the table distinct.
    - [sorted] and [sort_values] are stable sorts for the order on
      numbers; [sort_values] puts [NaN] last.  What [sorted] does with a
      [NaN] key depends on its merge strategy and is not modelled: the
      statements about the order of scores assume that no score is [NaN].
    - pandas is taken as it is today: selecting a list of labels raises
      [KeyError] when one is missing, and sorting on no column leaves the
      rows as they are. *)

From Stdlib Require Import List String ZArith Bool Arith Lia.
From Stdlib Require Import Sorting.Sorted Sorting.Permutation SpecFloat.
Import ListNotations.
Local Open Scope string_scope.
Local Open Scope Z_scope.
Local Open Scope list_scope.

Set Implicit Arguments.

(* ===================================================================== *)
(** ** Numbers *)
(* ===================================================================== *)

Module Num.

(** The format: 53 bits of precision, infinities at exponent 1024. *)
Definition prec : Z := 53.
Definition emax : Z := 1024.

(** A binary64 number: a signed zero, a signed infinity, or
    [(-1)^neg * m * 2^e]. *)
Inductive f64 :=
| Zero (neg : bool)
| Inf (neg : bool)
| Fin (neg : bool) (m : positive) (e : Z).

(** A float that may be [NaN]. *)
Definition cell := option f64.

Definition to_spec (x : f64) : spec_float :=
  match x with
  | Zero s => S754_zero s
  | Inf s => S754_infinity s
  | Fin s m e => S754_finite s m e
  end.

Definition spec (c : cell) : spec_float :=
  match c with
  | Some x => to_spec x
  | None => S754_nan
  end.

Definition of_spec (x : spec_float) : cell :=
  match x with
  | S754_zero s => Some (Zero s)
  | S754_infinity s => Some (Inf s)
  | S754_nan => None
  | S754_finite s m e => Some (Fin s m e)
  end.

(** [a + b], [a * b], [a / b] on floats: a division by zero gives an
    infinity or [NaN], not an exception (numpy scalars). *)
Definition add (a b : cell) : cell :=
  of_spec (SFadd prec emax (spec a) (spec b)).
Definition mul (a b : cell) : cell :=
  of_spec (SFmul prec emax (spec a) (spec b)).
Definition div (a b : cell) : cell :=
  of_spec (SFdiv prec emax (spec a) (spec b)).

(** [a < b] and [a == b]: false when an operand is [NaN]. *)
Definition ltb (a b : cell) : bool := SFltb (spec a) (spec b).
Definition eqb (a b : cell) : bool := SFeqb (spec a) (spec b).

(** [0.0] *)
Definition zero : f64 := Zero false.

(** [float(n)] *)
Definition of_Z (n : Z) : f64 :=
  match of_spec (binary_normalize prec emax n 0 false) with
  | Some x => x
  | None => zero
  end.

(** The float a decimal literal denotes: the binary64 number nearest to
    [n / d] (for [d] a power of ten below 2^53 the quotient of the two
    floats is that number). *)
Definition dec (n d : Z) : f64 :=
  match div (Some (of_Z n)) (Some (of_Z d)) with
  | Some x => x
  | None => zero
  end.

(** [x > 0] *)
Definition gt0 (x : f64) : bool := ltb (Some zero) (Some x).

(** [x == 0] *)
Definition is0 (x : cell) : bool := eqb x (Some zero).

(** [int(x)]: truncation toward zero; [None] for an infinity, where
    Python raises [OverflowError]. *)
Definition int_of (x : f64) : option Z :=
  match x with
  | Zero _ => Some 0
  | Inf _ => None
  | Fin s m e =>
      let a := Z.shiftl (Zpos m) e in
      Some (if s then - a else a)
  end.

(** [s.sum()] for a Series without [NaN]. *)
Definition sum (l : list f64) : cell :=
  fold_left (fun acc x => add acc (Some x)) l (Some zero).

(** [np.dot(a, b)] *)
Fixpoint dot_from (acc : cell) (a b : list f64) : cell :=
  match a, b with
  | x :: a', y :: b' => dot_from (add acc (mul (Some x) (Some y))) a' b'
  | _, _ => acc
  end.

Definition dot (a b : list f64) : cell := dot_from (Some zero) a b.

(** The constants of the source. *)
Definition eps : f64 := Eval vm_compute in dec 1 1000000000.   (* 1e-9 *)
Definition w_recomm : f64 := Eval vm_compute in dec 6 10.       (* 0.6 *)
Definition w_pct_pos : f64 := Eval vm_compute in dec 3 10.      (* 0.3 *)
Definition w_mean_pos_prob : f64 := Eval vm_compute in dec 1 10. (* 0.1 *)

(** Order on cells used by a descending sort: [NaN] is placed last. *)
Definition cell_gtb (a b : cell) : bool :=
  match a, b with
  | Some _, Some _ => ltb b a
  | Some _, None => true
  | None, _ => false
  end.

Definition cell_geb (a b : cell) : bool := negb (cell_gtb b a).

(** Lexicographic "not after" test on key tuples, descending. *)
Fixpoint lex_geb (k1 k2 : list cell) : bool :=
  match k1, k2 with
  | a :: r1, b :: r2 =>
      if cell_gtb a b then true
      else if cell_gtb b a then false
      else lex_geb r1 r2
  | _, _ => true
  end.

End Num.

(* ===================================================================== *)
(** ** Python sequences *)
(* ===================================================================== *)

Module Py.

(** [l[:k]] and [df.head(k)]: a negative [k] drops from the end. *)
Definition take {A} (k : Z) (l : list A) : list A :=
  if 0 <=? k then firstn (Z.to_nat k) l
  else firstn (List.length l - Z.to_nat (- k)) l.

(** [x in l] for strings. *)
Definition mem (x : string) (l : list string) : bool :=
  existsb (String.eqb x) l.

(** Position of the first occurrence of a label. *)
Fixpoint position (x : string) (l : list string) : option nat :=
  match l with
  | [] => None
  | y :: t => if String.eqb x y then Some O
              else option_map S (position x t)
  end.

(** A stable sort: [before x y] says that [x] may stay in front of [y].
    [sorted(..., reverse=True)] and [np.lexsort] are stable. *)
Fixpoint insert_by {A} (before : A -> A -> bool) (x : A) (l : list A)
  : list A :=
  match l with
  | [] => [x]
  | y :: t => if before x y then x :: y :: t
              else y :: insert_by before x t
  end.

Definition stable_sort {A} (before : A -> A -> bool) (l : list A)
  : list A :=
  fold_right (insert_by before) [] l.

(** Values stored in the dictionaries the engine returns.  [PMissing] is
    what pandas hands back for a missing string: [None] or [nan], after
    its version. *)
Inductive value :=
| PNone
| PMissing
| PNaN
| PFloat (x : Num.f64)
| PInt (n : Z)
| PStr (s : string).

Definition dict := list (string * value).

(** [d.get(k)] on an insertion-ordered dictionary. *)
Fixpoint get {V} (k : string) (d : list (string * V)) : option V :=
  match d with
  | [] => None
  | (k', v) :: t => if String.eqb k k' then Some v else get k t
  end.

(** [scores[item] = v] on an insertion-ordered dictionary. *)
Fixpoint setitem (k : string) (v : Num.cell) (d : list (string * Num.cell))
  : list (string * Num.cell) :=
  match d with
  | [] => [(k, v)]
  | (k', v') :: t => if String.eqb k k' then (k', v) :: t
                     else (k', v') :: setitem k v t
  end.

End Py.

(* ===================================================================== *)
(** ** Outcomes *)
(* ===================================================================== *)

Inductive exn := KeyError | ValueError | TypeError | OverflowError.

Inductive outcome (A : Type) :=
| Ok (a : A)
| Raise (e : exn).
Arguments Ok {A} a.
Arguments Raise {A} e.

Definition obind {A B} (o : outcome A) (f : A -> outcome B) : outcome B :=
  match o with
  | Ok a => f a
  | Raise e => Raise e
  end.

(* ===================================================================== *)
(** ** Label-by-label numeric tables *)
(* ===================================================================== *)

(** [_item_sim_df] (products by products) and [_user_item] (users by
    products): row labels, column labels and the 2-D array of values. *)
Record Matrix := mkMatrix {
  m_index : list string;
  m_columns : list string;
  m_values : list (list Num.f64) }.

(** A pandas Series of floats: labels with values. *)
Definition Series := list (string * Num.f64).

Module Mat.

(** [m.loc[r]] *)
Definition loc (m : Matrix) (r : string) : outcome Series :=
  match Py.position r (m_index m) with
  | Some i => Ok (combine (m_columns m) (nth i (m_values m) []))
  | None => Raise KeyError
  end.

(** [s[label]] *)
Fixpoint at_label (s : Series) (c : string) : outcome Num.f64 :=
  match s with
  | [] => Raise KeyError
  | (c', v) :: t => if String.eqb c c' then Ok v else at_label t c
  end.

(** [s[labels]] with a list of labels: every label must exist. *)
Fixpoint take (s : Series) (labels : list string) : outcome Series :=
  match labels with
  | [] => Ok []
  | c :: t =>
      obind (at_label s c) (fun v =>
      obind (take s t) (fun rest => Ok ((c, v) :: rest)))
  end.

(** [m.loc[r, labels]] *)
Definition loc2 (m : Matrix) (r : string) (labels : list string)
  : outcome Series :=
  obind (loc m r) (fun row => take row labels).

(** [s[s > 0].index.tolist()] *)
Definition positive_labels (s : Series) : list string :=
  map fst (filter (fun p => Num.gt0 (snd p)) s).

Definition values (s : Series) : list Num.f64 := map snd s.

End Mat.

(* ===================================================================== *)
(** ** Metadata and candidate DataFrames *)
(* ===================================================================== *)

(** The column labels the engine names. *)
Inductive column :=
| c_id | c_index
| c_product_name | c_avg_rating | c_n_ratings | c_pct_pos | c_mean_pos_prob
| c_recomm_score | c_blend.

Scheme Equality for column.

(** One row.  [r_id] is the product identifier (the index label of the
    row, or its ['id'] cell after [reset_index]); a cell whose column is
    not among the frame's columns is never read. *)
Record Row := mkRow {
  r_id : string;
  r_product_name : option string;
  r_avg_rating : Num.cell;
  r_n_ratings : Num.cell;
  r_pct_pos : Num.cell;
  r_mean_pos_prob : Num.cell;
  r_recomm_score : Num.cell;
  r_blend : Num.cell }.

(** Either the rows are labelled by their identifier (index named ['id'])
    or by their position (a [RangeIndex]). *)
Inductive index_kind := IdIndex | RangeIndex.

Record Frame := mkFrame {
  f_index : index_kind;
  f_columns : list column;
  f_rows : list Row }.

(** The value of [df.index]. *)
Inductive Index :=
| IdLabels (ids : list string)
| Range (n : nat).

Module DF.

Definition mem (c : column) (cols : list column) : bool :=
  existsb (column_beq c) cols.

(** [c in df.columns] *)
Definition has (c : column) (f : Frame) : bool := mem c (f_columns f).

(** A numeric cell. *)
Definition num (c : column) (r : Row) : Num.cell :=
  match c with
  | c_avg_rating => r_avg_rating r
  | c_n_ratings => r_n_ratings r
  | c_pct_pos => r_pct_pos r
  | c_mean_pos_prob => r_mean_pos_prob r
  | c_recomm_score => r_recomm_score r
  | c_blend => r_blend r
  | _ => None
  end.

Definition set_num (c : column) (v : Num.cell) (r : Row) : Row :=
  match c with
  | c_avg_rating =>
      mkRow (r_id r) (r_product_name r) v (r_n_ratings r) (r_pct_pos r)
            (r_mean_pos_prob r) (r_recomm_score r) (r_blend r)
  | c_n_ratings =>
      mkRow (r_id r) (r_product_name r) (r_avg_rating r) v (r_pct_pos r)
            (r_mean_pos_prob r) (r_recomm_score r) (r_blend r)
  | c_pct_pos =>
      mkRow (r_id r) (r_product_name r) (r_avg_rating r) (r_n_ratings r) v
            (r_mean_pos_prob r) (r_recomm_score r) (r_blend r)
  | c_mean_pos_prob =>
      mkRow (r_id r) (r_product_name r) (r_avg_rating r) (r_n_ratings r)
            (r_pct_pos r) v (r_recomm_score r) (r_blend r)
  | c_recomm_score =>
      mkRow (r_id r) (r_product_name r) (r_avg_rating r) (r_n_ratings r)
            (r_pct_pos r) (r_mean_pos_prob r) v (r_blend r)
  | c_blend =>
      mkRow (r_id r) (r_product_name r) (r_avg_rating r) (r_n_ratings r)
            (r_pct_pos r) (r_mean_pos_prob r) (r_recomm_score r) v
  | _ => r
  end.

(** A row of missing values for a label absent from the source. *)
Definition nan_row (i : string) : Row :=
  mkRow i None None None None None None None.

(** [df.index] *)
Definition index (f : Frame) : Index :=
  match f_index f with
  | IdIndex => IdLabels (map r_id (f_rows f))
  | RangeIndex => Range (List.length (f_rows f))
  end.

(** [pid in df.index]: a string is never a label of a [RangeIndex]. *)
Definition in_index (pid : string) (f : Frame) : bool :=
  match f_index f with
  | IdIndex => Py.mem pid (map r_id (f_rows f))
  | RangeIndex => false
  end.

(** [df.loc[pid]] for a label that occurs once in the index.  Of a label
    that occurs several times the first row is taken, where pandas
    returns a frame of all of them. *)
Definition loc (pid : string) (f : Frame) : option Row :=
  find (fun r => String.eqb pid (r_id r)) (f_rows f).

(** [df[cols]] with a list of present columns. *)
Definition getitem_cols (cols : list column) (f : Frame) : Frame :=
  mkFrame (f_index f) cols (f_rows f).

(** [df.copy()] *)
Definition copy (f : Frame) : Frame := f.

(** The sort key of a row. *)
Definition key (by_ : list column) (r : Row) : list Num.cell :=
  map (fun c => num c r) by_.

(** [df.sort_values(by, ascending=False)]: lexicographic, descending,
    missing values last; ties keep their order (the order pandas gives to
    ties on a single column is that of its quicksort, not modelled). *)
Definition sort_values (by_ : list column) (f : Frame) : Frame :=
  mkFrame (f_index f) (f_columns f)
    (Py.stable_sort (fun a b => Num.lex_geb (key by_ a) (key by_ b))
                    (f_rows f)).

(** [df.head(k)] *)
Definition head (k : Z) (f : Frame) : Frame :=
  mkFrame (f_index f) (f_columns f) (Py.take k (f_rows f)).

(** [df.reset_index()]: the index becomes the first column. *)
Definition reset_index (f : Frame) : Frame :=
  match f_index f with
  | IdIndex => mkFrame RangeIndex (c_id :: f_columns f) (f_rows f)
  | RangeIndex => mkFrame RangeIndex (c_index :: f_columns f) (f_rows f)
  end.

(** [df.set_index('id')] *)
Definition set_index_id (f : Frame) : Frame :=
  mkFrame IdIndex
          (filter (fun c => negb (column_beq c c_id)) (f_columns f))
          (f_rows f).

(** [df[c] = e] where [e] is a scalar or a Series computed element-wise
    from [df] itself: [e_row] gives the new cell of each row.  A new column
    is appended. *)
Definition assign (c : column) (e_row : Row -> Num.cell) (f : Frame)
  : Frame :=
  mkFrame (f_index f)
          (if has c f then f_columns f else f_columns f ++ [c])
          (map (fun r => set_num c (e_row r) r) (f_rows f)).

(** [df.reindex(idx)]: the rows of [df] for the labels of [idx], rows of
    missing values for the labels [df] does not have.  The labels of [df]
    are meant distinct: pandas refuses to reindex otherwise. *)
Definition reindex (idx : Index) (f : Frame) : Frame :=
  match idx, f_index f with
  | IdLabels ids, IdIndex =>
      mkFrame IdIndex (f_columns f)
        (map (fun i => match loc i f with
                       | Some r => r
                       | None => nan_row i
                       end) ids)
  | IdLabels ids, RangeIndex =>
      mkFrame IdIndex (f_columns f) (map nan_row ids)
  | Range n, IdIndex =>
      mkFrame RangeIndex (f_columns f) (repeat (nan_row "") n)
  | Range n, RangeIndex =>
      mkFrame RangeIndex (f_columns f)
        (firstn n (f_rows f)
         ++ repeat (nan_row "") (n - List.length (f_rows f)))
  end.

(** [pd.DataFrame(index=idx)] *)
Definition of_index (idx : Index) : Frame :=
  match idx with
  | IdLabels ids => mkFrame IdIndex [] (map nan_row ids)
  | Range n => mkFrame RangeIndex [] (repeat (nan_row "") n)
  end.

(** [df.drop(columns=cols, errors='ignore')] *)
Definition drop (cols : list column) (f : Frame) : Frame :=
  mkFrame (f_index f)
          (filter (fun c => negb (mem c cols)) (f_columns f))
          (f_rows f).

(** Copy the cells of the columns [cols] from [src] into [dst]. *)
Definition copy_cell (src : Row) (c : column) (dst : Row) : Row :=
  match c with
  | c_product_name =>
      mkRow (r_id dst) (r_product_name src) (r_avg_rating dst)
            (r_n_ratings dst) (r_pct_pos dst) (r_mean_pos_prob dst)
            (r_recomm_score dst) (r_blend dst)
  | _ => set_num c (num c src) dst
  end.

Definition copy_cells (cols : list column) (src dst : Row) : Row :=
  fold_right (copy_cell src) dst cols.

(** The row of [right] aligned with the [i]-th row [r] of [left]. *)
Definition aligned (left right : Frame) (i : nat) (r : Row) : Row :=
  match f_index left, f_index right with
  | IdIndex, IdIndex =>
      match loc (r_id r) right with
      | Some x => x
      | None => nan_row (r_id r)
      end
  | RangeIndex, RangeIndex => nth i (f_rows right) (nan_row (r_id r))
  | _, _ => nan_row (r_id r)
  end.

Fixpoint join_rows (left right : Frame) (i : nat) (rows : list Row)
  : list Row :=
  match rows with
  | [] => []
  | r :: t =>
      copy_cells (f_columns right) (aligned left right i r) r
      :: join_rows left right (S i) t
  end.

(** [left.join(right, how='left')]: aligned on the index, whose labels
    are meant distinct in [right] (pandas repeats a row of [left] for
    every row of [right] with its label); overlapping column labels are
    refused. *)
Definition join (left right : Frame) : outcome Frame :=
  if existsb (fun c => has c left) (f_columns right) then Raise ValueError
  else Ok (mkFrame (f_index left) (f_columns left ++ f_columns right)
                   (join_rows left right O (f_rows left))).

(** [pd.DataFrame(rows)] for the dictionaries built by the candidate
    generator; no row gives a frame without columns. *)
Definition of_rows (rows : list Row) : Frame :=
  match rows with
  | [] => mkFrame RangeIndex [] []
  | _ => mkFrame RangeIndex
           [c_id; c_product_name; c_avg_rating; c_n_ratings; c_recomm_score]
           rows
  end.

(** [df['id']] *)
Definition getitem_id (f : Frame) : outcome (list string) :=
  if has c_id f then Ok (map r_id (f_rows f)) else Raise KeyError.

(** [df[mask]] with a boolean Series aligned on [df]. *)
Fixpoint keep {A} (mask : list bool) (l : list A) : list A :=
  match mask, l with
  | b :: m', x :: l' => if b then x :: keep m' l' else keep m' l'
  | _, _ => []
  end.

Definition getitem_mask (mask : list bool) (f : Frame) : Frame :=
  mkFrame (f_index f) (f_columns f) (keep mask (f_rows f)).

(** [s.fillna(v)] on one cell. *)
Definition fillna (v : Num.f64) (x : Num.cell) : Num.cell :=
  match x with
  | Some y => Some y
  | None => Some v
  end.

(** Element-wise float arithmetic: [k * s] and [s + t]. *)
Definition omul (k : Num.f64) (x : Num.cell) : Num.cell :=
  Num.mul (Some k) x.

Definition oadd (x y : Num.cell) : Num.cell := Num.add x y.

End DF.

(* ===================================================================== *)
(** ** The object store and the monad of the engine *)
(* ===================================================================== *)

Definition ref := nat.

Inductive object :=
| ODataFrame (f : Frame)
| OMatrix (m : Matrix).

(** The newest object comes first; the reference of an object is the
    number of objects allocated before it. *)
Definition heap := list object.

Fixpoint lookup (r : ref) (h : heap) : option object :=
  match h with
  | [] => None
  | o :: t => if Nat.eqb r (List.length t) then Some o else lookup r t
  end.

Fixpoint update (r : ref) (o : object) (h : heap) : heap :=
  match h with
  | [] => []
  | o' :: t => if Nat.eqb r (List.length t) then o :: t
               else o' :: update r o t
  end.

Definition M (A : Type) := heap -> outcome A * heap.

Definition ret {A} (a : A) : M A := fun h => (Ok a, h).

Definition raise {A} (e : exn) : M A := fun h => (Raise e, h).

Definition bind {A B} (m : M A) (k : A -> M B) : M B :=
  fun h => match m h with
           | (Ok a, h') => k a h'
           | (Raise e, h') => (Raise e, h')
           end.

Notation "x <- m ;; k" := (bind m (fun x => k))
  (at level 61, m at next level, right associativity).
Notation "m ;;; k" := (bind m (fun _ => k))
  (at level 61, right associativity).

(** A pure computation that may raise. *)
Definition lift {A} (o : outcome A) : M A := fun h => (o, h).

(** [try: body  except Exception: handler] *)
Definition try_except {A} (body handler : M A) : M A :=
  fun h => match body h with
           | (Ok a, h') => (Ok a, h')
           | (Raise _, h') => handler h'
           end.

Definition alloc (o : object) : M ref :=
  fun h => (Ok (List.length h), o :: h).

Definition frame_at (r : ref) : M Frame :=
  fun h => match lookup r h with
           | Some (ODataFrame f) => (Ok f, h)
           | _ => (Raise TypeError, h)
           end.

Definition matrix_at (r : ref) : M Matrix :=
  fun h => match lookup r h with
           | Some (OMatrix m) => (Ok m, h)
           | _ => (Raise TypeError, h)
           end.

Definition store (r : ref) (f : Frame) : M unit :=
  fun h => (Ok tt, update r (ODataFrame f) h).

(** A DataFrame method that returns a new DataFrame. *)
Definition call (method : Frame -> Frame) (df : ref) : M ref :=
  f <- frame_at df ;;
  alloc (ODataFrame (method f)).

(** [df[c] = e]: in place. *)
Definition setitem (df : ref) (c : column) (e_row : Row -> Num.cell)
  : M unit :=
  f <- frame_at df ;;
  store df (DF.assign c e_row f).

(** [c in df.columns] *)
Definition has_column (c : column) (df : ref) : M bool :=
  f <- frame_at df ;;
  ret (DF.has c f).

(** What a call returns and the store it leaves. *)
Definition result {A} (m : M A) (h : heap) : outcome A := fst (m h).
Definition store_after {A} (m : M A) (h : heap) : heap := snd (m h).

(* ===================================================================== *)
(** ** The engine: [model.py] *)
(* ===================================================================== *)

(** The module-level names bound by "Load artifacts". *)
Record Globals := mkGlobals {
  _item_sim_df : ref;
  _product_stats : ref;
  _user_item : option ref }.   (* [None] is Python's [None] *)

(** Lines 16-27, from the unpickled tables ([None] for [user_item] when
    the file does not exist or cannot be read). *)
Definition load_artifacts (item_sim : Matrix) (product_stats : Frame)
           (user_item : option Matrix) : M Globals :=
  sim <- alloc (OMatrix item_sim) ;;
  stats <- alloc (ODataFrame product_stats) ;;
  has_id <- has_column c_id stats ;;
  stats <- (if has_id then call DF.set_index_id stats else ret stats) ;;
  ui <- match user_item with
        | Some m => r <- alloc (OMatrix m) ;; ret (Some r)
        | None => ret None
        end ;;
  ret (mkGlobals sim stats ui).

Section Engine.

Variable G : Globals.

(** The value of [_user_item]: a table or [None]. *)
Definition user_item_table : M (option Matrix) :=
  match _user_item G with
  | Some r => m <- matrix_at r ;; ret (Some m)
  | None => ret None
  end.

(** *** [_popularity_fallback] *)

Definition _popularity_fallback (top_k : Z) : M ref :=
  stats <- frame_at (_product_stats G) ;;
  let cols := filter (fun c => DF.has c stats)
                [c_product_name; c_avg_rating; c_n_ratings;
                 c_pct_pos; c_mean_pos_prob] in
  df <- call (DF.getitem_cols cols) (_product_stats G) ;;
  df <- call DF.copy df ;;
  dfv <- frame_at df ;;
  let sort_cols := filter (fun c => DF.has c dfv)
                     [c_pct_pos; c_mean_pos_prob;
                      c_avg_rating; c_n_ratings] in
  df <- call (DF.sort_values sort_cols) df ;;
  df <- call (DF.head top_k) df ;;
  df <- call DF.reset_index df ;;
  setitem df c_recomm_score (fun _ => Some Num.zero) ;;;
  ret df.

(** *** [get_top20_products] *)

(** Lines 74-81: the score of one candidate. *)
Definition candidate_score (sim : Matrix) (user_ratings : Series)
           (rated_items : list string) (item : string)
  : outcome Num.cell :=
  obind (Mat.loc2 sim item rated_items) (fun sims =>
  obind (Mat.take user_ratings rated_items) (fun ratings =>
  if Num.is0 (Num.sum (Mat.values sims)) then Ok (Some Num.zero)
  else Ok (Num.div (Num.dot (Mat.values sims) (Mat.values ratings))
                   (Num.add (Num.sum (Mat.values sims))
                            (Some Num.eps))))).

(** Lines 66-81: the loop over the columns of the similarity table,
    filling the dictionary [scores]. *)
Fixpoint score_loop (sim : Matrix) (user_ratings : Series)
         (rated_items : list string) (items : list string)
         (scores : list (string * Num.cell))
  : outcome (list (string * Num.cell)) :=
  match items with
  | [] => Ok scores
  | item :: rest =>
      if Py.mem item rated_items then
        score_loop sim user_ratings rated_items rest scores
      else
        match rated_items with
        | [] => score_loop sim user_ratings rated_items rest
                           (Py.setitem item (Some Num.zero) scores)
        | _ => obind (candidate_score sim user_ratings rated_items item)
                 (fun s => score_loop sim user_ratings rated_items rest
                                      (Py.setitem item s scores))
        end
  end.

(** Lines 83-85: [sorted(scores.items(), key=..., reverse=True)[:top_k]]:
    an item stays in front of a later one unless its score is lower. *)
Definition rank (scores : list (string * Num.cell)) (top_k : Z)
  : list (string * Num.cell) :=
  Py.take top_k
    (Py.stable_sort (fun x y => negb (Num.ltb (snd x) (snd y))) scores).

(** Lines 89-98: the record of one ranked candidate. *)
Definition candidate_row (stats : Frame) (ranked : string * Num.cell)
  : outcome Row :=
  let (pid, score) := ranked in
  let meta := if DF.in_index pid stats then DF.loc pid stats else None in
  let product_name :=
    match meta with
    | Some r => if DF.has c_product_name stats then r_product_name r
                else None
    | None => None
    end in
  let avg_rating :=
    match meta with
    | Some r => if DF.has c_avg_rating stats then r_avg_rating r else None
    | None => None
    end in
  let n_ratings :=
    match meta with
    | Some r =>
        if DF.has c_n_ratings stats then
          match r_n_ratings r with
          | Some n =>
              match Num.int_of n with
              | Some z => Ok z
              | None => Raise OverflowError  (* int(inf) *)
              end
          | None => Raise ValueError         (* int(nan) *)
          end
        else Ok 0
    | None => Ok 0
    end in
  obind n_ratings (fun n =>
  Ok (mkRow pid product_name avg_rating (Some (Num.of_Z n)) None None
            score None)).

Fixpoint candidate_rows (stats : Frame)
         (ranked : list (string * Num.cell))
  : outcome (list Row) :=
  match ranked with
  | [] => Ok []
  | x :: t =>
      obind (candidate_row stats x) (fun r =>
      obind (candidate_rows stats t) (fun rows => Ok (r :: rows)))
  end.

Definition get_top20_products (username : string) (top_k : Z) : M ref :=
  ui <- user_item_table ;;
  match ui with
  | None => _popularity_fallback top_k
  | Some user_item =>
      if negb (Py.mem username (m_index user_item)) then
        _popularity_fallback top_k
      else
        user_ratings <- lift (Mat.loc user_item username) ;;
        let rated_items := Mat.positive_labels user_ratings in
        sim <- matrix_at (_item_sim_df G) ;;
        scores <- lift (score_loop sim user_ratings rated_items
                                   (m_columns sim) []) ;;
        let ranked := rank scores top_k in
        stats <- frame_at (_product_stats G) ;;
        rows <- lift (candidate_rows stats ranked) ;;
        alloc (ODataFrame (DF.of_rows rows))
  end.

(** *** [get_final_recommendations] *)

(** Lines 113-128: the candidates joined with the sentiment columns. *)
Definition merge_sentiment (username : string) (top_k_candidates : Z)
  : M ref :=
  cand_df <- get_top20_products username top_k_candidates ;;
  cand_df <- call DF.copy cand_df ;;
  has_id <- has_column c_id cand_df ;;
  cand_df <- (if has_id then call DF.set_index_id cand_df
              else ret cand_df) ;;
  stats <- frame_at (_product_stats G) ;;
  let sent_cols := filter (fun c => DF.has c stats)
                     [c_pct_pos; c_mean_pos_prob] in
  cand <- frame_at cand_df ;;
  prod_sent <- match sent_cols with
               | [] => alloc (ODataFrame (DF.of_index (DF.index cand)))
               | _ =>
                   t <- call (DF.reindex (DF.index cand))
                             (_product_stats G) ;;
                   t <- call (DF.getitem_cols sent_cols) t ;;
                   call DF.copy t
               end ;;
  sent <- frame_at prod_sent ;;
  let overlap := filter (fun c => DF.has c cand) (f_columns sent) in
  prod_sent <- match overlap with
               | [] => ret prod_sent
               | _ => call (DF.drop overlap) prod_sent
               end ;;
  sent <- frame_at prod_sent ;;
  merged <- lift (DF.join cand sent) ;;
  alloc (ODataFrame merged).

(** Lines 131-135, for one sentiment column. *)
Definition ensure_sentiment (merged : ref) (c : column) : M unit :=
  present <- has_column c merged ;;
  if negb present then setitem merged c (fun _ => Some Num.zero)
  else setitem merged c (fun r => DF.fillna Num.zero (DF.num c r)).

(** Line 146, element-wise. *)
Definition blend_of (r : Row) : Num.cell :=
  DF.oadd (DF.oadd (DF.omul Num.w_recomm (r_recomm_score r))
                   (DF.omul Num.w_pct_pos (r_pct_pos r)))
          (DF.omul Num.w_mean_pos_prob (r_mean_pos_prob r)).

(** Lines 113-153: the candidates, blended and sorted. *)
Definition blended (username : string) (top_k_candidates : Z) : M ref :=
  merged <- merge_sentiment username top_k_candidates ;;
  ensure_sentiment merged c_pct_pos ;;;
  ensure_sentiment merged c_mean_pos_prob ;;;
  has_score <- has_column c_recomm_score merged ;;
  (if negb has_score
   then setitem merged c_recomm_score (fun _ => Some Num.zero)
   else ret tt) ;;;
  setitem merged c_blend blend_of ;;;
  has_avg <- has_column c_avg_rating merged ;;
  let sort_cols := c_blend :: (if has_avg then [c_avg_rating] else []) in
  merged <- call DF.reset_index merged ;;
  call (DF.sort_values sort_cols) merged.

(** Lines 157-162: the filter on the items the user already rated. *)
Definition drop_rated (username : string) (merged : ref) : M ref :=
  try_except
    (ui <- user_item_table ;;
     match ui with
     | Some user_item =>
         if Py.mem username (m_index user_item) then
           user_ratings <- lift (Mat.loc user_item username) ;;
           let already := Mat.positive_labels user_ratings in
           f <- frame_at merged ;;
           ids <- lift (DF.getitem_id f) ;;
           call (DF.getitem_mask
                   (map (fun i => negb (Py.mem i already)) ids)) merged
         else ret merged
     | None => ret merged
     end)
    (ret merged).

(** Line 171: the rating count of a returned dictionary; [int] raises on
    an infinite count. *)
Definition final_count (cols : list column) (r : Row) : outcome Z :=
  if DF.mem c_n_ratings cols then
    match r_n_ratings r with
    | Some x =>
        match Num.int_of x with
        | Some z => Ok z
        | None => Raise OverflowError
        end
    | None => Ok 0
    end
  else Ok 0.

(** Lines 167-175: the returned dictionary, given its rating count.  A
    missing name is returned as the frame holds it, [None] or [NaN]
    according to the type pandas gave the column: [PMissing] stands for
    either. *)
Definition final_fields (cols : list column) (r : Row) (n_ratings : Z)
  : Py.dict :=
  [ ("id", Py.PStr (r_id r));
    ("product_name",
     if DF.mem c_product_name cols then
       match r_product_name r with
       | Some s => Py.PStr s
       | None => Py.PMissing
       end
     else Py.PNone);
    ("avg_rating",
     if DF.mem c_avg_rating cols then
       match r_avg_rating r with
       | Some x => Py.PFloat x
       | None => Py.PNone
       end
     else Py.PNone);
    ("n_ratings", Py.PInt n_ratings);
    ("pct_pos",
     if DF.mem c_pct_pos cols then
       match r_pct_pos r with
       | Some x => Py.PFloat x
       | None => Py.PNaN
       end
     else Py.PFloat Num.zero);
    ("mean_pos_prob",
     if DF.mem c_mean_pos_prob cols then
       match r_mean_pos_prob r with
       | Some x => Py.PFloat x
       | None => Py.PNaN
       end
     else Py.PFloat Num.zero);
    ("blend",
     if DF.mem c_blend cols then
       match r_blend r with
       | Some x => Py.PFloat x
       | None => Py.PNaN
       end
     else Py.PFloat Num.zero) ].

(** Lines 167-175: one returned dictionary.  [r['id']] raises when the
    frame has no ['id'] column. *)
Definition final_record (cols : list column) (r : Row)
  : outcome Py.dict :=
  if DF.mem c_id cols then
    obind (final_count cols r) (fun n => Ok (final_fields cols r n))
  else Raise KeyError.

Fixpoint final_records (cols : list column) (rows : list Row)
  : outcome (list Py.dict) :=
  match rows with
  | [] => Ok []
  | r :: t =>
      obind (final_record cols r) (fun d =>
      obind (final_records cols t) (fun out => Ok (d :: out)))
  end.

(** Lines 165-176: the first [final_k] rows as dictionaries. *)
Definition output (merged : ref) (final_k : Z) : M (list Py.dict) :=
  top <- call (DF.head final_k) merged ;;
  f <- frame_at top ;;
  lift (final_records (f_columns f) (f_rows f)).

Definition get_final_recommendations (username : string)
           (top_k_candidates final_k : Z) : M (list Py.dict) :=
  merged <- blended username top_k_candidates ;;
  merged <- drop_rated username merged ;;
  output merged final_k.

(** The same pipeline with the filter of lines 157-162 deleted. *)
Definition get_final_recommendations_unfiltered (username : string)
           (top_k_candidates final_k : Z) : M (list Py.dict) :=
  merged <- blended username top_k_candidates ;;
  output merged final_k.

End Engine.

(* ===================================================================== *)
(** ** What the programs compute: definitions used by the statements *)
(* ===================================================================== *)

(** [h'] is [h] with newer objects on top. *)
Definition extends (h h' : heap) : Prop := exists ext, h' = ext ++ h.

(** The module-level names denote the three loaded tables. *)
Definition Loaded (G : Globals) (h : heap)
           (sim : Matrix) (stats : Frame) (ui : option Matrix) : Prop :=
  lookup (_item_sim_df G) h = Some (OMatrix sim) /\
  lookup (_product_stats G) h = Some (ODataFrame stats) /\
  match _user_item G, ui with
  | Some r, Some m => lookup r h = Some (OMatrix m)
  | None, None => True
  | _, _ => False
  end.

Definition meta_cols : list column :=
  [c_product_name; c_avg_rating; c_n_ratings; c_pct_pos; c_mean_pos_prob].

Definition rank_cols : list column :=
  [c_pct_pos; c_mean_pos_prob; c_avg_rating; c_n_ratings].

(** The frame [_popularity_fallback] returns. *)
Definition fallback_frame (stats : Frame) (top_k : Z) : Frame :=
  let cols := filter (fun c => DF.has c stats) meta_cols in
  let sort_cols := filter (fun c => DF.mem c cols) rank_cols in
  DF.assign c_recomm_score (fun _ => Some Num.zero)
    (DF.reset_index
       (DF.head top_k
          (DF.sort_values sort_cols (DF.getitem_cols cols stats)))).

(** [m] returns a reference to a new-or-old frame [F], adding objects only. *)
Definition yields (m : M ref) (h : heap) (F : Frame) : Prop :=
  exists r h', m h = (Ok r, h') /\ extends h h' /\
               lookup r h' = Some (ODataFrame F).

Definition fails {A} (m : M A) (h : heap) (e : exn) : Prop :=
  exists h', m h = (Raise e, h') /\ extends h h'.

Definition computes (m : M ref) (h : heap) (o : outcome Frame) : Prop :=
  match o with
  | Ok F => yields m h F
  | Raise e => fails m h e
  end.

(** The frame the personalised branch of [get_top20_products] builds. *)
Definition personalised (sim : Matrix) (stats : Frame) (user_item : Matrix)
           (username : string) (top_k : Z) : outcome Frame :=
  obind (Mat.loc user_item username) (fun user_ratings =>
  let rated_items := Mat.positive_labels user_ratings in
  obind (score_loop sim user_ratings rated_items (m_columns sim) [])
    (fun scores =>
  obind (candidate_rows stats (rank scores top_k)) (fun rows =>
  Ok (DF.of_rows rows)))).

(** The user is known: the table exists and has a row for the user. *)
Definition known (ui : option Matrix) (username : string) : bool :=
  match ui with
  | Some m => Py.mem username (m_index m)
  | None => false
  end.

(** The frame [get_top20_products] returns. *)
Definition candidates (sim : Matrix) (stats : Frame) (ui : option Matrix)
           (username : string) (top_k : Z) : outcome Frame :=
  match ui with
  | None => Ok (fallback_frame stats top_k)
  | Some m =>
      if negb (Py.mem username (m_index m))
      then Ok (fallback_frame stats top_k)
      else personalised sim stats m username top_k
  end.

Definition sentiment_cols : list column := [c_pct_pos; c_mean_pos_prob].

(** Lines 116-117: the candidate frame indexed by ['id']. *)
Definition indexed (cand0 : Frame) : Frame :=
  if DF.has c_id cand0 then DF.set_index_id cand0 else cand0.

(** Lines 120-121: the sentiment columns of the statistics table for the
    candidates. *)
Definition prod_sent (stats cand : Frame) : Frame :=
  match filter (fun c => DF.has c stats) sentiment_cols with
  | [] => DF.of_index (DF.index cand)
  | sent_cols => DF.getitem_cols sent_cols (DF.reindex (DF.index cand) stats)
  end.

(** Line 124: the sentiment columns the candidates already carry. *)
Definition overlap (stats cand : Frame) : list column :=
  filter (fun c => DF.has c cand) (f_columns (prod_sent stats cand)).

(** Lines 116-128 on the candidate frame. *)
Definition merged_frame (stats cand0 : Frame) : outcome Frame :=
  let cand := indexed cand0 in
  let sent := match overlap stats cand with
              | [] => prod_sent stats cand
              | dropped => DF.drop dropped (prod_sent stats cand)
              end in
  DF.join cand sent.

(** Lines 131-135 on the merged frame. *)
Definition ensured (c : column) (f : Frame) : Frame :=
  if negb (DF.has c f) then DF.assign c (fun _ => Some Num.zero) f
  else DF.assign c (fun r => DF.fillna Num.zero (DF.num c r)) f.

(** Lines 131-139: the frame whose columns enter the blend. *)
Definition blend_input (merged : Frame) : Frame :=
  let m1 := ensured c_pct_pos merged in
  let m2 := ensured c_mean_pos_prob m1 in
  if negb (DF.has c_recomm_score m2)
  then DF.assign c_recomm_score (fun _ => Some Num.zero) m2 else m2.

(** Lines 131-146: the merged frame with its blend column. *)
Definition with_blend (merged : Frame) : Frame :=
  DF.assign c_blend blend_of (blend_input merged).

(** Lines 149-153. *)
Definition sorted_by_blend (m : Frame) : Frame :=
  let sort_cols :=
    c_blend :: (if DF.has c_avg_rating m then [c_avg_rating] else []) in
  DF.sort_values sort_cols (DF.reset_index m).

Definition blended_frame (stats cand : Frame) : outcome Frame :=
  obind (merged_frame stats cand) (fun m =>
  Ok (sorted_by_blend (with_blend m))).

(** Lines 157-162 on the sorted frame. *)
Definition without_rated (ui : option Matrix) (username : string)
           (f : Frame) : Frame :=
  match ui with
  | Some m =>
      if Py.mem username (m_index m) then
        match Mat.loc m username with
        | Ok user_ratings =>
            match DF.getitem_id f with
            | Ok ids =>
                DF.getitem_mask
                  (map (fun i =>
                          negb (Py.mem i (Mat.positive_labels user_ratings)))
                       ids) f
            | Raise _ => f
            end
        | Raise _ => f
        end
      else f
  | None => f
  end.

(** Lines 165-176 on the frame that reaches them. *)
Definition records_of (f : Frame) (final_k : Z) : outcome (list Py.dict) :=
  final_records (f_columns f) (Py.take final_k (f_rows f)).

(** What [get_final_recommendations] returns. *)
Definition recommendations (sim : Matrix) (stats : Frame)
           (ui : option Matrix) (username : string)
           (top_k_candidates final_k : Z) : outcome (list Py.dict) :=
  obind (candidates sim stats ui username top_k_candidates) (fun cand =>
  obind (blended_frame stats cand) (fun b =>
  records_of (without_rated ui username b) final_k)).

Definition recommendations_unfiltered (sim : Matrix) (stats : Frame)
           (ui : option Matrix) (username : string)
           (top_k_candidates final_k : Z) : outcome (list Py.dict) :=
  obind (candidates sim stats ui username top_k_candidates) (fun cand =>
  obind (blended_frame stats cand) (fun b => records_of b final_k)).

(** The returned frame is the newest object. *)
Definition yields_top (m : M ref) (h : heap) (F : Frame) : Prop :=
  exists h1, m h = (Ok (List.length h1), ODataFrame F :: h1) /\ extends h h1.

Definition computes_top (m : M ref) (h : heap) (o : outcome Frame) : Prop :=
  match o with
  | Ok F => yields_top m h F
  | Raise e => fails m h e
  end.

(* ===================================================================== *)
(** ** Observations and scenarios *)
(* ===================================================================== *)

(** The frame behind the reference a call returns. *)
Definition returned_frame (m : M ref) (h : heap) : option Frame :=
  match m h with
  | (Ok r, h') =>
      match lookup r h' with
      | Some (ODataFrame f) => Some f
      | _ => None
      end
  | (Raise _, _) => None
  end.

(** The identifiers a user rated strictly above 0 (line 64 and line 159). *)
Definition rated_items (ui : option Matrix) (username : string)
  : list string :=
  match ui with
  | Some m =>
      match Mat.loc m username with
      | Ok user_ratings => Mat.positive_labels user_ratings
      | Raise _ => []
      end
  | None => []
  end.

(** The names and the store of a process that has just loaded its
    artifacts. *)
Definition boot (item_sim : Matrix) (product_stats : Frame)
           (user_item : option Matrix) : Globals * heap :=
  match load_artifacts item_sim product_stats user_item [] with
  | (Ok G, h) => (G, h)
  | (Raise _, h) => (mkGlobals O O None, h)
  end.

(** The statistics table as the engine sees it after line 20. *)
Definition keyed (product_stats : Frame) : Frame :=
  if DF.has c_id product_stats then DF.set_index_id product_stats
  else product_stats.

(** A statistics row that only carries [pct_pos]. *)
Definition sentiment_only (i : string) (pct_pos : Num.f64) : Row :=
  mkRow i None None None (Some pct_pos) None None None.

Module ScenarioA.

(** Three products, only [pct_pos] known, no rating matrix. *)
Definition stats : Frame :=
  mkFrame IdIndex [c_pct_pos]
    [ sentiment_only "P1" (Num.dec 9 10);
      sentiment_only "P2" (Num.dec 5 10);
      sentiment_only "P3" (Num.dec 1 10) ].

Definition sim : Matrix :=
  mkMatrix ["P1"; "P2"; "P3"] ["P1"; "P2"; "P3"]
           (map (map Num.of_Z) [[1; 0; 0]; [0; 1; 0]; [0; 0; 1]]).

Definition G : Globals := fst (boot sim stats None).
Definition h : heap := snd (boot sim stats None).

End ScenarioA.

Module ScenarioB.

(** "bob" rated only A (5); similarity(B,A) = 0.8, similarity(C,A) = 0. *)
Definition sim : Matrix :=
  mkMatrix ["A"; "B"; "C"] ["A"; "B"; "C"]
           [ [Num.of_Z 1; Num.dec 8 10; Num.of_Z 0];
             [Num.dec 8 10; Num.of_Z 1; Num.of_Z 0];
             [Num.of_Z 0; Num.of_Z 0; Num.of_Z 1] ].

Definition user_item : Matrix :=
  mkMatrix ["bob"] ["A"; "B"; "C"] [map Num.of_Z [5; 0; 0]].

(** A and B have metadata, C has none. *)
Definition stats : Frame :=
  mkFrame IdIndex
    [c_product_name; c_avg_rating; c_n_ratings; c_pct_pos; c_mean_pos_prob]
    [ mkRow "A" (Some "Alpha") (Some (Num.of_Z 4)) (Some (Num.of_Z 10))
            (Some (Num.dec 5 10)) (Some (Num.dec 5 10)) None None;
      mkRow "B" (Some "Beta") (Some (Num.of_Z 3)) (Some (Num.of_Z 2))
            (Some (Num.dec 9 10)) (Some (Num.dec 5 10)) None None ].

Definition G : Globals := fst (boot sim stats (Some user_item)).
Definition h : heap := snd (boot sim stats (Some user_item)).

End ScenarioB.

(** The ratings of "bob", and [(0.8 * 5) / (0.8 + 1e-9)]. *)
Definition scenario_B_ratings : Series :=
  [("A", Num.of_Z 5); ("B", Num.of_Z 0); ("C", Num.of_Z 0)].

Definition scenario_B_score : Num.cell :=
  Num.div (Num.mul (Some (Num.dec 8 10)) (Some (Num.of_Z 5)))
          (Num.add (Some (Num.dec 8 10)) (Some (Num.dec 1 1000000000))).

(** The blend of B in scenario B, 0.6 * score + 0.3 * 0.9 + 0.1 * 0.5, and
    the records returned for "bob": B, then C, which has no statistics. *)
Definition scenario_B_blend : Num.cell :=
  Num.add (Num.add (Num.mul (Some (Num.dec 6 10)) scenario_B_score)
                   (Num.mul (Some (Num.dec 3 10)) (Some (Num.dec 9 10))))
          (Num.mul (Some (Num.dec 1 10)) (Some (Num.dec 5 10))).

Definition scenario_B_record_B : Py.dict :=
  [ ("id", Py.PStr "B"); ("product_name", Py.PStr "Beta");
    ("avg_rating", Py.PFloat (Num.of_Z 3)); ("n_ratings", Py.PInt 2);
    ("pct_pos", Py.PFloat (Num.dec 9 10));
    ("mean_pos_prob", Py.PFloat (Num.dec 5 10));
    ("blend", match scenario_B_blend with
              | Some x => Py.PFloat x
              | None => Py.PNaN
              end) ].

Definition scenario_B_record_C : Py.dict :=
  [ ("id", Py.PStr "C"); ("product_name", Py.PMissing);
    ("avg_rating", Py.PNone); ("n_ratings", Py.PInt 0);
    ("pct_pos", Py.PFloat Num.zero); ("mean_pos_prob", Py.PFloat Num.zero);
    ("blend", Py.PFloat Num.zero) ].

Module ScenarioNaN.

(** As scenario B, but the rating count of B is missing ([NaN]). *)
Definition stats : Frame :=
  mkFrame IdIndex
    [c_product_name; c_avg_rating; c_n_ratings; c_pct_pos; c_mean_pos_prob]
    [ mkRow "A" (Some "Alpha") (Some (Num.of_Z 4)) (Some (Num.of_Z 10))
            (Some (Num.dec 5 10)) (Some (Num.dec 5 10)) None None;
      mkRow "B" (Some "Beta") (Some (Num.of_Z 3)) None
            (Some (Num.dec 9 10)) (Some (Num.dec 5 10)) None None ].

Definition G : Globals :=
  fst (boot ScenarioB.sim stats (Some ScenarioB.user_item)).
Definition h : heap :=
  snd (boot ScenarioB.sim stats (Some ScenarioB.user_item)).

End ScenarioNaN.

(** The record scenario A returns for a product. *)
Definition scenario_A_record (i : string) (pct_pos blend : Num.f64)
  : Py.dict :=
  [ ("id", Py.PStr i); ("product_name", Py.PNone);
    ("avg_rating", Py.PNone); ("n_ratings", Py.PInt 0);
    ("pct_pos", Py.PFloat pct_pos); ("mean_pos_prob", Py.PFloat Num.zero);
    ("blend", Py.PFloat blend) ].



(** The row [reindex] finds in the statistics table for an identifier. *)
Definition stats_row (stats : Frame) (i : string) : Row :=
  match f_index stats with
  | IdIndex => match DF.loc i stats with
               | Some r => r
               | None => DF.nan_row i
               end
  | RangeIndex => DF.nan_row i
  end.

(** The sentiment columns the join adds to the candidates. *)
Definition joined_cols (stats cand : Frame) : list column :=
  filter (fun c => negb (DF.has c cand))
         (filter (fun c => DF.has c stats) sentiment_cols).

(** Lines 131-139 on one row: [hp], [hm], [hr] say whether the merged
    frame has the columns pct_pos, mean_pos_prob and recomm_score. *)
Definition blend_input_row (hp hm hr : bool) (r : Row) : Row :=
  mkRow (r_id r) (r_product_name r) (r_avg_rating r) (r_n_ratings r)
        (if hp then DF.fillna Num.zero (r_pct_pos r) else Some Num.zero)
        (if hm then DF.fillna Num.zero (r_mean_pos_prob r)
         else Some Num.zero)
        (if hr then r_recomm_score r else Some Num.zero)
        (r_blend r).

(** The cell [c] of [r] is the statistics table's value for the product of
    [r], or 0.0 when the table has no such column, no such product or no
    value there. *)
Definition from_stats (stats : Frame) (c : column) (r : Row) : Prop :=
  (DF.has c stats = true /\
   exists s, In s (f_rows stats) /\ r_id s = r_id r /\
             DF.num c r = DF.fillna Num.zero (DF.num c s))
  \/
  (DF.num c r = Some Num.zero /\
   (DF.has c stats = false \/ DF.in_index (r_id r) stats = false)).

(** The fields of a Candidate Record. *)
Definition candidate_fields : list column :=
  [c_id; c_product_name; c_avg_rating; c_n_ratings; c_recomm_score].

(** A row without metadata: no average rating, a count of 0. *)
Definition default_metadata (r : Row) : Prop :=
  r_avg_rating r = None /\ r_n_ratings r = Some Num.zero.



(** The identifier and the score of a candidate row. *)
Definition scored (r : Row) : string * Num.cell :=
  (r_id r, r_recomm_score r).

(** A table whose 2-D array has a row for every row label and a value
    for every column label. *)
Definition well_shaped (m : Matrix) : Prop :=
  (List.length (m_index m) <= List.length (m_values m))%nat /\
  Forall (fun row => List.length row = List.length (m_columns m))
         (m_values m).

(** The similarity table covers the scoring of a user's candidates: it is
    well shaped, its columns are row labels too, and the rated items are
    among its columns. *)
Definition covers (sim : Matrix) (rated : list string) : Prop :=
  well_shaped sim /\
  incl (m_columns sim) (m_index sim) /\
  incl rated (m_columns sim).

(** Every rating count of the statistics table is a finite number. *)
Definition counts_present (stats : Frame) : Prop :=
  DF.has c_n_ratings stats = true ->
  Forall (fun r => exists x z, r_n_ratings r = Some x /\
                               Num.int_of x = Some z)
         (f_rows stats).

(* ===================================================================== *)
(** ** The order of the binary64 numbers *)
(* ===================================================================== *)

(** A key whose lexicographic order is the order of the numbers: the
    class (negative infinity, negative, zero, positive, positive
    infinity), then the exponent and the mantissa, reversed for the
    negative numbers. *)
Definition order_key (x : Num.f64) : Z * Z * Z :=
  match x with
  | Num.Inf true => (-2, 0, 0)
  | Num.Fin true m e => (-1, - e, - Zpos m)
  | Num.Zero _ => (0, 0, 0)
  | Num.Fin false m e => (1, e, Zpos m)
  | Num.Inf false => (2, 0, 0)
  end.

Definition key_lt (a b : Z * Z * Z) : Prop :=
  let '(a1, a2, a3) := a in
  let '(b1, b2, b3) := b in
  a1 < b1 \/ (a1 = b1 /\ (a2 < b2 \/ (a2 = b2 /\ a3 < b3))).
(* ===================================================================== *)
(** ** The request handler: [app.py] *)
(* ===================================================================== *)

(** A Python [str] is modelled by its code points, here below 256. *)
Module Str.

(** [c.isspace()] for a code point below 256. *)
Definition isspace (c : Ascii.ascii) : bool :=
  let n := Ascii.nat_of_ascii c in
  ((9 <=? n)%nat && (n <=? 13)%nat) || ((28 <=? n)%nat && (n <=? 32)%nat)
  || (n =? 133)%nat || (n =? 160)%nat.

(** [s.lstrip()] *)
Fixpoint lstrip (s : string) : string :=
  match s with
  | EmptyString => EmptyString
  | String c t => if isspace c then lstrip t else s
  end.

(** [s.rstrip()] *)
Fixpoint rstrip (s : string) : string :=
  match s with
  | EmptyString => EmptyString
  | String c t =>
      match rstrip t with
      | EmptyString => if isspace c then EmptyString
                       else String c EmptyString
      | t' => String c t'
      end
  end.

(** [s.strip()] *)
Definition strip (s : string) : string := rstrip (lstrip s).

(** The string is made of whitespace only. *)
Fixpoint blank (s : string) : bool :=
  match s with
  | EmptyString => true
  | String c t => isspace c && blank t
  end.

End Str.

(** [try: body  except Exception as e: handler(e)] *)
Definition try_except_as {A} (body : M A) (handler : exn -> M A) : M A :=
  fun h => match body h with
           | (Ok a, h') => (Ok a, h')
           | (Raise e, h') => handler e h'
           end.

(** The text shown as an error: a literal message or [str(e)]. *)
Inductive error_text :=
| Message (s : string)
| OfException (e : exn).

(** What [render_template] is given: the template and its context. *)
Record Page := mkPage {
  page_template : string;
  page_error : option error_text;
  page_username : option string;
  page_recommendations : option (list Py.dict) }.

(** The posted form: field names with their values. *)
Definition Form := list (string * string).

(** [index()] *)
Definition index : Page := mkPage "index.html" None None None.

(** [request.form.get('username', '')] *)
Definition posted_username (form : Form) : string :=
  match Py.get "username" form with
  | Some v => v
  | None => ""
  end.

(** [recommend()] *)
Definition recommend (G : Globals) (form : Form) : M Page :=
  let username := Str.strip (posted_username form) in
  if String.eqb username "" then
    ret (mkPage "index.html" (Some (Message "Please enter a username."))
                None None)
  else
    try_except_as
      (results <- get_final_recommendations G username 20 5 ;;
       ret (mkPage "index.html" None (Some username) (Some results)))
      (fun e => ret (mkPage "index.html" (Some (OfException e)) None None)).

(* ===================================================================== *)
(** ** Observations on the returned records *)
(* ===================================================================== *)

(** The float under key [k] of a returned record. *)
Definition float_field (k : string) (d : Py.dict) : option Num.f64 :=
  match Py.get k d with
  | Some (Py.PFloat x) => Some x
  | _ => None
  end.

(** The identifier of a returned record. *)
Definition record_id (d : Py.dict) : option string :=
  match Py.get "id" d with
  | Some (Py.PStr i) => Some i
  | _ => None
  end.

(** The page that asks for a username. *)
Definition enter_username_page : Page :=
  mkPage "index.html" (Some (Message "Please enter a username.")) None None.

(** The page [recommend] builds from what the engine did. *)
Definition answer_page (username : string)
           (answer : outcome (list Py.dict)) : Page :=
  match answer with
  | Ok results => mkPage "index.html" None (Some username) (Some results)
  | Raise e => mkPage "index.html" (Some (OfException e)) None None
  end.

(** The value [s] with the strings [before] and [after] around it. *)
Definition padded (before s after : string) : string :=
  (before ++ s ++ after)%string.


(* ===================================================================== *)
(** ** Orders and scenarios for the ranking properties *)
(* ===================================================================== *)

(** [a] carries a score, and so does [b], not a higher one. *)
Definition by_score (a b : Row) : Prop :=
  exists x y, r_recomm_score a = Some x /\ r_recomm_score b = Some y /\
              Num.ltb (Some x) (Some y) = false.

(** The blend of a returned record: a float, or [None] for [NaN]. *)
Definition record_blend (d : Py.dict) : Num.cell := float_field "blend" d.

(** The record [d2] does not come before [d1] in the descending order of
    the blend, where [NaN] is last. *)
Definition by_blend (d1 d2 : Py.dict) : Prop :=
  Num.cell_geb (record_blend d1) (record_blend d2) = true.

(** No score of the dictionary is [NaN]. *)
Definition no_nan_score (scores : list (string * Num.cell)) : Prop :=
  Forall (fun p => snd p <> None) scores.

(** A cell as [float(...)] returns it. *)
Definition float_value (c : Num.cell) : Py.value :=
  match c with
  | Some x => Py.PFloat x
  | None => Py.PNaN
  end.

(** Line 146 on one row: [0.6 * s + 0.3 * p + 0.1 * m]. *)
Definition blend_formula (s p m : Num.cell) : Num.cell :=
  Num.add (Num.add (Num.mul (Some (Num.dec 6 10)) s)
                   (Num.mul (Some (Num.dec 3 10)) p))
          (Num.mul (Some (Num.dec 1 10)) m).

(** The rating counts of a frame are finite numbers. *)
Definition finite_counts (f : Frame) : Prop :=
  Forall (fun r => forall x, r_n_ratings r = Some x ->
                             Num.int_of x <> None)
         (f_rows f).

(** The sort key of [_popularity_fallback] (lines 43-45). *)
Definition popularity_key (stats : Frame) (r : Row) : list Num.cell :=
  DF.key (filter (fun c => DF.has c stats) rank_cols) r.

Module ScenarioIdle.

(** As scenario B, with a user "dan" who rated nothing above 0. *)
Definition user_item : Matrix :=
  mkMatrix ["bob"; "dan"] ["A"; "B"; "C"]
           (map (map Num.of_Z) [[5; 0; 0]; [0; 0; 0]]).

Definition G : Globals :=
  fst (boot ScenarioB.sim ScenarioB.stats (Some user_item)).
Definition h : heap :=
  snd (boot ScenarioB.sim ScenarioB.stats (Some user_item)).

End ScenarioIdle.

Module ScenarioGap.

(** "eve" rated Z, a product the similarity table does not know. *)
Definition user_item : Matrix :=
  mkMatrix ["eve"] ["A"; "Z"] [map Num.of_Z [0; 4]].

Definition G : Globals :=
  fst (boot ScenarioB.sim ScenarioB.stats (Some user_item)).
Definition h : heap :=
  snd (boot ScenarioB.sim ScenarioB.stats (Some user_item)).

End ScenarioGap.
(* ===================================================================== *)
(** ** Reasoning about the store *)
(* ===================================================================== *)

Lemma lookup_lt r h o : lookup r h = Some o -> (r < List.length h)%nat.
Proof.
  induction h as [|x t IH]; simpl; [discriminate|].
  destruct (Nat.eqb_spec r (List.length t)); intros H.
  - lia.
  - apply IH in H. lia.
Qed.

Lemma lookup_top h o : lookup (List.length h) (o :: h) = Some o.
Proof. simpl. now rewrite Nat.eqb_refl. Qed.

Lemma lookup_old r h o x :
  lookup r h = Some x -> lookup r (o :: h) = Some x.
Proof.
  intros H. simpl.
  destruct (Nat.eqb_spec r (List.length h)) as [E|_]; [|exact H].
  apply lookup_lt in H. lia.
Qed.

Lemma lookup_app r h ext x :
  lookup r h = Some x -> lookup r (ext ++ h) = Some x.
Proof.
  intros H. induction ext as [|o e IH]; simpl; [exact H|].
  now apply lookup_old.
Qed.

Lemma update_top h o o' : update (List.length h) o (o' :: h) = o :: h.
Proof. simpl. now rewrite Nat.eqb_refl. Qed.

Lemma extends_refl h : extends h h.
Proof. now exists []. Qed.

Lemma extends_cons h h' o : extends h h' -> extends h (o :: h').
Proof. intros [e ->]. now exists (o :: e). Qed.

Lemma extends_trans h1 h2 h3 :
  extends h1 h2 -> extends h2 h3 -> extends h1 h3.
Proof.
  intros [e1 ->] [e2 ->]. exists (e2 ++ e1). now rewrite app_assoc.
Qed.

Lemma extends_lookup h h' r x :
  extends h h' -> lookup r h = Some x -> lookup r h' = Some x.
Proof. intros [e ->]. apply lookup_app. Qed.

Lemma Loaded_extends G h h' sim stats ui :
  extends h h' -> Loaded G h sim stats ui -> Loaded G h' sim stats ui.
Proof.
  intros E (H1 & H2 & H3). repeat split.
  - eapply extends_lookup; eauto.
  - eapply extends_lookup; eauto.
  - destruct (_user_item G), ui; auto. eapply extends_lookup; eauto.
Qed.

Create HintDb store.

#[local] Hint Resolve lookup_top lookup_old extends_refl extends_cons
  : store.

(** Stepping through a program. *)
Lemma step_ret {A B} (a : A) (k : A -> M B) h : (x <- ret a ;; k x) h = k a h.
Proof. reflexivity. Qed.

Lemma step_lift {A B} (a : A) (k : A -> M B) h :
  (x <- lift (Ok a) ;; k x) h = k a h.
Proof. reflexivity. Qed.

Lemma step_alloc {B} o (k : ref -> M B) h :
  (x <- alloc o ;; k x) h = k (List.length h) (o :: h).
Proof. reflexivity. Qed.

Lemma step_frame_at {B} r f (k : Frame -> M B) h :
  lookup r h = Some (ODataFrame f) ->
  (x <- frame_at r ;; k x) h = k f h.
Proof. intros H. unfold bind, frame_at. now rewrite H. Qed.

Lemma step_matrix_at {B} r m (k : Matrix -> M B) h :
  lookup r h = Some (OMatrix m) ->
  (x <- matrix_at r ;; k x) h = k m h.
Proof. intros H. unfold bind, matrix_at. now rewrite H. Qed.

Lemma step_call {B} g r f (k : ref -> M B) h :
  lookup r h = Some (ODataFrame f) ->
  (x <- call g r ;; k x) h = k (List.length h) (ODataFrame (g f) :: h).
Proof. intros H. unfold call, bind, frame_at, alloc. now rewrite H. Qed.

Lemma step_has_column {B} c r f (k : bool -> M B) h :
  lookup r h = Some (ODataFrame f) ->
  (x <- has_column c r ;; k x) h = k (DF.has c f) h.
Proof. intros H. unfold has_column, bind, frame_at, ret. now rewrite H. Qed.

Lemma step_setitem_top {B} c e f (k : unit -> M B) h :
  (x <- setitem (List.length h) c e ;; k x) (ODataFrame f :: h)
  = k tt (ODataFrame (DF.assign c e f) :: h).
Proof.
  unfold setitem, bind, frame_at, store. rewrite lookup_top.
  now rewrite update_top.
Qed.

Ltac store_lookup := solve [eauto 8 with store].

Ltac step :=
  first
    [ rewrite step_ret
    | rewrite step_lift
    | rewrite step_alloc
    | rewrite step_setitem_top
    | erewrite step_frame_at by store_lookup
    | erewrite step_matrix_at by store_lookup
    | erewrite step_call by store_lookup
    | erewrite step_has_column by store_lookup ].

Lemma popularity_fallback_yields G h sim stats ui top_k :
  Loaded G h sim stats ui ->
  yields (_popularity_fallback G top_k) h (fallback_frame stats top_k).
Proof.
  intros (Hsim & Hstats & Hui).
  unfold yields, _popularity_fallback.
  repeat step.
  do 2 eexists. split; [reflexivity|]. split.
  - eauto 10 with store.
  - apply lookup_top.
Qed.

Lemma step_raise {A B} e (k : A -> M B) h :
  (x <- lift (Raise e) ;; k x) h = (Raise e, h).
Proof. reflexivity. Qed.

Lemma run_call g r f h :
  lookup r h = Some (ODataFrame f) ->
  call g r h = (Ok (List.length h), ODataFrame (g f) :: h).
Proof. intros H. unfold call, bind, frame_at, alloc. now rewrite H. Qed.

Lemma user_item_table_run G h sim stats ui :
  Loaded G h sim stats ui -> user_item_table G h = (Ok ui, h).
Proof.
  intros (_ & _ & H). unfold user_item_table.
  destruct (_user_item G) as [r|], ui as [m|]; try contradiction.
  - now erewrite step_matrix_at by eassumption.
  - reflexivity.
Qed.

Lemma step_user_item_table {B} G h sim stats ui (k : option Matrix -> M B) :
  Loaded G h sim stats ui ->
  (x <- user_item_table G ;; k x) h = k ui h.
Proof.
  intros H. unfold bind. now rewrite (user_item_table_run H).
Qed.

Lemma computes_eq (m m' : M ref) h o :
  m h = m' h -> computes m' h o -> computes m h o.
Proof.
  intros E. destruct o; simpl; unfold yields, fails; now rewrite E.
Qed.

Lemma get_top20_products_computes G h sim stats ui username top_k :
  Loaded G h sim stats ui ->
  computes (get_top20_products G username top_k) h
           (candidates sim stats ui username top_k).
Proof.
  intros L. pose proof L as (Hsim & Hstats & _).
  pose proof (popularity_fallback_yields top_k L) as FB.
  unfold candidates.
  destruct ui as [m|].
  2:{ eapply computes_eq; [|exact FB].
      unfold get_top20_products.
      now rewrite (step_user_item_table _ L). }
  destruct (negb (Py.mem username (m_index m))) eqn:Eknown.
  { eapply computes_eq; [|exact FB].
    unfold get_top20_products.
    rewrite (step_user_item_table _ L). now rewrite Eknown. }
  unfold personalised.
  assert (E0 : get_top20_products G username top_k h =
    (user_ratings <- lift (Mat.loc m username) ;;
     let rated_items := Mat.positive_labels user_ratings in
     sim <- matrix_at (_item_sim_df G) ;;
     scores <- lift (score_loop sim user_ratings rated_items
                                (m_columns sim) []) ;;
     let ranked := rank scores top_k in
     stats <- frame_at (_product_stats G) ;;
     rows <- lift (candidate_rows stats ranked) ;;
     alloc (ODataFrame (DF.of_rows rows))) h).
  { unfold get_top20_products.
    rewrite (step_user_item_table _ L). now rewrite Eknown. }
  eapply computes_eq; [exact E0|]. clear E0.
  destruct (Mat.loc m username) as [user_ratings|e]; simpl.
  2:{ exists h. split; [reflexivity | apply extends_refl]. }
  destruct (score_loop _ _ _ _ _) as [scores|e] eqn:Es; simpl.
  2:{ exists h. rewrite step_lift.
      erewrite step_matrix_at by eassumption. simpl. rewrite Es.
      split; [reflexivity | apply extends_refl]. }
  destruct (candidate_rows _ _) as [rows|e] eqn:Er; simpl.
  2:{ exists h. rewrite step_lift.
      erewrite step_matrix_at by eassumption. simpl. rewrite Es.
      rewrite step_lift. erewrite step_frame_at by eassumption.
      rewrite Er. split; [reflexivity | apply extends_refl]. }
  exists (List.length h), (ODataFrame (DF.of_rows rows) :: h).
  rewrite step_lift. erewrite step_matrix_at by eassumption. simpl.
  rewrite Es. rewrite step_lift. erewrite step_frame_at by eassumption.
  rewrite Er. rewrite step_lift.
  split; [reflexivity|].
  split; [eauto with store | apply lookup_top].
Qed.

(* --------------------------------------------------------------------- *)
(** *** Running the programs *)

Lemma bind_ok {A B} (m : M A) (k : A -> M B) h a h' :
  m h = (Ok a, h') -> (x <- m ;; k x) h = k a h'.
Proof. intros E. unfold bind. now rewrite E. Qed.

Lemma bind_raise {A B} (m : M A) (k : A -> M B) h e h' :
  m h = (Raise e, h') -> (x <- m ;; k x) h = (Raise e, h').
Proof. intros E. unfold bind. now rewrite E. Qed.

Lemma bind_assoc {A B C} (m : M A) (k1 : A -> M B) (k2 : B -> M C) h :
  (y <- (x <- m ;; k1 x) ;; k2 y) h = (x <- m ;; y <- k1 x ;; k2 y) h.
Proof. unfold bind. destruct (m h) as [[a|e] h']; reflexivity. Qed.


Ltac run :=
  repeat first
    [ step
    | rewrite bind_assoc
    | erewrite run_call by store_lookup
    | match goal with
      | |- context [bind (if ?b then _ else _) _] =>
          destruct b eqn:?; cbv beta iota
      | |- context [bind (match ?x with [] => _ | _ :: _ => _ end) _] =>
          destruct x eqn:?; cbv beta iota
      | |- context [lift (DF.join ?a ?b)] =>
          destruct (DF.join a b) eqn:?; cbv beta iota
      | |- context [lift (Raise ?e)] => rewrite step_raise
      end ].

Lemma merge_sentiment_computes G h sim stats ui username top_k :
  Loaded G h sim stats ui ->
  computes_top (merge_sentiment G username top_k) h
    (obind (candidates sim stats ui username top_k) (merged_frame stats)).
Proof.
  intros L.
  pose proof (get_top20_products_computes username top_k L) as C.
  destruct (candidates sim stats ui username top_k) as [cand|e]; simpl in *.
  { destruct C as (r & h' & E & X & Hr).
    pose proof (Loaded_extends X L) as (Hsim & Hstats & _).
    assert (R : exists h1, merge_sentiment G username top_k h =
       match merged_frame stats cand with
       | Ok F => (Ok (List.length h1), ODataFrame F :: h1)
       | Raise e => (Raise e, h1)
       end /\ extends h' h1).
    { unfold merge_sentiment. erewrite bind_ok by exact E.
      unfold merged_frame, overlap, prod_sent, indexed, sentiment_cols,
        DF.copy.
      run.
      all: eexists; (split; [reflexivity|]); eauto 10 with store. }
    destruct R as (h1 & R & X1).
    destruct (merged_frame stats cand) as [F|e];
      exists h1; (split; [exact R|]); eapply extends_trans; eauto. }
  destruct C as (h' & E & X). exists h'. split; [|exact X].
  unfold merge_sentiment. now erewrite bind_raise by exact E.
Qed.

Lemma blended_computes G h sim stats ui username top_k :
  Loaded G h sim stats ui ->
  computes_top (blended G username top_k) h
    (obind (candidates sim stats ui username top_k) (blended_frame stats)).
Proof.
  intros L.
  pose proof (merge_sentiment_computes username top_k L) as C.
  unfold blended_frame.
  destruct (candidates sim stats ui username top_k) as [cand|e]; simpl in *.
  2:{ destruct C as (h' & E & X). exists h'. split; [|exact X].
      unfold blended. now erewrite bind_raise by exact E. }
  destruct (merged_frame stats cand) as [F|e]; simpl in *.
  2:{ destruct C as (h' & E & X). exists h'. split; [|exact X].
      unfold blended. now erewrite bind_raise by exact E. }
  destruct C as (h1 & E & X).
  unfold yields_top, blended. erewrite bind_ok by exact E.
  unfold sorted_by_blend, with_blend, blend_input, ensured,
    ensure_sentiment.
  run.
  all: eexists; (split; [reflexivity|]); eauto 10 with store.
Qed.

Lemma drop_rated_yields G h sim stats ui username r F :
  Loaded G h sim stats ui ->
  lookup r h = Some (ODataFrame F) ->
  yields (drop_rated G username r) h (without_rated ui username F).
Proof.
  intros L Hr. unfold yields, drop_rated, try_except, without_rated.
  rewrite (step_user_item_table _ L).
  destruct ui as [m|].
  2:{ exists r, h. cbn. eauto with store. }
  destruct (Py.mem username (m_index m)).
  2:{ exists r, h. cbn. eauto with store. }
  destruct (Mat.loc m username) as [user_ratings|e].
  2:{ exists r, h. cbn. eauto with store. }
  rewrite step_lift. erewrite step_frame_at by eassumption.
  destruct (DF.getitem_id F) as [ids|e].
  2:{ exists r, h. cbn. eauto with store. }
  rewrite step_lift. erewrite run_call by eassumption.
  do 2 eexists. split; [reflexivity|]. eauto with store.
Qed.

Lemma output_run r F final_k h :
  lookup r h = Some (ODataFrame F) ->
  output r final_k h
  = (records_of F final_k, ODataFrame (DF.head final_k F) :: h).
Proof.
  intros Hr. unfold output. erewrite step_call by eassumption.
  erewrite step_frame_at by apply lookup_top. reflexivity.
Qed.

Lemma get_final_recommendations_run
      G h sim stats ui username top_k_candidates final_k :
  Loaded G h sim stats ui ->
  exists h',
    get_final_recommendations G username top_k_candidates final_k h
    = (recommendations sim stats ui username top_k_candidates final_k, h')
    /\ extends h h'.
Proof.
  intros L.
  pose proof (blended_computes username top_k_candidates L) as C.
  unfold get_final_recommendations, recommendations.
  destruct (candidates sim stats ui username top_k_candidates) as [cand|e];
    simpl in *.
  2:{ destruct C as (h' & E & X). exists h'. split; [|exact X].
      now erewrite bind_raise by exact E. }
  destruct (blended_frame stats cand) as [B|e]; simpl in *.
  2:{ destruct C as (h' & E & X). exists h'. split; [|exact X].
      now erewrite bind_raise by exact E. }
  destruct C as (h1 & E & X).
  erewrite bind_ok by exact E.
  assert (L1 : Loaded G (ODataFrame B :: h1) sim stats ui)
    by (eapply Loaded_extends; [|exact L]; eauto with store).
  destruct (@drop_rated_yields G _ sim stats ui username _ _ L1
                               (lookup_top h1 (ODataFrame B)))
    as (r & h2 & E2 & X2 & Hr).
  erewrite bind_ok by exact E2.
  rewrite (@output_run _ _ final_k _ Hr).
  eexists. split; [reflexivity|].
  apply extends_cons. eapply extends_trans; [|exact X2]. eauto with store.
Qed.

Lemma get_final_recommendations_unfiltered_run
      G h sim stats ui username top_k_candidates final_k :
  Loaded G h sim stats ui ->
  exists h',
    get_final_recommendations_unfiltered G username top_k_candidates
                                         final_k h
    = (recommendations_unfiltered sim stats ui username top_k_candidates
                                  final_k, h')
    /\ extends h h'.
Proof.
  intros L.
  pose proof (blended_computes username top_k_candidates L) as C.
  unfold get_final_recommendations_unfiltered, recommendations_unfiltered.
  destruct (candidates sim stats ui username top_k_candidates) as [cand|e];
    simpl in *.
  2:{ destruct C as (h' & E & X). exists h'. split; [|exact X].
      now erewrite bind_raise by exact E. }
  destruct (blended_frame stats cand) as [B|e]; simpl in *.
  2:{ destruct C as (h' & E & X). exists h'. split; [|exact X].
      now erewrite bind_raise by exact E. }
  destruct C as (h1 & E & X).
  erewrite bind_ok by exact E.
  rewrite (@output_run _ _ final_k _ (lookup_top h1 (ODataFrame B))).
  eexists. split; [reflexivity|]. eauto with store.
Qed.


Unset Implicit Arguments.

(* ===================================================================== *)
(** ** Loading *)
(* ===================================================================== *)

Lemma boot_Loaded item_sim product_stats user_item :
  Loaded (fst (boot item_sim product_stats user_item))
         (snd (boot item_sim product_stats user_item))
         item_sim (keyed product_stats) user_item.
Proof.
  unfold boot, load_artifacts, keyed.
  repeat step.
  destruct (DF.has c_id product_stats); destruct user_item as [m|];
    repeat step; cbn; repeat split;
    repeat (rewrite Nat.eqb_refl || cbn); reflexivity.
Qed.

(** The list [get_final_recommendations] returns is a function of the
    tables and the arguments. *)
Lemma result_recommendations G h sim stats ui username top_k_candidates
      final_k :
  Loaded G h sim stats ui ->
  result (get_final_recommendations G username top_k_candidates final_k) h
  = recommendations sim stats ui username top_k_candidates final_k.
Proof.
  intros L. unfold result.
  destruct (get_final_recommendations_run username top_k_candidates
                                          final_k L) as (h' & E & _).
  now rewrite E.
Qed.

(* ===================================================================== *)
(** ** The store is never modified (C9) *)
(* ===================================================================== *)

(** C9. No call of [get_top20_products] or [get_final_recommendations]
    modifies an object that existed before the call: the store after the
    call is the store before it with new objects on top, so the three
    loaded tables (item similarity, product statistics, user-item matrix)
    are still what the module-level names denote, and the same request
    made again gets the same answer. *)
Theorem artifacts_never_modified
        G h sim stats ui username top_k top_k_candidates final_k :
  Loaded G h sim stats ui ->
  (extends h (store_after (get_top20_products G username top_k) h) /\
   Loaded G (store_after (get_top20_products G username top_k) h)
          sim stats ui) /\
  (extends h (store_after (get_final_recommendations
                             G username top_k_candidates final_k) h) /\
   Loaded G (store_after (get_final_recommendations
                            G username top_k_candidates final_k) h)
          sim stats ui) /\
  result (get_final_recommendations G username top_k_candidates final_k)
         (store_after (get_final_recommendations
                         G username top_k_candidates final_k) h)
  = result (get_final_recommendations G username top_k_candidates final_k)
           h.
Proof.
  intros L.
  assert (X1 : extends h (store_after (get_top20_products G username top_k) h)).
  { pose proof (get_top20_products_computes username top_k L) as C.
    unfold store_after.
    destruct (candidates sim stats ui username top_k); simpl in C.
    - destruct C as (r & h' & E & X & _). now rewrite E.
    - destruct C as (h' & E & X). now rewrite E. }
  assert (X2 : extends h (store_after (get_final_recommendations
                             G username top_k_candidates final_k) h)).
  { destruct (get_final_recommendations_run
                username top_k_candidates final_k L) as (h' & E & X).
    unfold store_after. now rewrite E. }
  split; [|split].
  - split; [assumption | eapply Loaded_extends; eassumption].
  - split; [assumption | eapply Loaded_extends; eassumption].
  - rewrite (result_recommendations _ _ _ _ _ _ _ _ L).
    apply result_recommendations. eapply Loaded_extends; eassumption.
Qed.

Lemma artifacts_never_modified_witness :
  (extends ScenarioB.h
     (store_after (get_top20_products ScenarioB.G "bob" 20) ScenarioB.h) /\
   Loaded ScenarioB.G
     (store_after (get_top20_products ScenarioB.G "bob" 20) ScenarioB.h)
     ScenarioB.sim ScenarioB.stats (Some ScenarioB.user_item)) /\
  (extends ScenarioB.h
     (store_after (get_final_recommendations ScenarioB.G "bob" 20 5)
                  ScenarioB.h) /\
   Loaded ScenarioB.G
     (store_after (get_final_recommendations ScenarioB.G "bob" 20 5)
                  ScenarioB.h)
     ScenarioB.sim ScenarioB.stats (Some ScenarioB.user_item)) /\
  result (get_final_recommendations ScenarioB.G "bob" 20 5)
         (store_after (get_final_recommendations ScenarioB.G "bob" 20 5)
                      ScenarioB.h)
  = result (get_final_recommendations ScenarioB.G "bob" 20 5) ScenarioB.h.
Proof.
  apply (@artifacts_never_modified ScenarioB.G ScenarioB.h ScenarioB.sim
           ScenarioB.stats (Some ScenarioB.user_item) "bob" 20 20 5).
  vm_compute. repeat split.
Defined.

(** An assignment through a module-level name would be seen by every
    later request: the store does not make the tables immutable by
    construction. *)
Lemma assignment_through_alias_is_visible :
  lookup (_product_stats ScenarioA.G)
         (store_after (setitem (_product_stats ScenarioA.G) c_recomm_score
                               (fun _ => Some Num.zero))
                      ScenarioA.h)
  <> lookup (_product_stats ScenarioA.G) ScenarioA.h.
Proof. vm_compute. discriminate. Qed.

(* ===================================================================== *)
(** ** Unknown users get the popularity ranking (C2) *)
(* ===================================================================== *)

(** C2. When the user-item matrix is absent, or the username is not one
    of its keys, [get_top20_products] is [_popularity_fallback] for the
    same [top_k]: the same reference to the same frame in the same store,
    hence identical rows, order and fields. *)
Theorem unknown_user_gets_fallback G h sim stats ui username top_k :
  Loaded G h sim stats ui ->
  known ui username = false ->
  get_top20_products G username top_k h = _popularity_fallback G top_k h
  /\ returned_frame (get_top20_products G username top_k) h
     = Some (fallback_frame stats top_k).
Proof.
  intros L K.
  assert (E : get_top20_products G username top_k h
              = _popularity_fallback G top_k h).
  { unfold get_top20_products. rewrite (step_user_item_table _ L).
    destruct ui as [m|]; [|reflexivity].
    simpl in K. now rewrite K. }
  split; [exact E|].
  unfold returned_frame. rewrite E.
  destruct (popularity_fallback_yields top_k L) as (r & h' & E' & _ & Hr).
  now rewrite E', Hr.
Qed.

Lemma unknown_user_gets_fallback_witness :
  get_top20_products ScenarioB.G "carol" 20 ScenarioB.h
  = _popularity_fallback ScenarioB.G 20 ScenarioB.h
  /\ returned_frame (get_top20_products ScenarioB.G "carol" 20) ScenarioB.h
     = Some (fallback_frame ScenarioB.stats 20).
Proof.
  apply (@unknown_user_gets_fallback ScenarioB.G ScenarioB.h ScenarioB.sim
           ScenarioB.stats (Some ScenarioB.user_item) "carol" 20).
  - vm_compute. repeat split.
  - reflexivity.
Defined.

(* ===================================================================== *)
(** ** Sorting and slicing *)
(* ===================================================================== *)

Section Sorting.

Context {A : Type}.
Variable before : A -> A -> bool.

Lemma insert_by_perm x l : Permutation (Py.insert_by before x l) (x :: l).
Proof.
  induction l as [|y t IH]; simpl; [reflexivity|].
  destruct (before x y); [reflexivity|].
  rewrite IH. apply perm_swap.
Qed.

Lemma stable_sort_perm l : Permutation (Py.stable_sort before l) l.
Proof.
  induction l as [|x t IH]; simpl; [reflexivity|].
  rewrite insert_by_perm. now constructor.
Qed.

Lemma stable_sort_length l :
  List.length (Py.stable_sort before l) = List.length l.
Proof. apply Permutation_length, stable_sort_perm. Qed.

Lemma stable_sort_In x l : In x (Py.stable_sort before l) <-> In x l.
Proof.
  split; apply Permutation_in;
    [apply stable_sort_perm | symmetry; apply stable_sort_perm].
Qed.

Hypothesis before_total : forall a b, before a b = false -> before b a = true.

Lemma insert_by_sorted x l :
  Sorted (fun a b => before a b = true) l ->
  Sorted (fun a b => before a b = true) (Py.insert_by before x l).
Proof.
  induction l as [|y t IH]; simpl; intros S.
  - repeat constructor.
  - destruct (before x y) eqn:E.
    + constructor; [exact S | constructor; exact E].
    + apply Sorted_inv in S. destruct S as [St Hd].
      constructor; [now apply IH|].
      destruct t as [|z t']; simpl.
      * constructor. now apply before_total.
      * destruct (before x z); constructor.
        -- now apply before_total.
        -- now apply HdRel_inv in Hd.
Qed.

Lemma stable_sort_sorted l :
  Sorted (fun a b => before a b = true) (Py.stable_sort before l).
Proof.
  induction l as [|x t IH]; simpl; [constructor | now apply insert_by_sorted].
Qed.

End Sorting.

Lemma Sorted_firstn {A} (R : A -> A -> Prop) n l :
  Sorted R l -> Sorted R (firstn n l).
Proof.
  revert l. induction n as [|n IH]; intros [|x t] S; simpl; try constructor.
  - apply IH. now apply Sorted_inv in S.
  - apply Sorted_inv in S. destruct S as [_ Hd].
    destruct n, t; simpl; constructor. now apply HdRel_inv in Hd.
Qed.

Lemma Sorted_take {A} (R : A -> A -> Prop) k l :
  Sorted R l -> Sorted R (Py.take k l).
Proof. unfold Py.take. destruct (0 <=? k); apply Sorted_firstn. Qed.

Lemma Sorted_map {A B} (R : A -> A -> Prop) (R' : B -> B -> Prop)
      (f : A -> B) l :
  (forall a b, R a b -> R' (f a) (f b)) ->
  Sorted R l -> Sorted R' (map f l).
Proof.
  intros Hf. induction l as [|x t IH]; simpl; intros S; [constructor|].
  apply Sorted_inv in S. destruct S as [St Hd].
  constructor; [now apply IH|].
  destruct t; simpl; constructor. apply Hf. now apply HdRel_inv in Hd.
Qed.

Lemma Sorted_weaken {A} (R R' : A -> A -> Prop) l :
  (forall a b, R a b -> R' a b) -> Sorted R l -> Sorted R' l.
Proof.
  intros Hf S. rewrite <- (map_id l). now apply Sorted_map with (R := R).
Qed.

Lemma take_length_le {A} k (l : list A) :
  (List.length (Py.take k l) <= List.length l)%nat.
Proof.
  unfold Py.take. destruct (0 <=? k); rewrite length_firstn; lia.
Qed.

Lemma take_length_pos {A} k (l : list A) :
  0 <= k -> Z.of_nat (List.length (Py.take k l)) <= k.
Proof.
  intros H. unfold Py.take.
  destruct (Z.leb_spec 0 k); [|lia]. rewrite length_firstn. lia.
Qed.

Lemma In_firstn {A} n (l : list A) x : In x (firstn n l) -> In x l.
Proof.
  revert l. induction n as [|n IH]; intros [|y t]; simpl; try tauto.
  intros [E|H]; [now left | right; now apply IH].
Qed.

Lemma take_In {A} k (l : list A) x : In x (Py.take k l) -> In x l.
Proof.
  unfold Py.take. destruct (0 <=? k); apply In_firstn.
Qed.

(** The comparison of [SpecFloat] on numbers is the lexicographic order
    of their keys. *)
Lemma ltb_key x y :
  Num.ltb (Some x) (Some y) = true <-> key_lt (order_key x) (order_key y).
Proof.
  unfold Num.ltb, SFltb.
  destruct x as [sx|sx|sx mx ex], y as [sy|sy|sy my ey];
    destruct sx, sy; cbn [Num.spec Num.to_spec SFcompare order_key key_lt];
    try (split; [discriminate | lia]);
    try (split; [lia | reflexivity]);
    try (split; [intros _; lia | reflexivity]).
  - change (Pos.compare_cont Eq mx my) with (Pos.compare mx my).
    destruct (Z.compare_spec ex ey), (Pos.compare_spec mx my); cbn;
      split; intros H'; try discriminate; try reflexivity; try lia.
  - change (Pos.compare_cont Eq mx my) with (Pos.compare mx my).
    destruct (Z.compare_spec ex ey), (Pos.compare_spec mx my); cbn;
      split; intros H'; try discriminate; try reflexivity; try lia.
Qed.

Lemma ltb_key_false x y :
  Num.ltb (Some x) (Some y) = false <->
  ~ key_lt (order_key x) (order_key y).
Proof.
  rewrite <- ltb_key.
  destruct (Num.ltb (Some x) (Some y)); split; intros; congruence.
Qed.

Ltac keys :=
  repeat match goal with
         | H : Num.ltb (Some _) (Some _) = true |- _ => apply ltb_key in H
         | H : Num.ltb (Some _) (Some _) = false |- _ =>
             apply ltb_key_false in H
         | |- Num.ltb (Some _) (Some _) = true => apply ltb_key
         | |- Num.ltb (Some _) (Some _) = false => apply ltb_key_false
         end;
  repeat match goal with
         | x : Num.f64 |- _ =>
             let a := fresh "a" in
             let b := fresh "b" in
             let c := fresh "c" in
             destruct (order_key x) as [[a b] c]; clear x
         end;
  unfold key_lt in *; lia.

Lemma ltb_asym x y :
  Num.ltb (Some x) (Some y) = true -> Num.ltb (Some y) (Some x) = false.
Proof. intros H. keys. Qed.

Lemma ltb_trans x y z :
  Num.ltb (Some x) (Some y) = true -> Num.ltb (Some y) (Some z) = true ->
  Num.ltb (Some x) (Some z) = true.
Proof. intros H1 H2. keys. Qed.

Lemma ltb_negtrans x y z :
  Num.ltb (Some x) (Some y) = false -> Num.ltb (Some y) (Some z) = false ->
  Num.ltb (Some x) (Some z) = false.
Proof. intros H1 H2. keys. Qed.

Lemma ltb_nan_l b : Num.ltb None b = false.
Proof. reflexivity. Qed.

Lemma ltb_nan_r a : Num.ltb a None = false.
Proof. destruct a as [[s|s|s m e]|]; reflexivity. Qed.

Lemma cell_gtb_asym a b : Num.cell_gtb a b = true -> Num.cell_gtb b a = false.
Proof.
  destruct a as [x|], b as [y|]; simpl; try discriminate; auto.
  apply ltb_asym.
Qed.

Lemma lex_geb_total k1 k2 :
  Num.lex_geb k1 k2 = false -> Num.lex_geb k2 k1 = true.
Proof.
  revert k2. induction k1 as [|a r1 IH]; intros [|b r2]; simpl;
    try discriminate.
  destruct (Num.cell_gtb a b) eqn:Eab; [discriminate|].
  destruct (Num.cell_gtb b a) eqn:Eba; [reflexivity|]. apply IH.
Qed.

Lemma lex_geb_head a r1 b r2 :
  Num.lex_geb (a :: r1) (b :: r2) = true -> Num.cell_geb a b = true.
Proof.
  simpl. unfold Num.cell_geb.
  destruct (Num.cell_gtb a b) eqn:Eab.
  - intros _. now rewrite (cell_gtb_asym _ _ Eab).
  - destruct (Num.cell_gtb b a); [discriminate | reflexivity].
Qed.

(* ===================================================================== *)
(** ** Cells, keys and columns *)
(* ===================================================================== *)

Lemma num_set_num_same c v r :
  DF.num c (DF.set_num c v r) = match c with
                                | c_id | c_index | c_product_name => None
                                | _ => v
                                end.
Proof. destruct c; reflexivity. Qed.

Lemma num_set_num_other c c' v r :
  c <> c' -> DF.num c (DF.set_num c' v r) = DF.num c r.
Proof. destruct c, c'; intros H; try reflexivity; congruence. Qed.

Lemma id_set_num c v r : r_id (DF.set_num c v r) = r_id r.
Proof. destruct c; reflexivity. Qed.

Lemma key_set_num by_ c v r :
  ~ In c by_ -> DF.key by_ (DF.set_num c v r) = DF.key by_ r.
Proof.
  intros H. unfold DF.key. apply map_ext_in. intros c' Hc'.
  apply num_set_num_other. congruence.
Qed.

Lemma column_beq_refl c : column_beq c c = true.
Proof. destruct c; reflexivity. Qed.

Lemma column_beq_eq c c' : column_beq c c' = true -> c = c'.
Proof. destruct c, c'; simpl; intros H; try reflexivity; discriminate. Qed.

Lemma mem_In c cols : DF.mem c cols = true <-> In c cols.
Proof.
  unfold DF.mem. rewrite existsb_exists. split.
  - intros (x & Hx & E). apply column_beq_eq in E. now subst.
  - intros H. exists c. split; [exact H | apply column_beq_refl].
Qed.

Lemma assign_columns c e f :
  f_columns (DF.assign c e f)
  = if DF.mem c (f_columns f) then f_columns f else f_columns f ++ [c].
Proof. reflexivity. Qed.

Lemma has_assign_same c e f : DF.has c (DF.assign c e f) = true.
Proof.
  unfold DF.has. rewrite assign_columns.
  destruct (DF.mem c (f_columns f)) eqn:E; [exact E|].
  unfold DF.mem. rewrite existsb_app. cbn.
  rewrite column_beq_refl. now rewrite orb_true_r.
Qed.

Lemma has_assign_old c c' e f :
  DF.has c f = true -> DF.has c (DF.assign c' e f) = true.
Proof.
  unfold DF.has. rewrite assign_columns. intros H.
  destruct (DF.mem c' (f_columns f)); [exact H|].
  unfold DF.mem in *. rewrite existsb_app. now rewrite H.
Qed.

Lemma returned_frame_yields m h F :
  yields m h F -> returned_frame m h = Some F.
Proof.
  intros (r & h' & E & _ & Hr). unfold returned_frame. now rewrite E, Hr.
Qed.

(* ===================================================================== *)
(** ** The popularity ranker (C4) *)
(* ===================================================================== *)

Lemma fallback_sort_cols stats :
  filter (fun c => DF.mem c (filter (fun c => DF.has c stats) meta_cols))
         rank_cols
  = filter (fun c => DF.has c stats) rank_cols.
Proof.
  unfold meta_cols, rank_cols. cbn [filter].
  destruct (DF.has c_product_name stats), (DF.has c_avg_rating stats),
    (DF.has c_n_ratings stats), (DF.has c_pct_pos stats),
    (DF.has c_mean_pos_prob stats); reflexivity.
Qed.

Lemma fallback_frame_rows stats top_k :
  f_rows (fallback_frame stats top_k)
  = map (DF.set_num c_recomm_score (Some Num.zero))
        (Py.take top_k
           (Py.stable_sort
              (fun a b =>
                 Num.lex_geb
                   (DF.key (filter (fun c => DF.has c stats) rank_cols) a)
                   (DF.key (filter (fun c => DF.has c stats) rank_cols) b))
              (f_rows stats))).
Proof.
  unfold fallback_frame. rewrite fallback_sort_cols.
  unfold DF.reset_index, DF.head, DF.sort_values, DF.getitem_cols. cbn.
  destruct (f_index stats); reflexivity.
Qed.

Lemma rank_cols_not_score (p : column -> bool) :
  ~ In c_recomm_score (filter p rank_cols).
Proof.
  intros H. apply filter_In in H. destruct H as [H _].
  unfold rank_cols in H. simpl in H. intuition discriminate.
Qed.

(** C4. For every [top_k > 0], the frame [_popularity_fallback] returns has
    at most [top_k] rows and at most as many rows as the statistics table;
    its rows are in non-increasing lexicographic order of the columns of
    [pct_pos, mean_pos_prob, avg_rating, n_ratings] that the table has (so
    non-increasing in the first of them, the later ones breaking ties, a
    missing value counting as the smallest); and it has a [recomm_score]
    column whose every cell is 0.0. *)
Theorem popularity_ranker_sorted G h sim stats ui top_k :
  Loaded G h sim stats ui ->
  0 < top_k ->
  exists f,
    returned_frame (_popularity_fallback G top_k) h = Some f /\
    Z.of_nat (List.length (f_rows f)) <= top_k /\
    (List.length (f_rows f) <= List.length (f_rows stats))%nat /\
    Sorted (fun a b =>
              Num.lex_geb
                (DF.key (filter (fun c => DF.has c stats) rank_cols) a)
                (DF.key (filter (fun c => DF.has c stats) rank_cols) b)
              = true)
           (f_rows f) /\
    (forall c rest,
        filter (fun c => DF.has c stats) rank_cols = c :: rest ->
        Sorted (fun a b => Num.cell_geb (DF.num c a) (DF.num c b) = true)
               (f_rows f)) /\
    DF.has c_recomm_score f = true /\
    Forall (fun r => r_recomm_score r = Some Num.zero) (f_rows f).
Proof.
  intros L Hk. exists (fallback_frame stats top_k).
  split; [apply returned_frame_yields, (popularity_fallback_yields top_k L)|].
  rewrite fallback_frame_rows.
  set (by_ := filter (fun c => DF.has c stats) rank_cols).
  set (sorted := Py.stable_sort _ (f_rows stats)).
  assert (S : Sorted (fun a b => Num.lex_geb (DF.key by_ a) (DF.key by_ b)
                                 = true)
                     (map (DF.set_num c_recomm_score (Some Num.zero))
                          (Py.take top_k sorted))).
  { apply Sorted_map
      with (R := fun a b => Num.lex_geb (DF.key by_ a) (DF.key by_ b) = true).
    - intros a b Hab.
      rewrite !key_set_num by apply rank_cols_not_score. exact Hab.
    - apply Sorted_take. subst sorted.
      apply (stable_sort_sorted
               (fun a b => Num.lex_geb (DF.key by_ a) (DF.key by_ b))).
      intros a b. apply lex_geb_total. }
  rewrite length_map. repeat split.
  - apply take_length_pos. lia.
  - etransitivity; [apply take_length_le|].
    subst sorted. now rewrite stable_sort_length.
  - exact S.
  - intros c rest E. eapply Sorted_weaken; [|exact S].
    intros a b. cbv beta. rewrite E. apply lex_geb_head.
  - apply has_assign_same.
  - apply Forall_forall. intros r Hr. apply in_map_iff in Hr.
    destruct Hr as (r0 & <- & _). reflexivity.
Qed.

Lemma popularity_ranker_sorted_witness :
  exists f,
    returned_frame (_popularity_fallback ScenarioB.G 1) ScenarioB.h = Some f /\
    Z.of_nat (List.length (f_rows f)) <= 1 /\
    (List.length (f_rows f) <= List.length (f_rows ScenarioB.stats))%nat /\
    Sorted (fun a b =>
              Num.lex_geb
                (DF.key (filter (fun c => DF.has c ScenarioB.stats)
                                rank_cols) a)
                (DF.key (filter (fun c => DF.has c ScenarioB.stats)
                                rank_cols) b)
              = true)
           (f_rows f) /\
    (forall c rest,
        filter (fun c => DF.has c ScenarioB.stats) rank_cols = c :: rest ->
        Sorted (fun a b => Num.cell_geb (DF.num c a) (DF.num c b) = true)
               (f_rows f)) /\
    DF.has c_recomm_score f = true /\
    Forall (fun r => r_recomm_score r = Some Num.zero) (f_rows f).
Proof.
  apply (@popularity_ranker_sorted ScenarioB.G ScenarioB.h ScenarioB.sim
           ScenarioB.stats (Some ScenarioB.user_item) 1).
  - vm_compute. repeat split.
  - lia.
Defined.

(* ===================================================================== *)
(** ** A missing rating count escapes as an exception (C7) *)
(* ===================================================================== *)

(** C7. [get_top20_products] is meant never to raise on missing data, but
    line 96 converts the rating count with [int(...)] without the [isna]
    test that line 171 applies to the same field: for the known user
    "bob", whose candidate B has a statistics row with a missing rating
    count, the call raises [ValueError]; the popularity path of
    [get_final_recommendations] reads the same row for an unknown user and
    reports a count of 0. *)
Theorem nan_rating_count_raises :
  result (get_top20_products ScenarioNaN.G "bob" 20) ScenarioNaN.h
  = Raise ValueError /\
  exists out,
    result (get_final_recommendations ScenarioNaN.G "carol" 20 5)
           ScenarioNaN.h = Ok out /\
    exists d, In d out /\ Py.get "id" d = Some (Py.PStr "B") /\
              Py.get "n_ratings" d = Some (Py.PInt 0).
Proof.
  split; [vm_compute; reflexivity|].
  eexists. split; [vm_compute; reflexivity|].
  eexists. split; [left; reflexivity|]. split; reflexivity.
Qed.

(* ===================================================================== *)
(** ** Scenario A (C6) *)
(* ===================================================================== *)

(** C6, as stated, fails: the returned records of scenario A do not carry
    a [recomm_score] field at all. *)
Lemma scenario_A_records_have_no_recomm_score :
  exists out,
    result (get_final_recommendations ScenarioA.G "alice" 20 2) ScenarioA.h
    = Ok out /\
    ~ (forall d, In d out ->
                 Py.get "recomm_score" d = Some (Py.PFloat Num.zero)).
Proof.
  eexists. split; [vm_compute; reflexivity|].
  intros H. specialize (H _ (or_introl eq_refl)). discriminate H.
Qed.

(** C6, amended. With the three products P1 (0.9), P2 (0.5), P3 (0.1) and
    no user-item matrix, [get_final_recommendations("alice", 20, 2)]
    returns exactly the records of P1 and P2, in that order, with blends
    0.27 and 0.15; these records have no [recomm_score] field; the
    candidates they come from all carry [recomm_score = 0.0]. *)
Theorem scenario_A_returns_P1_then_P2 :
  result (get_final_recommendations ScenarioA.G "alice" 20 2) ScenarioA.h
  = Ok [ scenario_A_record "P1" (Num.dec 9 10) (Num.dec 27 100);
         scenario_A_record "P2" (Num.dec 5 10) (Num.dec 15 100) ] /\
  Py.get "recomm_score"
         (scenario_A_record "P1" (Num.dec 9 10) (Num.dec 27 100)) = None /\
  Py.get "recomm_score"
         (scenario_A_record "P2" (Num.dec 5 10) (Num.dec 15 100)) = None /\
  exists cand,
    returned_frame (get_top20_products ScenarioA.G "alice" 20) ScenarioA.h
    = Some cand /\
    map r_id (f_rows cand) = ["P1"; "P2"; "P3"] /\
    Forall (fun r => r_recomm_score r = Some Num.zero) (f_rows cand).
Proof.
  split; [vm_compute; reflexivity|].
  split; [reflexivity|]. split; [reflexivity|].
  eexists. split; [vm_compute; reflexivity|].
  split; [reflexivity|]. repeat constructor.
Qed.

(* ===================================================================== *)
(** ** Candidate scores (C3) *)
(* ===================================================================== *)






(* ===================================================================== *)
(** ** Identifiers along the pipeline *)
(* ===================================================================== *)

Lemma mem_false_not_In x l : Py.mem x l = false -> ~ In x l.
Proof.
  unfold Py.mem. intros H Hin.
  assert (T : existsb (String.eqb x) l = true).
  { apply existsb_exists. exists x. split; [exact Hin|].
    apply String.eqb_refl. }
  congruence.
Qed.

Lemma mem_true_In x l : Py.mem x l = true -> In x l.
Proof.
  unfold Py.mem. intros H. apply existsb_exists in H.
  destruct H as (y & Hy & E). apply String.eqb_eq in E. now subst.
Qed.

Lemma id_copy_cell src c dst : r_id (DF.copy_cell src c dst) = r_id dst.
Proof. destruct c; reflexivity. Qed.

Lemma id_copy_cells cols src dst : r_id (DF.copy_cells cols src dst) = r_id dst.
Proof.
  induction cols as [|c t IH]; simpl; [reflexivity|].
  now rewrite id_copy_cell.
Qed.

Lemma join_rows_ids left right i rows :
  map r_id (DF.join_rows left right i rows) = map r_id rows.
Proof.
  revert i. induction rows as [|r t IH]; intros i; simpl; [reflexivity|].
  now rewrite id_copy_cells, IH.
Qed.

Lemma indexed_rows cand : f_rows (indexed cand) = f_rows cand.
Proof. unfold indexed. now destruct (DF.has c_id cand). Qed.

Lemma merged_frame_ids stats cand M :
  merged_frame stats cand = Ok M ->
  map r_id (f_rows M) = map r_id (f_rows cand).
Proof.
  unfold merged_frame, DF.join. intros H.
  destruct (existsb _ _); [discriminate|].
  inversion H; subst; clear H. cbn [f_rows].
  now rewrite join_rows_ids, indexed_rows.
Qed.

Lemma assign_ids c e f :
  map r_id (f_rows (DF.assign c e f)) = map r_id (f_rows f).
Proof.
  unfold DF.assign. cbn [f_rows]. rewrite map_map.
  apply map_ext. intros r. apply id_set_num.
Qed.

Lemma ensured_ids c f : map r_id (f_rows (ensured c f)) = map r_id (f_rows f).
Proof.
  unfold ensured. destruct (negb (DF.has c f)); apply assign_ids.
Qed.

Lemma with_blend_ids M :
  map r_id (f_rows (with_blend M)) = map r_id (f_rows M).
Proof.
  unfold with_blend, blend_input. rewrite assign_ids.
  destruct (negb (DF.has c_recomm_score _));
    [rewrite assign_ids|]; now rewrite !ensured_ids.
Qed.

Lemma reset_index_rows f : f_rows (DF.reset_index f) = f_rows f.
Proof. unfold DF.reset_index. now destruct (f_index f). Qed.

Lemma sorted_by_blend_In r f :
  In r (f_rows (sorted_by_blend f)) <-> In r (f_rows f).
Proof.
  unfold sorted_by_blend, DF.sort_values. cbn [f_rows].
  rewrite stable_sort_In. now rewrite reset_index_rows.
Qed.

Lemma blended_frame_ids stats cand B r :
  blended_frame stats cand = Ok B ->
  In r (f_rows B) -> In (r_id r) (map r_id (f_rows cand)).
Proof.
  unfold blended_frame. intros H Hr.
  destruct (merged_frame stats cand) as [M|e] eqn:EM; [|discriminate].
  cbn [obind] in H. inversion H; subst; clear H.
  apply (proj1 (sorted_by_blend_In _ _)) in Hr.
  rewrite <- (merged_frame_ids _ _ _ EM), <- with_blend_ids.
  now apply in_map.
Qed.

Lemma final_record_inv cols r d :
  final_record cols r = Ok d ->
  DF.mem c_id cols = true /\
  exists n, final_count cols r = Ok n /\ d = final_fields cols r n.
Proof.
  unfold final_record. destruct (DF.mem c_id cols); [|discriminate].
  destruct (final_count cols r) as [n|]; [|discriminate].
  cbn [obind]. intros H. inversion H. eauto.
Qed.

Lemma final_record_id cols r d :
  final_record cols r = Ok d ->
  Py.get "id" d = Some (Py.PStr (r_id r)) /\ DF.mem c_id cols = true.
Proof.
  intros H. destruct (final_record_inv _ _ _ H) as (Hc & n & _ & ->).
  split; [reflexivity | exact Hc].
Qed.

Lemma final_records_In cols rows out d :
  final_records cols rows = Ok out -> In d out ->
  exists r, In r rows /\ final_record cols r = Ok d.
Proof.
  revert out. induction rows as [|r t IH]; intros out H Hd; simpl in H.
  - inversion H; subst. destruct Hd.
  - destruct (final_record cols r) as [d0|e] eqn:E0; [|discriminate].
    destruct (final_records cols t) as [out'|e] eqn:E1; [|discriminate].
    cbn in H. inversion H; subst; clear H.
    destruct Hd as [<-|Hd].
    + exists r. split; [now left | exact E0].
    + destruct (IH _ eq_refl Hd) as (r' & Hr' & E'). exists r'.
      split; [now right | exact E'].
Qed.

Lemma keep_In {A} (p : A -> bool) (l : list A) x :
  In x (DF.keep (map p l) l) -> p x = true /\ In x l.
Proof.
  induction l as [|y t IH]; simpl; [tauto|].
  destruct (p y) eqn:E.
  - intros [<-|H]; [split; [exact E | now left]|].
    destruct (IH H). split; [assumption | now right].
  - intros H. destruct (IH H). split; [assumption | now right].
Qed.

Lemma keep_all {A} (p : A -> bool) (l : list A) :
  Forall (fun x => p x = true) l -> DF.keep (map p l) l = l.
Proof.
  induction 1 as [|x t Hx _ IH]; simpl; [reflexivity|].
  now rewrite Hx, IH.
Qed.

(* ===================================================================== *)
(** ** Rated items never come back (C1) *)
(* ===================================================================== *)

(** C1. For a username that is a key of the user-item matrix, whatever
    [top_k_candidates] and [final_k] are, no record of the list
    [get_final_recommendations] returns has an [id] among the products
    the user rated strictly above 0. *)
Theorem rated_items_excluded
        G h sim stats ui username top_k_candidates final_k out :
  Loaded G h sim stats ui ->
  known ui username = true ->
  result (get_final_recommendations G username top_k_candidates final_k) h
  = Ok out ->
  forall d i,
    In d out -> Py.get "id" d = Some (Py.PStr i) ->
    ~ In i (rated_items ui username).
Proof.
  intros L K R d i Hd Hi.
  rewrite (result_recommendations _ _ _ _ _ _ _ _ L) in R.
  unfold recommendations in R.
  destruct (candidates sim stats ui username top_k_candidates) as [cand|e];
    [|discriminate].
  cbn [obind] in R.
  destruct (blended_frame stats cand) as [B|e]; [|discriminate].
  cbn [obind] in R. unfold records_of in R.
  destruct (final_records_In _ _ _ _ R Hd) as (r & Hr & Er).
  apply final_record_id in Er. destruct Er as [Eid Hcol].
  rewrite Eid in Hi. inversion Hi; subst i; clear Hi.
  apply take_In in Hr.
  unfold known in K. unfold rated_items, without_rated in *.
  destruct ui as [m|]; [|discriminate]. rewrite K in *.
  destruct (Mat.loc m username) as [user_ratings|e]; [|intros []].
  unfold DF.getitem_id, DF.has, DF.getitem_mask in Hr, Hcol.
  destruct (DF.mem c_id (f_columns B)) eqn:EB;
    cbn [f_columns f_rows] in Hr, Hcol; [|congruence].
  rewrite map_map in Hr.
  apply (keep_In (fun r => negb (Py.mem (r_id r)
                                      (Mat.positive_labels user_ratings))))
    in Hr.
  destruct Hr as [Hr _]. apply negb_true_iff in Hr.
  now apply mem_false_not_In.
Qed.

Lemma rated_items_excluded_witness :
  ~ In "B" (rated_items (Some ScenarioB.user_item) "bob").
Proof.
  apply (rated_items_excluded
           ScenarioB.G ScenarioB.h ScenarioB.sim ScenarioB.stats
           (Some ScenarioB.user_item) "bob" 20 5
           [scenario_B_record_B; scenario_B_record_C])
    with (d := scenario_B_record_B).
  - vm_compute. repeat split.
  - reflexivity.
  - vm_compute. reflexivity.
  - left. reflexivity.
  - reflexivity.
Defined.

(* ===================================================================== *)
(** ** The filter on rated items removes nothing (C10) *)
(* ===================================================================== *)

Lemma setitem_keys k v d x :
  In x (map fst (Py.setitem k v d)) -> x = k \/ In x (map fst d).
Proof.
  induction d as [|[k' v'] t IH]; simpl.
  - intros [<-|[]]. now left.
  - destruct (String.eqb_spec k k') as [->|N]; simpl.
    + intros [<-|H]; [right; now left | right; now right].
    + intros [<-|H]; [right; now left|].
      destruct (IH H); [now left | right; now right].
Qed.

Lemma score_loop_keys sim user_ratings rated_items items :
  forall scores final,
    score_loop sim user_ratings rated_items items scores = Ok final ->
    forall x, In x (map fst final) ->
              In x (map fst scores) \/ Py.mem x rated_items = false.
Proof.
  induction items as [|item rest IH]; intros scores final H x Hx;
    simpl in H.
  - inversion H; subst. now left.
  - destruct (Py.mem item rated_items) eqn:Em; [now apply (IH _ _ H)|].
    assert (S : exists s, score_loop sim user_ratings rated_items rest
                                     (Py.setitem item s scores) = Ok final).
    { destruct rated_items as [|r0 rs]; [eexists; exact H|].
      destruct (candidate_score sim user_ratings (r0 :: rs) item) as [s|e];
        simpl in H; [|discriminate].
      eexists; exact H. }
    destruct S as (s & Hs).
    destruct (IH _ _ Hs x Hx) as [Hin|Hm]; [|now right].
    apply setitem_keys in Hin. destruct Hin as [->|Hin]; [now right|now left].
Qed.

Lemma rank_In scores top_k x : In x (rank scores top_k) -> In x scores.
Proof.
  unfold rank. intros H. apply take_In in H. now apply stable_sort_In in H.
Qed.

Lemma candidate_rows_ids stats ranked rows :
  candidate_rows stats ranked = Ok rows ->
  map r_id rows = map fst ranked.
Proof.
  revert rows. induction ranked as [|[pid score] t IH]; intros rows H;
    cbn [candidate_rows] in H.
  - now inversion H.
  - destruct (candidate_row stats (pid, score)) as [r|e] eqn:Er;
      [|discriminate].
    destruct (candidate_rows stats t) as [rows'|e]; [|discriminate].
    cbn [obind] in H. inversion H; subst; clear H. simpl.
    rewrite (IH _ eq_refl). f_equal.
    unfold candidate_row in Er.
    destruct (if DF.in_index pid stats then DF.loc pid stats else None)
      as [meta|];
      [destruct (DF.has c_n_ratings stats);
       [destruct (r_n_ratings meta) as [x|]; [destruct (Num.int_of x)|]|]|];
      cbn [obind] in Er; inversion Er; reflexivity.
Qed.

Lemma of_rows_rows rows : f_rows (DF.of_rows rows) = rows.
Proof. now destruct rows. Qed.

Lemma personalised_unrated sim stats m username top_k cand :
  personalised sim stats m username top_k = Ok cand ->
  forall user_ratings,
    Mat.loc m username = Ok user_ratings ->
    Forall (fun r => Py.mem (r_id r) (Mat.positive_labels user_ratings)
                     = false)
           (f_rows cand).
Proof.
  unfold personalised. intros H user_ratings Hu. rewrite Hu in H.
  cbn [obind] in H.
  destruct (score_loop _ _ _ _ _) as [scores|e] eqn:Es; [|discriminate].
  cbn [obind] in H.
  destruct (candidate_rows _ _) as [rows|e] eqn:Er; [|discriminate].
  cbn [obind] in H. inversion H; subst; clear H.
  rewrite of_rows_rows. apply Forall_forall. intros r Hr.
  assert (Hid : In (r_id r) (map fst (rank scores top_k))).
  { rewrite <- (candidate_rows_ids _ _ _ Er). now apply in_map. }
  apply in_map_iff in Hid. destruct Hid as ([pid s] & E & Hin).
  simpl in E. subst pid. apply rank_In in Hin.
  destruct (score_loop_keys _ _ _ _ _ _ Es (r_id r)) as [[]|Hm];
    [|exact Hm].
  change (r_id r) with (fst (r_id r, s)). now apply in_map.
Qed.

Lemma without_rated_id sim stats ui username top_k cand B :
  candidates sim stats ui username top_k = Ok cand ->
  blended_frame stats cand = Ok B ->
  without_rated ui username B = B.
Proof.
  intros Hc Hb. unfold without_rated.
  destruct ui as [m|]; [|reflexivity].
  destruct (Py.mem username (m_index m)) eqn:Ek; [|reflexivity].
  destruct (Mat.loc m username) as [user_ratings|e] eqn:Eu; [|reflexivity].
  unfold DF.getitem_id. destruct (DF.has c_id B); [|reflexivity].
  unfold candidates in Hc. rewrite Ek in Hc. cbn [negb] in Hc.
  pose proof (personalised_unrated _ _ _ _ _ _ Hc _ Eu) as U.
  unfold DF.getitem_mask. rewrite map_map.
  rewrite (keep_all (fun r => negb (Py.mem (r_id r)
                                      (Mat.positive_labels user_ratings)))).
  - now destruct B.
  - apply Forall_forall. intros r Hr. apply negb_true_iff.
    pose proof (blended_frame_ids _ _ _ _ Hb Hr) as Hid.
    apply in_map_iff in Hid. destruct Hid as (r0 & E & H0).
    rewrite <- E. rewrite Forall_forall in U. now apply U.
Qed.

(** C10. The filter of lines 157-162 never removes a candidate: for every
    input, [get_final_recommendations] returns what the same pipeline
    returns with that filter deleted (the same list, or the same
    exception). *)
Theorem rated_filter_is_redundant
        G h sim stats ui username top_k_candidates final_k :
  Loaded G h sim stats ui ->
  result (get_final_recommendations G username top_k_candidates final_k) h
  = result (get_final_recommendations_unfiltered
              G username top_k_candidates final_k) h.
Proof.
  intros L. rewrite (result_recommendations _ _ _ _ _ _ _ _ L).
  unfold result at 1.
  destruct (get_final_recommendations_unfiltered_run
              username top_k_candidates final_k L)
    as (h' & E & _).
  rewrite E. cbn [fst].
  unfold recommendations, recommendations_unfiltered.
  destruct (candidates sim stats ui username top_k_candidates) as [cand|e]
    eqn:Ec; [|reflexivity].
  cbn [obind].
  destruct (blended_frame stats cand) as [B|e] eqn:Eb; [|reflexivity].
  cbn [obind]. now rewrite (without_rated_id _ _ _ _ _ _ _ Ec Eb).
Qed.

Lemma rated_filter_is_redundant_witness :
  result (get_final_recommendations ScenarioB.G "bob" 20 5) ScenarioB.h
  = result (get_final_recommendations_unfiltered ScenarioB.G "bob" 20 5)
           ScenarioB.h.
Proof.
  apply (rated_filter_is_redundant ScenarioB.G ScenarioB.h ScenarioB.sim
           ScenarioB.stats (Some ScenarioB.user_item) "bob" 20 5).
  vm_compute. repeat split.
Defined.

(* ===================================================================== *)
(** ** Cells along the pipeline *)
(* ===================================================================== *)

Lemma stats_row_id stats i : r_id (stats_row stats i) = i.
Proof.
  unfold stats_row, DF.loc. destruct (f_index stats); [|reflexivity].
  destruct (find _ _) as [r|] eqn:E; [|reflexivity].
  apply find_some in E. destruct E as [_ E].
  apply String.eqb_eq in E. now symmetry.
Qed.

Lemma reindex_labels ids stats :
  DF.reindex (IdLabels ids) stats
  = mkFrame IdIndex (f_columns stats) (map (stats_row stats) ids).
Proof.
  unfold DF.reindex, stats_row. destruct (f_index stats); reflexivity.
Qed.

Lemma find_stats_row stats d ids :
  In d ids ->
  find (fun r => String.eqb d (r_id r)) (map (stats_row stats) ids)
  = Some (stats_row stats d).
Proof.
  induction ids as [|i t IH]; simpl; [intros []|].
  rewrite stats_row_id. intros H.
  destruct (String.eqb_spec d i) as [->|N]; [reflexivity|].
  destruct H as [->|H]; [contradiction | now apply IH].
Qed.

Lemma join_rows_keyed left right (src : Row -> Row) rows :
  f_index left = IdIndex -> f_index right = IdIndex ->
  (forall r, In r rows ->
             match DF.loc (r_id r) right with
             | Some x => x
             | None => DF.nan_row (r_id r)
             end = src r) ->
  forall i,
    DF.join_rows left right i rows
    = map (fun r => DF.copy_cells (f_columns right) (src r) r) rows.
Proof.
  intros Hl Hr. induction rows as [|r t IH]; intros Hsrc i; simpl;
    [reflexivity|].
  unfold DF.aligned at 1. rewrite Hl, Hr.
  rewrite (Hsrc r (or_introl eq_refl)). f_equal.
  apply IH. intros r' H'. apply Hsrc. now right.
Qed.

Lemma join_rows_nothing left right rows :
  f_columns right = [] ->
  forall i, DF.join_rows left right i rows = rows.
Proof.
  intros Hc. induction rows as [|r t IH]; intros i; simpl; [reflexivity|].
  rewrite Hc at 1. simpl. now rewrite IH.
Qed.

Lemma copy_cells_nil src dst : DF.copy_cells [] src dst = dst.
Proof. reflexivity. Qed.

Lemma prod_sent_columns stats cand :
  f_columns (prod_sent stats cand)
  = filter (fun c => DF.has c stats) sentiment_cols.
Proof.
  unfold prod_sent.
  destruct (filter (fun c => DF.has c stats) sentiment_cols) eqn:E;
    [now destruct (DF.index cand) | reflexivity].
Qed.

Lemma prod_sent_keyed stats cand :
  f_index cand = IdIndex ->
  filter (fun c => DF.has c stats) sentiment_cols <> [] ->
  f_index (prod_sent stats cand) = IdIndex /\
  f_rows (prod_sent stats cand)
  = map (stats_row stats) (map r_id (f_rows cand)).
Proof.
  intros Hidx Hne. unfold prod_sent.
  destruct (filter (fun c => DF.has c stats) sentiment_cols) eqn:E;
    [congruence|].
  unfold DF.index. rewrite Hidx, reindex_labels. split; reflexivity.
Qed.

Lemma sent_frame stats cand :
  let sent := match overlap stats cand with
              | [] => prod_sent stats cand
              | dropped => DF.drop dropped (prod_sent stats cand)
              end in
  f_columns sent = joined_cols stats cand /\
  f_rows sent = f_rows (prod_sent stats cand) /\
  f_index sent = f_index (prod_sent stats cand) /\
  existsb (fun c => DF.has c cand) (f_columns sent) = false.
Proof.
  cbv zeta. unfold overlap, joined_cols.
  pose proof (prod_sent_columns stats cand) as HP.
  set (P := prod_sent stats cand) in *. clearbody P.
  unfold sentiment_cols in *. cbn [filter] in *.
  destruct (DF.has c_pct_pos stats), (DF.has c_mean_pos_prob stats);
    rewrite HP; cbn [filter];
    destruct (DF.has c_pct_pos cand) eqn:Hc1,
             (DF.has c_mean_pos_prob cand) eqn:Hc2;
    repeat (progress
              (cbn [negb filter DF.drop f_columns f_rows f_index DF.mem
                    existsb column_beq orb];
               rewrite ?HP, ?Hc1, ?Hc2));
    repeat split; reflexivity.
Qed.

Lemma joined_cols_sentiment stats cand c :
  In c (joined_cols stats cand) -> c = c_pct_pos \/ c = c_mean_pos_prob.
Proof.
  unfold joined_cols. intros H. apply filter_In in H. destruct H as [H _].
  apply filter_In in H. destruct H as [H _].
  unfold sentiment_cols in H. simpl in H. intuition.
Qed.

(** The frame lines 116-128 build: the join never fails; it adds the
    sentiment columns the candidates lack, read in the statistics table. *)
Lemma merged_frame_spec stats cand0 :
  exists M,
    merged_frame stats cand0 = Ok M /\
    f_index M = f_index (indexed cand0) /\
    f_columns M
    = f_columns (indexed cand0) ++ joined_cols stats (indexed cand0) /\
    (f_index (indexed cand0) = IdIndex ->
     f_rows M
     = map (fun r => DF.copy_cells (joined_cols stats (indexed cand0))
                                   (stats_row stats (r_id r)) r)
           (f_rows cand0)).
Proof.
  unfold merged_frame, DF.join.
  rewrite <- (indexed_rows cand0).
  set (cand := indexed cand0).
  destruct (sent_frame stats cand) as (Hcols & Hrows & Hidx & Hex).
  cbv zeta in Hcols, Hrows, Hidx, Hex.
  set (sent := match overlap stats cand with
               | [] => prod_sent stats cand
               | dropped => DF.drop dropped (prod_sent stats cand)
               end) in *.
  rewrite Hex. eexists. split; [reflexivity|].
  cbn [f_index f_columns f_rows]. rewrite Hcols.
  split; [reflexivity|]. split; [reflexivity|]. intros Hkey.
  destruct (joined_cols stats cand) as [|c0 l0] eqn:Ej.
  - rewrite join_rows_nothing by exact Hcols.
    rewrite <- (map_id (f_rows cand)) at 1. apply map_ext. reflexivity.
  - assert (Hne : filter (fun c => DF.has c stats) sentiment_cols <> []).
    { intros E. unfold joined_cols in Ej. rewrite E in Ej. discriminate. }
    destruct (prod_sent_keyed stats cand Hkey Hne) as [Pidx Prows].
    rewrite <- Hcols.
    apply join_rows_keyed; [exact Hkey | congruence |].
    intros r Hr. unfold DF.loc. rewrite Hrows, Prows.
    rewrite find_stats_row by (now apply in_map). reflexivity.
Qed.

Lemma num_copy_cell c c' src dst :
  DF.num c (DF.copy_cell src c' dst)
  = if column_beq c c' then DF.num c src else DF.num c dst.
Proof. destruct c, c'; reflexivity. Qed.

Lemma num_copy_cells c cols src dst :
  DF.num c (DF.copy_cells cols src dst)
  = if DF.mem c cols then DF.num c src else DF.num c dst.
Proof.
  induction cols as [|c' t IH]; simpl; [reflexivity|].
  rewrite num_copy_cell, IH. now destruct (column_beq c c').
Qed.

Lemma name_copy_cells cols src dst :
  DF.mem c_product_name cols = false ->
  r_product_name (DF.copy_cells cols src dst) = r_product_name dst.
Proof.
  induction cols as [|c' t IH]; simpl; [reflexivity|].
  intros H. apply orb_false_iff in H. destruct H as [H1 H2].
  destruct c'; simpl in *; try discriminate; now apply IH.
Qed.

Lemma has_assign_other c c' e f :
  c <> c' -> DF.has c (DF.assign c' e f) = DF.has c f.
Proof.
  intros N. unfold DF.has. rewrite assign_columns.
  destruct (DF.mem c' (f_columns f)); [reflexivity|].
  unfold DF.mem. rewrite existsb_app. cbn.
  destruct (column_beq c c') eqn:E;
    [apply column_beq_eq in E; contradiction|].
  now rewrite !orb_false_r.
Qed.

Lemma has_ensured_other c c' f :
  c <> c' -> DF.has c (ensured c' f) = DF.has c f.
Proof.
  intros N. unfold ensured.
  destruct (negb (DF.has c' f)); now apply has_assign_other.
Qed.

Lemma ensured_rows c f :
  f_rows (ensured c f)
  = map (fun r => DF.set_num c (if DF.has c f
                                then DF.fillna Num.zero (DF.num c r)
                                else Some Num.zero) r)
        (f_rows f).
Proof. unfold ensured. destruct (DF.has c f); reflexivity. Qed.

Lemma blend_input_rows M :
  f_rows (blend_input M)
  = map (blend_input_row (DF.has c_pct_pos M) (DF.has c_mean_pos_prob M)
                         (DF.has c_recomm_score M))
        (f_rows M).
Proof.
  unfold blend_input.
  assert (H3 : DF.has c_recomm_score
                 (ensured c_mean_pos_prob (ensured c_pct_pos M))
               = DF.has c_recomm_score M)
    by (now rewrite !has_ensured_other by discriminate).
  rewrite H3.
  assert (R : f_rows (ensured c_mean_pos_prob (ensured c_pct_pos M))
              = map (blend_input_row (DF.has c_pct_pos M)
                                     (DF.has c_mean_pos_prob M) true)
                    (f_rows M)).
  { rewrite !ensured_rows, map_map.
    rewrite has_ensured_other by discriminate.
    apply map_ext. intros r.
    destruct (DF.has c_pct_pos M), (DF.has c_mean_pos_prob M);
      reflexivity. }
  destruct (DF.has c_recomm_score M); cbn [negb]; [exact R|].
  cbn [DF.assign f_rows]. rewrite R, map_map.
  apply map_ext. intros r. reflexivity.
Qed.

Lemma blend_input_In M r' :
  In r' (f_rows (blend_input M)) ->
  exists r, In r (f_rows M) /\
            r' = blend_input_row (DF.has c_pct_pos M)
                                 (DF.has c_mean_pos_prob M)
                                 (DF.has c_recomm_score M) r.
Proof.
  rewrite blend_input_rows. intros H. apply in_map_iff in H.
  destruct H as (r & E & Hr). exists r. split; [exact Hr | now symmetry].
Qed.

Lemma loc_None_not_in_index d stats :
  f_index stats = IdIndex -> DF.loc d stats = None ->
  DF.in_index d stats = false.
Proof.
  intros Hidx H. unfold DF.in_index. rewrite Hidx.
  destruct (Py.mem d (map r_id (f_rows stats))) eqn:E; [|reflexivity].
  apply mem_true_In in E. apply in_map_iff in E.
  destruct E as (r & Er & Hr).
  unfold DF.loc in H.
  pose proof (find_none _ _ H r Hr) as C. cbv beta in C.
  rewrite Er, String.eqb_refl in C. discriminate.
Qed.


(** A sentiment cell read through [stats_row] comes from the table. *)
Lemma stats_row_from_stats stats c r :
  f_index stats = IdIndex ->
  c = c_pct_pos \/ c = c_mean_pos_prob ->
  DF.num c r = (if DF.has c stats
                then DF.fillna Num.zero (DF.num c (stats_row stats (r_id r)))
                else Some Num.zero) ->
  from_stats stats c r.
Proof.
  intros Hidx Hc Hnum. unfold from_stats.
  destruct (DF.has c stats) eqn:Hs.
  - unfold stats_row in Hnum. rewrite Hidx in Hnum.
    destruct (DF.loc (r_id r) stats) as [s|] eqn:El.
    + left. split; [reflexivity|]. exists s.
      unfold DF.loc in El. apply find_some in El. destruct El as [Hin E].
      apply String.eqb_eq in E. repeat split; auto.
    + right. split.
      * rewrite Hnum. destruct Hc as [-> | ->]; reflexivity.
      * right. now apply loc_None_not_in_index.
  - right. split; [exact Hnum | now left].
Qed.

Lemma mem_joined_cols stats cand c :
  c = c_pct_pos \/ c = c_mean_pos_prob ->
  DF.mem c (joined_cols stats cand)
  = DF.has c stats && negb (DF.has c cand).
Proof.
  unfold joined_cols, sentiment_cols. cbn [filter].
  intros [-> | ->];
    destruct (DF.has c_pct_pos stats), (DF.has c_mean_pos_prob stats);
    cbn [filter];
    destruct (DF.has c_pct_pos cand), (DF.has c_mean_pos_prob cand);
    reflexivity.
Qed.

Lemma mem_app c l1 l2 : DF.mem c (l1 ++ l2) = DF.mem c l1 || DF.mem c l2.
Proof. unfold DF.mem. apply existsb_app. Qed.

(** The rows that enter the blend, from the candidate rows. *)
Lemma blend_input_row_spec stats cand0 M r' :
  merged_frame stats cand0 = Ok M ->
  f_index (indexed cand0) = IdIndex ->
  In r' (f_rows (blend_input M)) ->
  exists r0,
    In r0 (f_rows cand0) /\
    r' = blend_input_row
           (DF.has c_pct_pos M) (DF.has c_mean_pos_prob M)
           (DF.has c_recomm_score M)
           (DF.copy_cells (joined_cols stats (indexed cand0))
                          (stats_row stats (r_id r0)) r0).
Proof.
  intros HM Hidx Hr'.
  destruct (merged_frame_spec stats cand0) as (M' & E & _ & _ & Hrows).
  rewrite HM in E. inversion E; subst M'; clear E.
  apply blend_input_In in Hr'. destruct Hr' as (r1 & Hr1 & ->).
  rewrite (Hrows Hidx) in Hr1. apply in_map_iff in Hr1.
  destruct Hr1 as (r0 & <- & Hr0). now exists r0.
Qed.

Lemma merged_has stats cand0 M c :
  merged_frame stats cand0 = Ok M ->
  c = c_pct_pos \/ c = c_mean_pos_prob ->
  DF.has c M = DF.has c (indexed cand0) || DF.has c stats.
Proof.
  intros HM Hc.
  destruct (merged_frame_spec stats cand0) as (M' & E & _ & Hcols & _).
  rewrite HM in E. inversion E; subst M'; clear E.
  unfold DF.has at 1. rewrite Hcols, mem_app, (mem_joined_cols _ _ _ Hc).
  unfold DF.has.
  destruct (DF.mem c (f_columns (indexed cand0))),
    (DF.mem c (f_columns stats)); reflexivity.
Qed.

(** The sentiment cell that enters the blend: the candidate's own value
    when it carries the column, else the statistics table's, else 0.0. *)
Lemma blend_input_cell stats cand0 M r' c :
  merged_frame stats cand0 = Ok M ->
  f_index (indexed cand0) = IdIndex ->
  In r' (f_rows (blend_input M)) ->
  c = c_pct_pos \/ c = c_mean_pos_prob ->
  exists r0,
    In r0 (f_rows cand0) /\ r_id r' = r_id r0 /\
    DF.num c r'
    = if DF.has c (indexed cand0) then DF.fillna Num.zero (DF.num c r0)
      else if DF.has c stats
           then DF.fillna Num.zero (DF.num c (stats_row stats (r_id r0)))
           else Some Num.zero.
Proof.
  intros HM Hidx Hr' Hc.
  destruct (blend_input_row_spec _ _ _ _ HM Hidx Hr') as (r0 & Hr0 & ->).
  exists r0. split; [exact Hr0|].
  split; [cbn; apply id_copy_cells|].
  pose proof (merged_has _ _ _ c HM Hc) as Hh.
  pose proof (num_copy_cells c (joined_cols stats (indexed cand0))
                (stats_row stats (r_id r0)) r0) as Hn.
  rewrite (mem_joined_cols _ _ _ Hc) in Hn.
  destruct Hc as [-> | ->]; cbn [DF.num blend_input_row r_pct_pos
                                  r_mean_pos_prob] in *;
    rewrite Hh, Hn;
    destruct (DF.has _ (indexed cand0)), (DF.has _ stats); reflexivity.
Qed.

(* ===================================================================== *)
(** ** Where the sentiment values come from (C5) *)
(* ===================================================================== *)

Lemma personalised_of_rows sim stats m username top_k cand :
  personalised sim stats m username top_k = Ok cand ->
  exists rows, cand = DF.of_rows rows.
Proof.
  unfold personalised. intros H.
  destruct (Mat.loc m username); [|discriminate]. cbn [obind] in H.
  destruct (score_loop _ _ _ _ _); [|discriminate]. cbn [obind] in H.
  destruct (candidate_rows _ _) as [rows|]; [|discriminate].
  cbn [obind] in H. inversion H. now exists rows.
Qed.

Lemma fallback_frame_columns stats top_k :
  f_index stats = IdIndex ->
  f_columns (fallback_frame stats top_k)
  = c_id :: filter (fun c => DF.has c stats) meta_cols ++ [c_recomm_score].
Proof.
  intros Hidx. unfold fallback_frame, DF.reset_index.
  cbn [DF.head DF.sort_values DF.getitem_cols f_index f_columns f_rows].
  rewrite Hidx. rewrite assign_columns. cbn [f_columns].
  unfold meta_cols. cbn [filter].
  destruct (DF.has c_product_name stats), (DF.has c_avg_rating stats),
    (DF.has c_n_ratings stats), (DF.has c_pct_pos stats),
    (DF.has c_mean_pos_prob stats); reflexivity.
Qed.

Lemma fallback_indexed stats top_k :
  f_index stats = IdIndex ->
  f_index (indexed (fallback_frame stats top_k)) = IdIndex /\
  (forall c, c = c_pct_pos \/ c = c_mean_pos_prob ->
             DF.has c (indexed (fallback_frame stats top_k))
             = DF.has c stats).
Proof.
  intros Hidx. unfold indexed, DF.has.
  rewrite (fallback_frame_columns _ _ Hidx).
  cbn [DF.mem existsb column_beq orb DF.set_index_id f_index f_columns].
  split; [reflexivity|].
  rewrite (fallback_frame_columns _ _ Hidx).
  unfold meta_cols, DF.has. cbn [filter].
  intros c [-> | ->];
    destruct (DF.mem c_product_name (f_columns stats)),
      (DF.mem c_avg_rating (f_columns stats)),
      (DF.mem c_n_ratings (f_columns stats)),
      (DF.mem c_pct_pos (f_columns stats)),
      (DF.mem c_mean_pos_prob (f_columns stats)); reflexivity.
Qed.

Lemma fallback_row_from_stats stats top_k r0 :
  In r0 (f_rows (fallback_frame stats top_k)) ->
  exists s, In s (f_rows stats) /\ r_id s = r_id r0 /\
            r_pct_pos s = r_pct_pos r0 /\
            r_mean_pos_prob s = r_mean_pos_prob r0.
Proof.
  rewrite fallback_frame_rows. intros H. apply in_map_iff in H.
  destruct H as (s & <- & Hs). apply take_In in Hs.
  apply stable_sort_In in Hs. exists s. repeat split; auto.
Qed.

Lemma overlap_filter stats cand :
  overlap stats cand
  = filter (fun c => DF.has c cand)
           (filter (fun c => DF.has c stats) sentiment_cols).
Proof. unfold overlap. now rewrite prod_sent_columns. Qed.

(** C5. The docstring of [get_top20_products] says that the function
    does not add sentiment columns, and its personalised branch does not:
    for "bob" in scenario B the frame carries only fields among {id,
    product_name, avg_rating, n_ratings, recomm_score} and the overlap of
    line 124 is empty.  The fallback branch returns the frame of
    [_popularity_fallback] as it is: in scenario A (no rating matrix) the
    frame carries [pct_pos], and the drop of line 126 fires. *)
Theorem fallback_candidates_carry_sentiment_columns :
  (exists cand,
      returned_frame (get_top20_products ScenarioA.G "alice" 20)
                     ScenarioA.h = Some cand /\
      In c_pct_pos (f_columns cand) /\
      ~ incl (f_columns cand) candidate_fields /\
      overlap ScenarioA.stats (indexed cand) = [c_pct_pos]) /\
  (exists cand,
      returned_frame (get_top20_products ScenarioB.G "bob" 20)
                     ScenarioB.h = Some cand /\
      incl (f_columns cand) candidate_fields /\
      overlap ScenarioB.stats (indexed cand) = []).
Proof.
  split.
  - eexists. split; [vm_compute; reflexivity|].
    split; [right; now left|]. split; [|reflexivity].
    intros H. specialize (H c_pct_pos (or_intror (or_introl eq_refl))).
    unfold candidate_fields in H. simpl in H. intuition discriminate.
  - eexists. split; [vm_compute; reflexivity|].
    split; [apply incl_refl | reflexivity].
Qed.

(* ===================================================================== *)
(** ** Candidates without a statistics row (C8) *)
(* ===================================================================== *)

Lemma candidate_row_spec stats pid s r :
  candidate_row stats (pid, s) = Ok r ->
  r_id r = pid /\ r_recomm_score r = s /\
  r_pct_pos r = None /\ r_mean_pos_prob r = None /\
  (DF.in_index pid stats = false -> default_metadata r).
Proof.
  unfold candidate_row, default_metadata.
  destruct (DF.in_index pid stats).
  - destruct (DF.loc pid stats) as [meta|].
    + destruct (DF.has c_n_ratings stats);
        [destruct (r_n_ratings meta) as [x|]; [destruct (Num.int_of x)|]|];
        cbn [obind]; intros H; inversion H; cbn;
        repeat split; discriminate.
    + cbn [obind]. intros H. inversion H. cbn. repeat split; discriminate.
  - cbn [obind]. intros H. inversion H. cbn. repeat split; reflexivity.
Qed.

Lemma candidate_rows_In stats ranked rows r :
  candidate_rows stats ranked = Ok rows -> In r rows ->
  exists p, In p ranked /\ candidate_row stats p = Ok r.
Proof.
  revert rows. induction ranked as [|p t IH]; intros rows H Hr;
    cbn [candidate_rows] in H.
  - inversion H; subst. destruct Hr.
  - destruct (candidate_row stats p) as [r0|e] eqn:E0; [|discriminate].
    destruct (candidate_rows stats t) as [rows'|e]; [|discriminate].
    cbn [obind] in H. inversion H; subst; clear H.
    destruct Hr as [<-|Hr].
    + exists p. split; [now left | exact E0].
    + destruct (IH _ eq_refl Hr) as (p' & Hp' & E'). exists p'.
      split; [now right | exact E'].
Qed.

Lemma candidate_rows_scores stats ranked rows :
  candidate_rows stats ranked = Ok rows -> map scored rows = ranked.
Proof.
  revert rows. induction ranked as [|[pid s] t IH]; intros rows H;
    cbn [candidate_rows] in H.
  - now inversion H.
  - destruct (candidate_row stats (pid, s)) as [r0|e] eqn:E0;
      [|discriminate].
    destruct (candidate_rows stats t) as [rows'|e]; [|discriminate].
    cbn [obind] in H. inversion H; subst; clear H. simpl.
    rewrite (IH _ eq_refl). unfold scored.
    destruct (candidate_row_spec _ _ _ _ E0) as (-> & -> & _).
    reflexivity.
Qed.

Lemma copy_cells_meta cols src dst :
  (forall c, In c cols -> c = c_pct_pos \/ c = c_mean_pos_prob) ->
  r_product_name (DF.copy_cells cols src dst) = r_product_name dst /\
  r_avg_rating (DF.copy_cells cols src dst) = r_avg_rating dst /\
  r_n_ratings (DF.copy_cells cols src dst) = r_n_ratings dst /\
  r_recomm_score (DF.copy_cells cols src dst) = r_recomm_score dst.
Proof.
  induction cols as [|c t IH]; intros H; simpl; [now repeat split|].
  destruct IH as (I1 & I2 & I3 & I4);
    [intros c' Hc'; apply H; now right|].
  destruct (H c (or_introl eq_refl)) as [-> | ->]; cbn;
    now repeat split.
Qed.



Lemma with_blend_In M r :
  In r (f_rows (with_blend M)) ->
  exists r3, In r3 (f_rows (blend_input M)) /\
             r = DF.set_num c_blend (blend_of r3) r3.
Proof.
  unfold with_blend, DF.assign. cbn [f_rows]. intros H.
  apply in_map_iff in H. destruct H as (r3 & E & H3).
  exists r3. split; [exact H3 | now symmetry].
Qed.


Lemma sorted_by_blend_sorted f :
  Sorted (fun a b => Num.cell_geb (r_blend a) (r_blend b) = true)
         (f_rows (sorted_by_blend f)).
Proof.
  unfold sorted_by_blend, DF.sort_values. cbn [f_rows].
  set (by_ := c_blend :: _).
  eapply Sorted_weaken;
    [|apply (stable_sort_sorted
               (fun a b => Num.lex_geb (DF.key by_ a) (DF.key by_ b)));
      intros a b; apply lex_geb_total].
  intros a b. cbv beta. subst by_. cbn [DF.key map DF.num].
  apply lex_geb_head.
Qed.







(* ===================================================================== *)
(** ** When [get_top20_products] returns *)
(* ===================================================================== *)

Lemma at_label_ok s c : In c (map fst s) -> exists v, Mat.at_label s c = Ok v.
Proof.
  induction s as [|[c' v'] t IH]; simpl; [intros []|].
  destruct (String.eqb_spec c c') as [->|N]; [eexists; reflexivity|].
  intros [E|H]; [congruence | now apply IH].
Qed.

Lemma take_ok s labels :
  incl labels (map fst s) -> exists x, Mat.take s labels = Ok x.
Proof.
  induction labels as [|c t IH]; intros H; simpl; [eexists; reflexivity|].
  destruct (at_label_ok s c (H c (or_introl eq_refl))) as (v & ->).
  destruct IH as (x & ->); [intros y Hy; apply H; now right|].
  eexists. reflexivity.
Qed.

Lemma positive_labels_incl s : incl (Mat.positive_labels s) (map fst s).
Proof.
  unfold Mat.positive_labels. intros c H. apply in_map_iff in H.
  destruct H as (p & <- & Hp). apply filter_In in Hp.
  apply in_map. tauto.
Qed.

Lemma position_lt x l :
  In x l -> exists i, Py.position x l = Some i /\ (i < List.length l)%nat.
Proof.
  induction l as [|y t IH]; simpl; [intros []|].
  destruct (String.eqb_spec x y) as [->|N].
  - intros _. exists O. split; [reflexivity | lia].
  - intros [E|H]; [congruence|].
    destruct (IH H) as (i & -> & Hi). exists (S i).
    split; [reflexivity | lia].
Qed.

Lemma loc_ok m r :
  well_shaped m -> In r (m_index m) ->
  exists s, Mat.loc m r = Ok s /\ map fst s = m_columns m.
Proof.
  intros [Hlen Hrows] Hin. unfold Mat.loc.
  destruct (position_lt r (m_index m) Hin) as (i & -> & Hi).
  eexists. split; [reflexivity|].
  assert (Hrow : List.length (nth i (m_values m) [])
                 = List.length (m_columns m)).
  { rewrite Forall_forall in Hrows. apply Hrows. apply nth_In. lia. }
  revert Hrow. generalize (nth i (m_values m) []). generalize (m_columns m).
  induction l as [|c t IH]; intros [|v row] H; simpl in *;
    try discriminate; [reflexivity|].
  f_equal. apply IH. now inversion H.
Qed.

Lemma candidate_score_ok sim user_ratings rated item :
  covers sim rated ->
  incl rated (map fst user_ratings) ->
  In item (m_columns sim) ->
  exists s, candidate_score sim user_ratings rated item = Ok s.
Proof.
  intros (Hw & Hci & Hr) Hu Hitem. unfold candidate_score, Mat.loc2.
  destruct (loc_ok sim item Hw (Hci item Hitem)) as (row & -> & Hrow).
  cbn [obind].
  destruct (take_ok row rated) as (sims & ->); [now rewrite Hrow|].
  destruct (take_ok user_ratings rated Hu) as (ratings & ->).
  cbn [obind]. destruct (Num.is0 _); eexists; reflexivity.
Qed.

Lemma score_loop_ok sim user_ratings rated items :
  (rated <> [] -> covers sim rated) ->
  incl rated (map fst user_ratings) ->
  incl items (m_columns sim) ->
  forall scores,
  exists final, score_loop sim user_ratings rated items scores = Ok final.
Proof.
  intros Hc Hu. induction items as [|item rest IH]; intros Hi scores;
    cbn [score_loop]; [eexists; reflexivity|].
  assert (Hrest : incl rest (m_columns sim))
    by (intros y Hy; apply Hi; now right).
  destruct (Py.mem item rated); [now apply IH|].
  destruct rated as [|r0 rs]; [now apply IH|].
  destruct (candidate_score_ok sim user_ratings (r0 :: rs) item)
    as (s & ->); auto.
  - apply Hc. discriminate.
  - apply Hi. now left.
  - cbn [obind]. now apply IH.
Qed.

Lemma candidate_row_ok stats p :
  counts_present stats -> exists r, candidate_row stats p = Ok r.
Proof.
  intros Hc. destruct p as [pid s]. unfold candidate_row.
  destruct (DF.in_index pid stats); [|eexists; reflexivity].
  destruct (DF.loc pid stats) as [meta|] eqn:El; [|eexists; reflexivity].
  destruct (DF.has c_n_ratings stats) eqn:Hn; [|eexists; reflexivity].
  unfold DF.loc in El. apply find_some in El. destruct El as [Hin _].
  specialize (Hc Hn). rewrite Forall_forall in Hc. specialize (Hc _ Hin).
  destruct Hc as (x & z & -> & ->). eexists. reflexivity.
Qed.

Lemma candidate_rows_ok stats ranked :
  counts_present stats -> exists rows, candidate_rows stats ranked = Ok rows.
Proof.
  intros Hc. induction ranked as [|p t IH]; cbn [candidate_rows];
    [eexists; reflexivity|].
  destruct (candidate_row_ok stats p Hc) as (r & ->).
  destruct IH as (rows & ->). eexists. reflexivity.
Qed.

(** [get_top20_products] returns a frame, for every username and every
    [top_k], when the matrix is absent, when the user is unknown, and for
    a known user provided every rating count of the statistics table is
    a finite number and, if the user rated something, the similarity
    table covers the rated items.  Neither an empty rated set, nor a candidate absent
    from the statistics table, nor a zero similarity sum makes it raise. *)
Lemma get_top20_products_returns G h sim stats ui username top_k :
  Loaded G h sim stats ui ->
  (known ui username = true ->
   counts_present stats /\
   (rated_items ui username <> [] ->
    covers sim (rated_items ui username))) ->
  exists f,
    returned_frame (get_top20_products G username top_k) h = Some f.
Proof.
  intros L H.
  pose proof (get_top20_products_computes username top_k L) as C.
  assert (E : exists f, candidates sim stats ui username top_k = Ok f).
  { unfold candidates, known, rated_items in *.
    destruct ui as [m|]; [|eexists; reflexivity].
    destruct (Py.mem username (m_index m)) eqn:K; cbn [negb];
      [|eexists; reflexivity].
    destruct (H eq_refl) as [Hcount Hcov]. unfold personalised.
    destruct (Mat.loc m username) as [user_ratings|e] eqn:Eu.
    2:{ unfold Mat.loc in Eu.
        destruct (position_lt username (m_index m) (mem_true_In _ _ K))
          as (i & Ei & _).
        rewrite Ei in Eu. discriminate. }
    cbn [obind].
    destruct (score_loop_ok sim user_ratings
                (Mat.positive_labels user_ratings) (m_columns sim) Hcov
                (positive_labels_incl user_ratings) (incl_refl _) [])
      as (scores & ->).
    cbn [obind].
    destruct (candidate_rows_ok stats (rank scores top_k) Hcount)
      as (rows & ->).
    eexists. reflexivity. }
  destruct E as (f & E). rewrite E in C. exists f.
  now apply returned_frame_yields.
Qed.

(* ===================================================================== *)
(** ** Stripping a form field *)
(* ===================================================================== *)

Lemma lstrip_blank s : Str.blank s = true -> Str.lstrip s = "".
Proof.
  induction s as [|c t IH]; simpl; [reflexivity|].
  intros H. apply andb_true_iff in H. destruct H as [Hc Ht].
  rewrite Hc. now apply IH.
Qed.

Lemma rstrip_blank s : Str.blank s = true -> Str.rstrip s = "".
Proof.
  induction s as [|c t IH]; simpl; [reflexivity|].
  intros H. apply andb_true_iff in H. destruct H as [Hc Ht].
  now rewrite (IH Ht), Hc.
Qed.

Lemma rstrip_empty_blank s : Str.rstrip s = "" -> Str.blank s = true.
Proof.
  induction s as [|c t IH]; simpl; [reflexivity|].
  destruct (Str.rstrip t) eqn:E; [|discriminate].
  destruct (Str.isspace c); [|discriminate].
  intros _. now rewrite IH.
Qed.

Lemma lstrip_blank_iff s : Str.blank (Str.lstrip s) = Str.blank s.
Proof.
  induction s as [|c t IH]; simpl; [reflexivity|].
  destruct (Str.isspace c) eqn:E; simpl; [exact IH | now rewrite E].
Qed.

Lemma strip_empty_iff s : Str.strip s = "" <-> Str.blank s = true.
Proof.
  unfold Str.strip. split.
  - intros H. apply rstrip_empty_blank in H. now rewrite lstrip_blank_iff in H.
  - intros H. apply rstrip_blank. now rewrite lstrip_blank_iff.
Qed.

Lemma lstrip_app_blank w s :
  Str.blank w = true -> Str.lstrip (w ++ s) = Str.lstrip s.
Proof.
  induction w as [|c t IH]; simpl; [reflexivity|].
  intros H. apply andb_true_iff in H. destruct H as [Hc Ht].
  rewrite Hc. now apply IH.
Qed.

Lemma rstrip_app_blank s w :
  Str.blank w = true -> Str.rstrip (s ++ w) = Str.rstrip s.
Proof.
  intros H. induction s as [|c t IH]; simpl.
  - now apply rstrip_blank.
  - now rewrite IH.
Qed.

Lemma lstrip_app s w :
  Str.blank s = false -> Str.lstrip (s ++ w) = (Str.lstrip s ++ w)%string.
Proof.
  induction s as [|c t IH]; simpl; [discriminate|].
  destruct (Str.isspace c); simpl; [exact IH | reflexivity].
Qed.

(** Whitespace around a value does not change what [strip] returns. *)
Lemma strip_padded a s b :
  Str.blank a = true -> Str.blank b = true ->
  Str.strip (padded a s b) = Str.strip s.
Proof.
  intros Ha Hb. unfold Str.strip, padded.
  rewrite (lstrip_app_blank a _ Ha).
  destruct (Str.blank s) eqn:Es.
  - rewrite (lstrip_blank s Es).
    assert (Hsb : Str.blank (s ++ b) = true).
    { clear Ha. induction s as [|c t IH]; simpl in *; [exact Hb|].
      apply andb_true_iff in Es. destruct Es as [Hc Ht].
      now rewrite Hc, IH. }
    now rewrite (lstrip_blank _ Hsb).
  - rewrite (lstrip_app s b Es). now apply rstrip_app_blank.
Qed.

(* ===================================================================== *)
(** ** The request handler *)
(* ===================================================================== *)

Lemma final_records_length cols rows out :
  final_records cols rows = Ok out -> List.length out = List.length rows.
Proof.
  revert out. induction rows as [|r t IH]; intros out H;
    cbn [final_records] in H.
  - now inversion H.
  - destruct (final_record cols r); [|discriminate].
    destruct (final_records cols t) as [out'|]; [|discriminate].
    cbn [obind] in H. inversion H. simpl. f_equal. now apply IH.
Qed.

Lemma recommendations_length sim stats ui username top_k final_k out :
  recommendations sim stats ui username top_k final_k = Ok out ->
  0 <= final_k -> Z.of_nat (List.length out) <= final_k.
Proof.
  unfold recommendations, records_of. intros H Hk.
  destruct (candidates _ _ _ _ _); [|discriminate]. cbn [obind] in H.
  destruct (blended_frame _ _); [|discriminate]. cbn [obind] in H.
  rewrite (final_records_length _ _ _ H). now apply take_length_pos.
Qed.

(** A missing, empty or whitespace-only [username] field gives the page
    that asks for a username, without calling the engine: the store is
    left as it is.  Any other field value never gives that page. *)
Theorem blank_username_is_refused G form h :
  (Str.blank (posted_username form) = true ->
   recommend G form h = (Ok enter_username_page, h)) /\
  (Str.blank (posted_username form) = false ->
   result (recommend G form) h <> Ok enter_username_page).
Proof.
  split; intros H.
  - unfold recommend. apply strip_empty_iff in H. now rewrite H.
  - unfold recommend, result.
    destruct (String.eqb_spec (Str.strip (posted_username form)) "")
      as [E|N].
    + apply strip_empty_iff in E. congruence.
    + unfold try_except_as, bind, ret.
      destruct (get_final_recommendations G _ 20 5 h) as [[out|e] h'];
        cbn; intros C; inversion C.
Qed.

Lemma blank_username_is_refused_witness :
  (Str.blank (posted_username [("username", "  ")]) = true ->
   recommend ScenarioB.G [("username", "  ")] ScenarioB.h
   = (Ok enter_username_page, ScenarioB.h)) /\
  (Str.blank (posted_username [("username", "  ")]) = false ->
   result (recommend ScenarioB.G [("username", "  ")]) ScenarioB.h
   <> Ok enter_username_page).
Proof.
  apply (blank_username_is_refused ScenarioB.G [("username", "  ")]
                                   ScenarioB.h).
Defined.

(** For a field that is not blank, [recommend] never raises: it calls the
    engine once, with the stripped value, 20 candidates and 5 results, and
    shows either the stripped username with the list returned, of at most
    five records, or the exception as the error; the store only grows. *)
Theorem recommend_shows_the_engine_answer G h sim stats ui form :
  Loaded G h sim stats ui ->
  Str.blank (posted_username form) = false ->
  recommend G form h
  = (Ok (answer_page
           (Str.strip (posted_username form))
           (result (get_final_recommendations
                      G (Str.strip (posted_username form)) 20 5) h)),
     store_after (get_final_recommendations
                    G (Str.strip (posted_username form)) 20 5) h) /\
  extends h (store_after (recommend G form) h) /\
  forall page results,
    result (recommend G form) h = Ok page ->
    page_recommendations page = Some results ->
    (List.length results <= 5)%nat.
Proof.
  intros L Hb.
  set (u := Str.strip (posted_username form)).
  assert (Hu : String.eqb u "" = false).
  { destruct (String.eqb_spec u "") as [E|N]; [|reflexivity].
    apply strip_empty_iff in E. congruence. }
  destruct (get_final_recommendations_run u 20 5 L) as (h' & E & X).
  assert (R : recommend G form h
              = (Ok (answer_page u (recommendations sim stats ui u 20 5)),
                 h')).
  { unfold recommend. fold u. rewrite Hu.
    unfold try_except_as, bind, ret. rewrite E.
    now destruct (recommendations sim stats ui u 20 5). }
  unfold result, store_after. rewrite R, E. cbn [fst snd].
  split; [reflexivity|]. split; [exact X|].
  intros page results Hp Hr. inversion Hp; subst page; clear Hp.
  destruct (recommendations sim stats ui u 20 5) as [out|e] eqn:Er;
    cbn in Hr; [|discriminate].
  inversion Hr; subst results.
  pose proof (recommendations_length _ _ _ _ _ _ _ Er) as Hl. lia.
Qed.

Lemma recommend_shows_the_engine_answer_witness :
  recommend ScenarioB.G [("username", " bob ")] ScenarioB.h
  = (Ok (answer_page
           (Str.strip (posted_username [("username", " bob ")]))
           (result (get_final_recommendations
                      ScenarioB.G
                      (Str.strip (posted_username [("username", " bob ")]))
                      20 5) ScenarioB.h)),
     store_after (get_final_recommendations
                    ScenarioB.G
                    (Str.strip (posted_username [("username", " bob ")]))
                    20 5) ScenarioB.h) /\
  extends ScenarioB.h
          (store_after (recommend ScenarioB.G [("username", " bob ")])
                       ScenarioB.h) /\
  forall page results,
    result (recommend ScenarioB.G [("username", " bob ")]) ScenarioB.h
    = Ok page ->
    page_recommendations page = Some results ->
    (List.length results <= 5)%nat.
Proof.
  apply (recommend_shows_the_engine_answer
           ScenarioB.G ScenarioB.h ScenarioB.sim ScenarioB.stats
           (Some ScenarioB.user_item) [("username", " bob ")]).
  - vm_compute. repeat split.
  - reflexivity.
Defined.

(** Whitespace typed around the username does not change the page, nor
    the store the request leaves. *)
Theorem surrounding_whitespace_is_ignored G h a v b rest :
  Str.blank a = true -> Str.blank b = true ->
  recommend G (("username", padded a v b) :: rest) h
  = recommend G (("username", v) :: rest) h.
Proof.
  intros Ha Hb. unfold recommend, posted_username. cbn [Py.get].
  rewrite String.eqb_refl. now rewrite (strip_padded a v b Ha Hb).
Qed.

Lemma surrounding_whitespace_is_ignored_witness :
  recommend ScenarioB.G [("username", padded "  " "bob" " ")] ScenarioB.h
  = recommend ScenarioB.G [("username", "bob")] ScenarioB.h.
Proof.
  apply (surrounding_whitespace_is_ignored
           ScenarioB.G ScenarioB.h "  " "bob" " " []); reflexivity.
Defined.

(* ===================================================================== *)
(** ** Slices, sorted lists and dictionaries *)
(* ===================================================================== *)

Lemma take_prefix {A} k (l : list A) : exists rest, l = Py.take k l ++ rest.
Proof.
  unfold Py.take. destruct (0 <=? k); eexists; symmetry; apply firstn_skipn.
Qed.

Lemma take_map {A B} (f : A -> B) k l :
  Py.take k (map f l) = map f (Py.take k l).
Proof.
  unfold Py.take. rewrite length_map.
  destruct (0 <=? k); apply firstn_map.
Qed.

Lemma take_all {A} k (l : list A) :
  Z.of_nat (List.length l) <= k -> Py.take k l = l.
Proof.
  intros H. unfold Py.take.
  destruct (0 <=? k) eqn:E; [|apply Z.leb_gt in E; lia].
  apply firstn_all2. lia.
Qed.

Lemma take_length_min {A} k (l : list A) :
  0 <= k ->
  List.length (Py.take k l) = Nat.min (Z.to_nat k) (List.length l).
Proof.
  intros H. unfold Py.take.
  destruct (0 <=? k) eqn:E; [|apply Z.leb_gt in E; lia].
  apply length_firstn.
Qed.

Lemma take_NoDup {A} k (l : list A) : NoDup l -> NoDup (Py.take k l).
Proof.
  intros N. destruct (take_prefix k l) as [rest E]. rewrite E in N.
  now apply NoDup_app_remove_r in N.
Qed.

Lemma Sorted_app_before {A} (R : A -> A -> Prop) (a b : list A) :
  (forall x y z, R x y -> R y z -> R x z) ->
  Sorted R (a ++ b) -> forall x y, In x a -> In y b -> R x y.
Proof.
  intros T S. apply Sorted_StronglySorted in S; [|exact T].
  induction a as [|u a IH]; simpl in *; [easy|].
  inversion S as [|? ? S' F]; subst.
  intros x y [<-|Hx] Hy.
  - rewrite Forall_forall in F. apply F, in_or_app. now right.
  - now apply IH.
Qed.

Lemma Sorted_Forall {A} (R : A -> A -> Prop) (P : A -> Prop) l :
  Sorted R l -> Forall P l -> Sorted (fun a b => P a /\ P b /\ R a b) l.
Proof.
  induction 1 as [|x l S IH Hd]; intros F; [constructor|].
  inversion F as [|? ? Px Fl]; subst.
  constructor; [now apply IH|].
  destruct Hd as [|y l' Rxy]; constructor.
  inversion Fl; subst. auto.
Qed.

Lemma stable_sort_ties {A} (before : A -> A -> bool) l :
  (forall x y, In x l -> In y l -> before x y = true) ->
  Py.stable_sort before l = l.
Proof.
  induction l as [|x t IH]; intros H; [reflexivity|].
  cbn [Py.stable_sort fold_right].
  change (fold_right (Py.insert_by before) [] t)
    with (Py.stable_sort before t).
  rewrite IH by (intros; apply H; now right).
  destruct t as [|y t']; [reflexivity|].
  cbn [Py.insert_by]. rewrite H; [reflexivity| now left | right; now left].
Qed.

Lemma get_In {V} k (d : list (string * V)) v :
  Py.get k d = Some v -> In (k, v) d.
Proof.
  induction d as [|[k' v'] t IH]; simpl; [discriminate|].
  destruct (String.eqb_spec k k') as [->|N]; intros H.
  - inversion H. now left.
  - right. now apply IH.
Qed.

Lemma setitem_new k v d :
  ~ In k (map fst d) -> Py.setitem k v d = d ++ [(k, v)].
Proof.
  induction d as [|[k' v'] t IH]; simpl; intros N; [reflexivity|].
  destruct (String.eqb_spec k k') as [->|_]; [tauto|].
  f_equal. apply IH. tauto.
Qed.

Lemma setitem_keys_NoDup k v d :
  NoDup (map fst d) -> NoDup (map fst (Py.setitem k v d)).
Proof.
  induction d as [|[k' v'] t IH]; simpl; intros N.
  - repeat constructor. easy.
  - inversion N as [|? ? Nk Nt]; subst.
    destruct (String.eqb_spec k k') as [->|Ne]; simpl.
    + now constructor.
    + constructor; [|now apply IH].
      intros I. apply setitem_keys in I. destruct I as [->|I]; tauto.
Qed.

(* ===================================================================== *)
(** ** The candidate generator *)
(* ===================================================================== *)

Lemma returned_frame_candidates G h sim stats ui username top_k f :
  Loaded G h sim stats ui ->
  returned_frame (get_top20_products G username top_k) h = Some f ->
  candidates sim stats ui username top_k = Ok f.
Proof.
  intros L H.
  pose proof (get_top20_products_computes username top_k L) as C.
  destruct (candidates sim stats ui username top_k) as [F|e]; simpl in C.
  - rewrite (returned_frame_yields _ _ _ C) in H. congruence.
  - destruct C as (h' & E & _). unfold returned_frame in H.
    rewrite E in H. discriminate.
Qed.

Lemma candidates_returned_frame G h sim stats ui username top_k f :
  Loaded G h sim stats ui ->
  candidates sim stats ui username top_k = Ok f ->
  returned_frame (get_top20_products G username top_k) h = Some f.
Proof.
  intros L H.
  pose proof (get_top20_products_computes username top_k L) as C.
  rewrite H in C. now apply returned_frame_yields.
Qed.

Lemma mem_position x l :
  Py.mem x l = true -> exists i, Py.position x l = Some i.
Proof.
  induction l as [|y t IH]; simpl; [discriminate|].
  destruct (String.eqb x y); simpl; [eauto|].
  intros H. destruct (IH H) as [i ->]. simpl. eauto.
Qed.

Lemma known_loc m username :
  Py.mem username (m_index m) = true ->
  exists user_ratings, Mat.loc m username = Ok user_ratings.
Proof.
  intros H. unfold Mat.loc. destruct (mem_position _ _ H) as [i ->]. eauto.
Qed.

Lemma loc_known m username user_ratings :
  Mat.loc m username = Ok user_ratings ->
  Py.mem username (m_index m) = true.
Proof.
  unfold Mat.loc.
  destruct (Py.position username (m_index m)) as [i|] eqn:Ep;
    [|discriminate].
  intros _. revert i Ep. induction (m_index m) as [|y t IH];
    cbn [Py.position]; [discriminate|].
  unfold Py.mem. cbn [existsb].
  destruct (String.eqb username y); [reflexivity|].
  destruct (Py.position username t) as [n|]; [|discriminate].
  intros _ _. now apply (IH n).
Qed.

Lemma known_personalised sim stats ui username top_k :
  known ui username = true ->
  exists m, ui = Some m /\ Py.mem username (m_index m) = true /\
            candidates sim stats ui username top_k
            = personalised sim stats m username top_k.
Proof.
  unfold known, candidates. destruct ui as [m|]; [|discriminate].
  intros H. exists m. rewrite H. auto.
Qed.

Lemma personalised_inv sim stats m username top_k cand :
  personalised sim stats m username top_k = Ok cand ->
  exists user_ratings scores rows,
    Mat.loc m username = Ok user_ratings /\
    score_loop sim user_ratings (Mat.positive_labels user_ratings)
               (m_columns sim) [] = Ok scores /\
    candidate_rows stats (rank scores top_k) = Ok rows /\
    cand = DF.of_rows rows.
Proof.
  unfold personalised. intros H.
  destruct (Mat.loc m username) as [ur|]; [|discriminate].
  cbn [obind] in H.
  destruct (score_loop _ _ _ _ _) as [scores|] eqn:Es; [|discriminate].
  cbn [obind] in H.
  destruct (candidate_rows _ _) as [rows|] eqn:Er; [|discriminate].
  cbn [obind] in H. inversion H.
  exists ur, scores, rows. repeat split; assumption.
Qed.

Lemma ltb_cell_asym a b : Num.ltb a b = true -> Num.ltb b a = false.
Proof.
  destruct a as [x|], b as [y|].
  - apply ltb_asym.
  - rewrite ltb_nan_r. discriminate.
  - intros _. apply ltb_nan_r.
  - intros _. reflexivity.
Qed.

Lemma rank_order_total (a b : string * Num.cell) :
  negb (Num.ltb (snd a) (snd b)) = false ->
  negb (Num.ltb (snd b) (snd a)) = true.
Proof.
  intros H. apply negb_false_iff in H. apply negb_true_iff.
  now apply ltb_cell_asym.
Qed.

Lemma rank_sorted scores top_k :
  Sorted (fun x y : string * Num.cell =>
            negb (Num.ltb (snd x) (snd y)) = true)
         (rank scores top_k).
Proof.
  unfold rank. apply Sorted_take.
  apply (stable_sort_sorted
           (fun x y : string * Num.cell => negb (Num.ltb (snd x) (snd y)))).
  intros a b. apply rank_order_total.
Qed.

Lemma rank_no_nan scores top_k :
  no_nan_score scores -> no_nan_score (rank scores top_k).
Proof.
  unfold no_nan_score. rewrite !Forall_forall. intros H p Hp.
  apply H. now apply rank_In in Hp.
Qed.

Lemma candidate_rows_sorted stats ranked :
  Sorted (fun x y : string * Num.cell =>
            negb (Num.ltb (snd x) (snd y)) = true) ranked ->
  no_nan_score ranked ->
  forall rows, candidate_rows stats ranked = Ok rows ->
               Sorted by_score rows.
Proof.
  induction 1 as [|p t S IH Hd]; intros N rows H; cbn [candidate_rows] in H.
  - inversion H. constructor.
  - destruct (candidate_row stats p) as [r|] eqn:Er; [|discriminate].
    destruct (candidate_rows stats t) as [rows'|] eqn:Et; [|discriminate].
    cbn [obind] in H. inversion H; subst rows; clear H.
    inversion N as [|? ? Np Nt]; subst.
    constructor; [now apply IH|].
    destruct Hd as [|q t' Hpq].
    + cbn [candidate_rows] in Et. inversion Et. constructor.
    + cbn [candidate_rows] in Et.
      destruct (candidate_row stats q) as [r'|] eqn:Eq; [|discriminate].
      destruct (candidate_rows stats t'); [|discriminate].
      cbn [obind] in Et. inversion Et. constructor.
      inversion Nt as [|? ? Nq _]; subst.
      destruct p as [pi [ps|]], q as [qi [qs|]]; cbn [snd] in *;
        try congruence.
      apply candidate_row_spec in Er. apply candidate_row_spec in Eq.
      exists ps, qs. repeat split; try tauto.
      now apply negb_true_iff in Hpq.
Qed.

Lemma candidate_rows_length stats ranked rows :
  candidate_rows stats ranked = Ok rows ->
  List.length rows = List.length ranked.
Proof.
  intros H. apply candidate_rows_ids in H.
  rewrite <- (length_map r_id rows), H. apply length_map.
Qed.

(** What [get_top20_products] returns for a user of the rating table,
    from the dictionary [scores]. *)
Lemma returned_frame_ranked
      G h sim stats m username user_ratings scores top_k f :
  Loaded G h sim stats (Some m) ->
  Mat.loc m username = Ok user_ratings ->
  score_loop sim user_ratings (Mat.positive_labels user_ratings)
             (m_columns sim) [] = Ok scores ->
  returned_frame (get_top20_products G username top_k) h = Some f ->
  exists rows,
    candidate_rows stats (rank scores top_k) = Ok rows /\
    f = DF.of_rows rows.
Proof.
  intros L Hu Hs H.
  apply (returned_frame_candidates _ _ _ _ _ _ _ _ L) in H.
  unfold candidates in H. rewrite (loc_known _ _ _ Hu) in H.
  cbn [negb] in H.
  destruct (personalised_inv _ _ _ _ _ _ H)
    as (ur & scores' & rows & Hu' & Hs' & Hr & ->).
  rewrite Hu in Hu'. inversion Hu'; subst ur; clear Hu'.
  rewrite Hs in Hs'. inversion Hs'; subst scores'; clear Hs'.
  now exists rows.
Qed.

(** For a user of the rating table, when no score is [NaN], the
    candidates [get_top20_products] returns are in non-increasing order of
    their score; for [top_k >= 0] there are at most [top_k] of them,
    whatever the scores are. *)
Theorem candidates_are_ranked
        G h sim stats m username user_ratings scores top_k f :
  Loaded G h sim stats (Some m) ->
  Mat.loc m username = Ok user_ratings ->
  score_loop sim user_ratings (Mat.positive_labels user_ratings)
             (m_columns sim) [] = Ok scores ->
  returned_frame (get_top20_products G username top_k) h = Some f ->
  (no_nan_score scores -> Sorted by_score (f_rows f)) /\
  (0 <= top_k -> Z.of_nat (List.length (f_rows f)) <= top_k).
Proof.
  intros L Hu Hs H.
  destruct (returned_frame_ranked _ _ _ _ _ _ _ _ _ _ L Hu Hs H)
    as (rows & Hr & ->).
  rewrite of_rows_rows. split.
  - intros N.
    apply (candidate_rows_sorted stats _ (rank_sorted scores top_k)
                                 (rank_no_nan _ top_k N) _ Hr).
  - intros Hk. rewrite (candidate_rows_length _ _ _ Hr).
    unfold rank. now apply take_length_pos.
Qed.

Lemma candidates_are_ranked_witness :
  exists f,
    returned_frame (get_top20_products ScenarioB.G "bob" 20) ScenarioB.h
    = Some f /\
    (no_nan_score [("B", scenario_B_score); ("C", Some Num.zero)] ->
     Sorted by_score (f_rows f)) /\
    (0 <= 20 -> Z.of_nat (List.length (f_rows f)) <= 20).
Proof.
  eexists. split; [vm_compute; reflexivity|].
  apply (candidates_are_ranked
           ScenarioB.G ScenarioB.h ScenarioB.sim ScenarioB.stats
           ScenarioB.user_item "bob" scenario_B_ratings
           [("B", scenario_B_score); ("C", Some Num.zero)] 20).
  - vm_compute. repeat split.
  - reflexivity.
  - vm_compute. reflexivity.
  - vm_compute. reflexivity.
Defined.

(** When no score is [NaN], a candidate that [get_top20_products] scored
    and left out has a score that no returned candidate is below: the
    slice [:top_k] keeps the best-scored products. *)
Theorem left_out_products_score_no_higher
        G h sim stats m username user_ratings scores top_k f item s :
  Loaded G h sim stats (Some m) ->
  Mat.loc m username = Ok user_ratings ->
  score_loop sim user_ratings (Mat.positive_labels user_ratings)
             (m_columns sim) [] = Ok scores ->
  no_nan_score scores ->
  returned_frame (get_top20_products G username top_k) h = Some f ->
  Py.get item scores = Some s ->
  ~ In item (map r_id (f_rows f)) ->
  Forall (fun r => Num.ltb (r_recomm_score r) s = false) (f_rows f).
Proof.
  intros L Hu Hs N H Hget Hout.
  destruct (returned_frame_ranked _ _ _ _ _ _ _ _ _ _ L Hu Hs H)
    as (rows & Hr & ->).
  rewrite of_rows_rows in *.
  apply get_In in Hget.
  set (before := fun x y : string * Num.cell =>
                   negb (Num.ltb (snd x) (snd y))) in *.
  assert (Hsorted : In (item, s) (Py.stable_sort before scores))
    by now apply stable_sort_In.
  destruct (take_prefix top_k (Py.stable_sort before scores)) as [rest E].
  change (Py.take top_k (Py.stable_sort before scores))
    with (rank scores top_k) in E.
  rewrite E in Hsorted. apply in_app_or in Hsorted.
  destruct Hsorted as [I|I].
  { exfalso. apply Hout. rewrite (candidate_rows_ids _ _ _ Hr).
    now apply (in_map fst) in I. }
  assert (S : Sorted (fun x y => before x y = true)
                     (rank scores top_k ++ rest)).
  { rewrite <- E. apply stable_sort_sorted. intros a b.
    apply rank_order_total. }
  apply (Sorted_Forall _ (fun p : string * Num.cell => snd p <> None))
    in S.
  2:{ rewrite <- E. unfold no_nan_score in N. rewrite Forall_forall in *.
      intros p Hp. apply N. now apply stable_sort_In in Hp. }
  apply Forall_forall. intros r Hin.
  destruct (candidate_rows_In _ _ _ _ Hr Hin) as ([pid x] & Ip & Ep).
  apply candidate_row_spec in Ep. destruct Ep as (_ & Ex & _).
  rewrite Ex.
  apply (Sorted_app_before _ _ _) with (3 := Ip) (4 := I) in S.
  - destruct S as (_ & _ & B). now apply negb_true_iff in B.
  - clear. unfold before. intros [a [x|]] [b [y|]] [c [z|]];
      cbn [snd]; intros (Na & Nb & Hab) (_ & Nc & Hbc);
      try congruence.
    repeat split; try assumption.
    apply negb_true_iff in Hab, Hbc. apply negb_true_iff.
    eapply ltb_negtrans; eauto.
Qed.

Lemma left_out_products_score_no_higher_witness :
  exists f,
    returned_frame (get_top20_products ScenarioB.G "bob" 1) ScenarioB.h
    = Some f /\
    Forall (fun r => Num.ltb (r_recomm_score r) (Some Num.zero) = false)
           (f_rows f).
Proof.
  eexists. split; [vm_compute; reflexivity|].
  apply (left_out_products_score_no_higher
           ScenarioB.G ScenarioB.h ScenarioB.sim ScenarioB.stats
           ScenarioB.user_item "bob" scenario_B_ratings
           [("B", scenario_B_score); ("C", Some Num.zero)] 1 _ "C").
  - vm_compute. repeat split.
  - reflexivity.
  - vm_compute. reflexivity.
  - repeat constructor; vm_compute; discriminate.
  - vm_compute. reflexivity.
  - reflexivity.
  - simpl. intros [H|[]]. discriminate.
Defined.

Lemma score_loop_nothing_rated sim user_ratings items :
  forall scores,
    score_loop sim user_ratings [] items scores
    = Ok (fold_left (fun d i => Py.setitem i (Some Num.zero) d)
                    items scores).
Proof.
  induction items as [|i t IH]; intros scores; simpl; [reflexivity|].
  apply IH.
Qed.

Lemma fold_setitem_fresh items :
  forall d,
    NoDup (map fst d ++ items) ->
    fold_left (fun d i => Py.setitem i (Some Num.zero) d) items d
    = d ++ map (fun c => (c, Some Num.zero)) items.
Proof.
  induction items as [|i t IH]; intros d N; simpl.
  - now rewrite app_nil_r.
  - rewrite setitem_new.
    2:{ apply NoDup_remove_2 in N. intros I. apply N, in_or_app. now left. }
    rewrite IH.
    + now rewrite <- app_assoc.
    + rewrite map_app. simpl. now rewrite <- app_assoc.
Qed.

(** With distinct labels in the statistics table and in the columns of the
    similarity table, a user of the rating table with no rating above 0
    gets the first [top_k] columns of the similarity table, in the order
    of the table, each with the score 0.0; no similarity is read. *)
Theorem user_without_positive_rating_gets_first_columns
        G h sim stats m username top_k :
  Loaded G h sim stats (Some m) ->
  Py.mem username (m_index m) = true ->
  rated_items (Some m) username = [] ->
  NoDup (m_columns sim) ->
  NoDup (map r_id (f_rows stats)) ->
  counts_present stats ->
  exists f,
    returned_frame (get_top20_products G username top_k) h = Some f /\
    map scored (f_rows f)
    = map (fun c => (c, Some Num.zero)) (Py.take top_k (m_columns sim)).
Proof.
  intros L K Hr N _ Hc.
  destruct (known_loc _ _ K) as [ur Hu].
  unfold rated_items in Hr. rewrite Hu in Hr.
  set (ranked := Py.take top_k (map (fun c => (c, Some Num.zero))
                                    (m_columns sim))).
  destruct (candidate_rows_ok stats ranked Hc) as [rows Hrows].
  exists (DF.of_rows rows). split.
  - apply (candidates_returned_frame _ _ _ _ _ _ _ _ L).
    unfold candidates. rewrite K. cbn [negb].
    unfold personalised. rewrite Hu. cbn [obind]. rewrite Hr.
    rewrite score_loop_nothing_rated, fold_setitem_fresh by exact N.
    cbn [obind app]. unfold rank.
    rewrite stable_sort_ties.
    + change (obind (candidate_rows stats ranked)
                    (fun rows0 => Ok (DF.of_rows rows0))
              = Ok (DF.of_rows rows)).
      rewrite Hrows. reflexivity.
    + intros x y Hx Hy. apply in_map_iff in Hx, Hy.
      destruct Hx as (? & <- & _), Hy as (? & <- & _). reflexivity.
  - rewrite of_rows_rows, (candidate_rows_scores _ _ _ Hrows).
    unfold ranked. now rewrite take_map.
Qed.

Lemma user_without_positive_rating_gets_first_columns_witness :
  exists f,
    returned_frame (get_top20_products ScenarioIdle.G "dan" 2)
                   ScenarioIdle.h = Some f /\
    map scored (f_rows f)
    = map (fun c => (c, Some Num.zero))
          (Py.take 2 (m_columns ScenarioB.sim)).
Proof.
  apply (user_without_positive_rating_gets_first_columns
           ScenarioIdle.G ScenarioIdle.h ScenarioB.sim ScenarioB.stats
           ScenarioIdle.user_item "dan" 2).
  - vm_compute. repeat split.
  - reflexivity.
  - reflexivity.
  - simpl. repeat constructor; simpl; intuition discriminate.
  - simpl. repeat constructor; simpl; intuition discriminate.
  - intros _. simpl. repeat constructor.
    all: eexists; eexists; split; reflexivity.
Defined.

(* ===================================================================== *)
(** ** The popularity ranking *)
(* ===================================================================== *)

Ltac cell_facts :=
  cbn [Num.cell_gtb] in *; try discriminate; keys.

Lemma lex_geb_trans k1 :
  forall k2 k3,
    List.length k1 = List.length k2 -> List.length k2 = List.length k3 ->
    Num.lex_geb k1 k2 = true -> Num.lex_geb k2 k3 = true ->
    Num.lex_geb k1 k3 = true.
Proof.
  induction k1 as [|a r1 IH]; intros [|b r2] [|c r3] L1 L2; simpl in *;
    try discriminate; try reflexivity.
  destruct (Num.cell_gtb a b) eqn:Eab, (Num.cell_gtb b a) eqn:Eba,
           (Num.cell_gtb b c) eqn:Ebc, (Num.cell_gtb c b) eqn:Ecb,
           (Num.cell_gtb a c) eqn:Eac, (Num.cell_gtb c a) eqn:Eca;
    intros H1 H2; try reflexivity; try discriminate;
    try (apply (IH r2 r3); congruence);
    exfalso; destruct a, b, c; cell_facts.
Qed.

Lemma popularity_key_score stats v r :
  popularity_key stats (DF.set_num c_recomm_score v r)
  = popularity_key stats r.
Proof. apply key_set_num, rank_cols_not_score. Qed.

(** [_popularity_fallback] returns products of the statistics table, each
    row at most once, and all of them when [top_k] is at least their
    number; a product it leaves out does not rank before any product it
    returns. *)
Theorem fallback_keeps_the_best G h sim stats ui top_k :
  Loaded G h sim stats ui ->
  exists f,
    returned_frame (_popularity_fallback G top_k) h = Some f /\
    (exists rest, Permutation (map r_id (f_rows f) ++ rest)
                              (map r_id (f_rows stats))) /\
    (Z.of_nat (List.length (f_rows stats)) <= top_k ->
     Permutation (map r_id (f_rows f)) (map r_id (f_rows stats))) /\
    (forall s r,
        In s (f_rows stats) ->
        ~ In (r_id s) (map r_id (f_rows f)) ->
        In r (f_rows f) ->
        Num.lex_geb (popularity_key stats r) (popularity_key stats s)
        = true).
Proof.
  intros L. exists (fallback_frame stats top_k).
  split; [apply returned_frame_yields, (popularity_fallback_yields top_k L)|].
  rewrite fallback_frame_rows.
  set (before := fun a b =>
                   Num.lex_geb
                     (DF.key (filter (fun c => DF.has c stats) rank_cols) a)
                     (DF.key (filter (fun c => DF.has c stats) rank_cols) b)).
  assert (Ids : forall l,
             map r_id (map (DF.set_num c_recomm_score (Some Num.zero)) l)
             = map r_id l).
  { intros l. rewrite map_map. apply map_ext. intros r. apply id_set_num. }
  rewrite Ids.
  pose proof (stable_sort_perm before (f_rows stats)) as P.
  destruct (take_prefix top_k (Py.stable_sort before (f_rows stats)))
    as [rest E].
  split; [|split].
  - exists (map r_id rest). rewrite <- map_app, <- E.
    now apply Permutation_map.
  - intros Hk. rewrite take_all.
    + now apply Permutation_map.
    + now rewrite stable_sort_length.
  - intros s r Hs Hout Hr.
    apply in_map_iff in Hr. destruct Hr as (r0 & <- & Hr0).
    rewrite popularity_key_score. unfold popularity_key.
    assert (Is : In s (Py.stable_sort before (f_rows stats)))
      by now apply stable_sort_In.
    rewrite E in Is. apply in_app_or in Is. destruct Is as [Is|Is].
    { exfalso. apply Hout. now apply in_map. }
    assert (S : Sorted (fun a b => before a b = true)
                       (Py.take top_k (Py.stable_sort before (f_rows stats))
                        ++ rest)).
    { rewrite <- E. apply stable_sort_sorted. intros a b.
      apply lex_geb_total. }
    apply (Sorted_app_before _ _ _) with (3 := Hr0) (4 := Is) in S;
      [exact S|].
    intros x y z. unfold before. apply lex_geb_trans;
      unfold DF.key; now rewrite !length_map.
Qed.

Lemma fallback_keeps_the_best_witness :
  exists f,
    returned_frame (_popularity_fallback ScenarioA.G 2) ScenarioA.h
    = Some f /\
    (exists rest, Permutation (map r_id (f_rows f) ++ rest)
                              (map r_id (f_rows ScenarioA.stats))) /\
    (Z.of_nat (List.length (f_rows ScenarioA.stats)) <= 2 ->
     Permutation (map r_id (f_rows f)) (map r_id (f_rows ScenarioA.stats)))
    /\
    (forall s r,
        In s (f_rows ScenarioA.stats) ->
        ~ In (r_id s) (map r_id (f_rows f)) ->
        In r (f_rows f) ->
        Num.lex_geb (popularity_key ScenarioA.stats r)
                    (popularity_key ScenarioA.stats s)
        = true).
Proof.
  apply (fallback_keeps_the_best
           ScenarioA.G ScenarioA.h ScenarioA.sim ScenarioA.stats None 2).
  vm_compute. repeat split.
Defined.

(* ===================================================================== *)
(** ** The blended frame and the returned records *)
(* ===================================================================== *)

Lemma join_rows_In left right rows :
  forall i r,
    In r (DF.join_rows left right i rows) ->
    exists r0 src,
      In r0 rows /\ r = DF.copy_cells (f_columns right) src r0.
Proof.
  induction rows as [|x t IH]; intros i r; cbn [DF.join_rows]; [easy|].
  intros [<-|H].
  - exists x, (DF.aligned left right i x). split; [now left | reflexivity].
  - destruct (IH _ _ H) as (r0 & src & I & E).
    exists r0, src. split; [now right | exact E].
Qed.

Lemma merged_row_origin stats cand0 M rM :
  merged_frame stats cand0 = Ok M -> In rM (f_rows M) ->
  exists r0, In r0 (f_rows cand0) /\ r_id rM = r_id r0 /\
             r_recomm_score rM = r_recomm_score r0 /\
             r_n_ratings rM = r_n_ratings r0.
Proof.
  unfold merged_frame. cbv zeta.
  pose proof (sent_frame stats (indexed cand0)) as SF. cbv zeta in SF.
  destruct SF as (Hc & _). revert Hc.
  generalize (match overlap stats (indexed cand0) with
              | [] => prod_sent stats (indexed cand0)
              | _ :: _ =>
                  DF.drop (overlap stats (indexed cand0))
                          (prod_sent stats (indexed cand0))
              end).
  intros sent Hc. unfold DF.join.
  destruct (existsb _ _); [discriminate|].
  intros H Hin. inversion H; subst M; clear H. cbn [f_rows] in Hin.
  apply join_rows_In in Hin. destruct Hin as (r0 & src & I & ->).
  rewrite indexed_rows in I. exists r0. split; [exact I|].
  split; [apply id_copy_cells|].
  split; apply copy_cells_meta; intros c Hin; rewrite Hc in Hin;
    now apply joined_cols_sentiment in Hin.
Qed.

Lemma mem_filter_ne c c' cols :
  c <> c' ->
  DF.mem c (filter (fun x => negb (column_beq x c')) cols) = DF.mem c cols.
Proof.
  intros N. induction cols as [|a t IH]; [reflexivity|].
  cbn [filter]. destruct (column_beq a c') eqn:E; cbn [negb].
  - apply column_beq_eq in E. subst a.
    change (DF.mem c (c' :: t)) with (column_beq c c' || DF.mem c t).
    destruct (column_beq c c') eqn:E2; [|exact IH].
    apply column_beq_eq in E2. congruence.
  - change (column_beq c a
            || DF.mem c (filter (fun x => negb (column_beq x c')) t)
            = column_beq c a || DF.mem c t).
    now rewrite IH.
Qed.

Lemma has_indexed c cand :
  c <> c_id -> DF.has c (indexed cand) = DF.has c cand.
Proof.
  intros N. unfold indexed. destruct (DF.has c_id cand); [|reflexivity].
  unfold DF.has, DF.set_index_id. cbn [f_columns]. now apply mem_filter_ne.
Qed.

Lemma candidates_scored sim stats ui username top_k cand :
  candidates sim stats ui username top_k = Ok cand ->
  f_rows cand <> [] -> DF.has c_recomm_score cand = true.
Proof.
  assert (FB : forall f,
             Ok (fallback_frame stats top_k) = Ok f ->
             f_rows f <> [] -> DF.has c_recomm_score f = true).
  { intros f E. inversion E; subst f; clear E.
    intros _. unfold fallback_frame. apply has_assign_same. }
  unfold candidates. destruct ui as [m|]; [|apply FB].
  destruct (negb (Py.mem username (m_index m))); [apply FB|].
  intros H.
  destruct (personalised_inv _ _ _ _ _ _ H)
    as (ur & scores & rows & _ & _ & Hr & ->).
  rewrite of_rows_rows. destruct rows; [congruence | reflexivity].
Qed.

Lemma merged_has_score stats cand M :
  merged_frame stats cand = Ok M ->
  DF.has c_recomm_score cand = true -> DF.has c_recomm_score M = true.
Proof.
  intros EM H.
  destruct (merged_frame_spec stats cand) as (M' & E' & _ & Hcols & _).
  rewrite EM in E'. inversion E'; subst M'.
  unfold DF.has. rewrite Hcols, mem_app.
  fold (DF.has c_recomm_score (indexed cand)).
  rewrite has_indexed by discriminate. now rewrite H.
Qed.

(** The cells of a row of the blended frame. *)
Lemma blended_row_fields sim stats ui username top_k cand B r :
  candidates sim stats ui username top_k = Ok cand ->
  blended_frame stats cand = Ok B ->
  In r (f_rows B) ->
  exists s p m,
    In (r_id r, s) (map scored (f_rows cand)) /\
    r_pct_pos r = Some p /\ r_mean_pos_prob r = Some m /\
    r_blend r = blend_formula s (Some p) (Some m).
Proof.
  intros Hc Hb Hr. unfold blended_frame in Hb.
  destruct (merged_frame stats cand) as [M|] eqn:EM; [|discriminate].
  cbn [obind] in Hb. inversion Hb; subst B; clear Hb.
  apply (proj1 (sorted_by_blend_In _ _)) in Hr.
  apply with_blend_In in Hr. destruct Hr as (r3 & H3 & ->).
  apply blend_input_In in H3. destruct H3 as (rM & HM & ->).
  destruct (merged_row_origin _ _ _ _ EM HM)
    as (r0 & H0 & Eid & Esc & _).
  pose proof (candidates_scored _ _ _ _ _ _ Hc) as Hcol.
  rewrite (merged_has_score _ _ _ EM)
    by (apply Hcol; intros E; rewrite E in H0; destruct H0).
  set (hp := DF.has c_pct_pos M). set (hm := DF.has c_mean_pos_prob M).
  assert (Hp : exists p, r_pct_pos (blend_input_row hp hm true rM) = Some p).
  { cbn. destruct hp, (r_pct_pos rM); cbn; eauto. }
  assert (Hm : exists m,
             r_mean_pos_prob (blend_input_row hp hm true rM) = Some m).
  { cbn. destruct hm, (r_mean_pos_prob rM); cbn; eauto. }
  assert (Hs : r_recomm_score (blend_input_row hp hm true rM)
               = r_recomm_score r0)
    by (cbn; congruence).
  destruct Hp as [p Hp], Hm as [m Hm].
  set (r3 := blend_input_row hp hm true rM) in *.
  exists (r_recomm_score r0), p, m.
  split; [|split; [|split]].
  - apply in_map_iff. exists r0. split; [|exact H0].
    unfold scored. rewrite id_set_num. f_equal. symmetry. exact Eid.
  - exact Hp.
  - exact Hm.
  - change (blend_of r3
            = blend_formula (r_recomm_score r0) (Some p) (Some m)).
    unfold blend_of. rewrite Hs, Hp, Hm. reflexivity.
Qed.

Lemma has_ensured_same c f : DF.has c (ensured c f) = true.
Proof. unfold ensured. destruct (negb (DF.has c f)); apply has_assign_same. Qed.

Lemma has_blend_input c M :
  c = c_pct_pos \/ c = c_mean_pos_prob -> DF.has c (blend_input M) = true.
Proof.
  intros Hc. unfold blend_input. cbv zeta.
  assert (H : DF.has c (ensured c_mean_pos_prob (ensured c_pct_pos M))
              = true).
  { destruct Hc as [->| ->].
    - rewrite has_ensured_other by discriminate. apply has_ensured_same.
    - apply has_ensured_same. }
  destruct (negb _); [now apply has_assign_old | exact H].
Qed.

Lemma index_assign c e f : f_index (DF.assign c e f) = f_index f.
Proof. reflexivity. Qed.

Lemma index_with_blend M : f_index (with_blend M) = f_index M.
Proof.
  unfold with_blend, blend_input, ensured. cbv zeta.
  repeat match goal with
         | |- context [if ?b then _ else _] => destruct b
         end; reflexivity.
Qed.

Lemma blended_columns stats cand B :
  blended_frame stats cand = Ok B ->
  DF.has c_pct_pos B = true /\ DF.has c_mean_pos_prob B = true /\
  DF.has c_blend B = true /\
  (f_index (indexed cand) = IdIndex -> DF.has c_id B = true).
Proof.
  unfold blended_frame. intros Hb.
  destruct (merged_frame_spec stats cand) as (M & EM & Hidx & _).
  rewrite EM in Hb. cbn [obind] in Hb. inversion Hb; subst B; clear Hb.
  assert (R : forall c, DF.has c (with_blend M) = true ->
                        DF.has c (sorted_by_blend (with_blend M)) = true).
  { intros c H. unfold sorted_by_blend, DF.sort_values, DF.has.
    cbn [f_columns]. unfold DF.reset_index.
    destruct (f_index (with_blend M)); cbn [f_columns];
      apply (proj2 (mem_In _ _)); right; now apply (proj1 (mem_In _ _)). }
  repeat split.
  - apply R. unfold with_blend. apply has_assign_old, has_blend_input. auto.
  - apply R. unfold with_blend. apply has_assign_old, has_blend_input. auto.
  - apply R. unfold with_blend. apply has_assign_same.
  - intros Hi. unfold sorted_by_blend, DF.sort_values, DF.has.
    cbn [f_columns]. unfold DF.reset_index.
    rewrite index_with_blend, Hidx, Hi. reflexivity.
Qed.

Lemma float_field_value k d c :
  Py.get k d = Some (float_value c) -> float_field k d = c.
Proof. unfold float_field. intros ->. now destruct c. Qed.

Lemma final_record_fields cols r d :
  final_record cols r = Ok d ->
  record_id d = Some (r_id r) /\
  (DF.mem c_pct_pos cols = true ->
   Py.get "pct_pos" d = Some (float_value (r_pct_pos r))) /\
  (DF.mem c_mean_pos_prob cols = true ->
   Py.get "mean_pos_prob" d = Some (float_value (r_mean_pos_prob r))) /\
  (DF.mem c_blend cols = true ->
   Py.get "blend" d = Some (float_value (r_blend r))).
Proof.
  intros H. destruct (final_record_inv _ _ _ H) as (_ & n & _ & ->).
  split; [reflexivity|].
  repeat split; intros Hc; unfold final_fields; cbn; now rewrite Hc.
Qed.

Lemma final_records_ok cols rows :
  DF.mem c_id cols = true ->
  Forall (fun r => forall x, r_n_ratings r = Some x ->
                             Num.int_of x <> None) rows ->
  exists out, final_records cols rows = Ok out.
Proof.
  intros H. induction 1 as [|r t Hr _ [out IH]]; cbn [final_records];
    [now exists []|].
  unfold final_record at 1. rewrite H, IH.
  assert (C : exists n, final_count cols r = Ok n).
  { unfold final_count. destruct (DF.mem c_n_ratings cols); [|eauto].
    destruct (r_n_ratings r) as [x|]; [|eauto].
    specialize (Hr x eq_refl). destruct (Num.int_of x); [eauto|congruence]. }
  destruct C as [n ->]. cbn [obind]. eauto.
Qed.

Lemma final_records_ids cols rows out :
  final_records cols rows = Ok out ->
  map record_id out = map (fun r => Some (r_id r)) rows.
Proof.
  revert out. induction rows as [|r t IH]; intros out H;
    cbn [final_records] in H.
  - now inversion H.
  - destruct (final_record cols r) as [d|] eqn:Ed; [|discriminate].
    destruct (final_records cols t) as [out'|]; [|discriminate].
    cbn [obind] in H. inversion H; subst out; clear H.
    cbn [map]. f_equal; [|now apply IH].
    now apply final_record_fields in Ed.
Qed.

Lemma final_records_sorted cols (R : Row -> Row -> Prop)
      (R' : Py.dict -> Py.dict -> Prop) rows :
  (forall a b da db,
      R a b -> final_record cols a = Ok da -> final_record cols b = Ok db ->
      R' da db) ->
  Sorted R rows ->
  forall out, final_records cols rows = Ok out -> Sorted R' out.
Proof.
  intros HR. induction 1 as [|a t S IH Hd]; intros out H;
    cbn [final_records] in H.
  - inversion H. constructor.
  - destruct (final_record cols a) as [da|] eqn:Ea; [|discriminate].
    destruct (final_records cols t) as [out'|] eqn:Et; [|discriminate].
    cbn [obind] in H. inversion H; subst; clear H.
    constructor; [now apply IH|].
    destruct Hd as [|b t' Rab]; cbn [final_records] in Et.
    + inversion Et. constructor.
    + destruct (final_record cols b) as [db|] eqn:Eb; [|discriminate].
      destruct (final_records cols t'); [|discriminate].
      cbn [obind] in Et. inversion Et. constructor.
      eapply HR; eauto.
Qed.

(** What [get_final_recommendations] returns, from the candidate frame
    and the blended frame. *)
Lemma recommendations_inv sim stats ui username top_k final_k out :
  recommendations sim stats ui username top_k final_k = Ok out ->
  exists cand B,
    candidates sim stats ui username top_k = Ok cand /\
    blended_frame stats cand = Ok B /\
    final_records (f_columns B) (Py.take final_k (f_rows B)) = Ok out.
Proof.
  unfold recommendations. intros H.
  destruct (candidates sim stats ui username top_k) as [cand|] eqn:Ec;
    [|discriminate].
  cbn [obind] in H.
  destruct (blended_frame stats cand) as [B|] eqn:Eb; [|discriminate].
  cbn [obind] in H. rewrite (without_rated_id _ _ _ _ _ _ _ Ec Eb) in H.
  now exists cand, B.
Qed.

Lemma blended_ids_perm stats cand B :
  blended_frame stats cand = Ok B ->
  Permutation (map r_id (f_rows B)) (map r_id (f_rows cand)).
Proof.
  unfold blended_frame. intros Hb.
  destruct (merged_frame stats cand) as [M|] eqn:EM; [|discriminate].
  cbn [obind] in Hb. inversion Hb; subst B; clear Hb.
  rewrite <- (merged_frame_ids _ _ _ EM), <- (with_blend_ids M).
  unfold sorted_by_blend, DF.sort_values. cbn [f_rows].
  rewrite reset_index_rows. apply Permutation_map, stable_sort_perm.
Qed.

Lemma blended_sorted stats cand B :
  blended_frame stats cand = Ok B ->
  Sorted (fun a b => Num.cell_geb (r_blend a) (r_blend b) = true)
         (f_rows B).
Proof.
  unfold blended_frame. intros Hb.
  destruct (merged_frame stats cand) as [M|]; [|discriminate].
  cbn [obind] in Hb. inversion Hb. apply sorted_by_blend_sorted.
Qed.

Lemma blended_frame_ok stats cand :
  exists B, blended_frame stats cand = Ok B.
Proof.
  destruct (merged_frame_spec stats cand) as (M & EM & _).
  unfold blended_frame. rewrite EM. cbn [obind]. eauto.
Qed.

Lemma blended_counts stats cand B :
  blended_frame stats cand = Ok B ->
  finite_counts cand -> finite_counts B.
Proof.
  unfold blended_frame, finite_counts. intros Hb F.
  destruct (merged_frame stats cand) as [M|] eqn:EM; [|discriminate].
  cbn [obind] in Hb. inversion Hb; subst B; clear Hb.
  rewrite Forall_forall in *. intros r Hr.
  apply (proj1 (sorted_by_blend_In _ _)) in Hr.
  apply with_blend_In in Hr. destruct Hr as (r3 & H3 & ->).
  apply blend_input_In in H3. destruct H3 as (rM & HM & ->).
  destruct (merged_row_origin _ _ _ _ EM HM) as (r0 & H0 & _ & _ & En).
  cbn. rewrite En. now apply F.
Qed.

Lemma NoDup_map_Some {A} (l : list A) :
  NoDup l -> NoDup (map (@Some A) l).
Proof.
  induction 1 as [|x l N _ IH]; [constructor|].
  cbn [map]. constructor; [|exact IH].
  intros I. apply in_map_iff in I. destruct I as (y & E & I).
  inversion E. now subst.
Qed.

Lemma score_loop_keys_NoDup sim user_ratings rated items :
  forall scores final,
    score_loop sim user_ratings rated items scores = Ok final ->
    NoDup (map fst scores) -> NoDup (map fst final).
Proof.
  induction items as [|i t IH]; intros scores final H N;
    cbn [score_loop] in H.
  - inversion H; subst. exact N.
  - destruct (Py.mem i rated); [now apply (IH scores)|].
    destruct rated as [|r0 rs].
    + apply (IH _ _ H). now apply setitem_keys_NoDup.
    + destruct (candidate_score _ _ _ _) as [s|]; [|discriminate].
      cbn [obind] in H. apply (IH _ _ H). now apply setitem_keys_NoDup.
Qed.

Lemma score_loop_keys_items sim user_ratings rated items :
  forall scores final,
    score_loop sim user_ratings rated items scores = Ok final ->
    forall x, In x (map fst final) -> In x (map fst scores) \/ In x items.
Proof.
  induction items as [|i t IH]; intros scores final H x Hx;
    cbn [score_loop] in H.
  - inversion H; subst. now left.
  - assert (S : forall v final,
               score_loop sim user_ratings rated t
                          (Py.setitem i v scores) = Ok final ->
               In x (map fst final) ->
               In x (map fst scores) \/ In x (i :: t)).
    { intros v f Hf If. destruct (IH _ _ Hf x If) as [I|I].
      - apply setitem_keys in I. destruct I as [->|I];
          [right; now left | now left].
      - right. now right. }
    destruct (Py.mem i rated).
    { destruct (IH _ _ H x Hx) as [I|I]; [now left | right; now right]. }
    destruct rated as [|r0 rs]; [now apply (S _ _ H)|].
    destruct (candidate_score _ _ _ _) as [s|]; [|discriminate].
    cbn [obind] in H. now apply (S _ _ H).
Qed.

Lemma candidates_ids_NoDup sim stats ui username top_k cand :
  candidates sim stats ui username top_k = Ok cand ->
  (known ui username = false -> NoDup (map r_id (f_rows stats))) ->
  NoDup (map r_id (f_rows cand)).
Proof.
  assert (FB : NoDup (map r_id (f_rows stats)) ->
               NoDup (map r_id (f_rows (fallback_frame stats top_k)))).
  { intros N. rewrite fallback_frame_rows, map_map.
    erewrite map_ext by (intros; apply id_set_num).
    rewrite <- take_map. apply take_NoDup.
    eapply Permutation_NoDup; [|exact N].
    symmetry. apply Permutation_map, stable_sort_perm. }
  unfold candidates, known. destruct ui as [m|].
  2:{ intros H N. inversion H. now apply FB, N. }
  destruct (Py.mem username (m_index m)); cbn [negb].
  2:{ intros H N. inversion H. now apply FB, N. }
  intros H _.
  destruct (personalised_inv _ _ _ _ _ _ H)
    as (ur & scores & rows & _ & Hs & Hr & ->).
  rewrite of_rows_rows, (candidate_rows_ids _ _ _ Hr).
  unfold rank. rewrite <- take_map. apply take_NoDup.
  eapply Permutation_NoDup;
    [symmetry; apply Permutation_map, stable_sort_perm|].
  apply (score_loop_keys_NoDup _ _ _ _ _ _ Hs). constructor.
Qed.

Lemma candidates_ids_origin sim stats ui username top_k cand i :
  candidates sim stats ui username top_k = Ok cand ->
  In i (map r_id (f_rows cand)) ->
  if known ui username then In i (m_columns sim)
  else In i (map r_id (f_rows stats)).
Proof.
  assert (FB : In i (map r_id (f_rows (fallback_frame stats top_k))) ->
               In i (map r_id (f_rows stats))).
  { intros I. apply in_map_iff in I. destruct I as (r & <- & Hr).
    destruct (fallback_row_from_stats _ _ _ Hr) as (s & Hs & E & _).
    rewrite <- E. now apply in_map. }
  unfold candidates, known. destruct ui as [m|].
  2:{ intros H. inversion H. exact FB. }
  destruct (Py.mem username (m_index m)); cbn [negb].
  2:{ intros H. inversion H. exact FB. }
  intros H I.
  destruct (personalised_inv _ _ _ _ _ _ H)
    as (ur & scores & rows & _ & Hs & Hr & ->).
  rewrite of_rows_rows, (candidate_rows_ids _ _ _ Hr) in I.
  apply in_map_iff in I. destruct I as (p & <- & Ip).
  apply rank_In in Ip. apply (in_map fst) in Ip.
  destruct (score_loop_keys_items _ _ _ _ _ _ Hs _ Ip) as [[]|I].
  exact I.
Qed.

(** When the statistics table has one row per product,
    [get_final_recommendations] loses no candidate on its way: it returns
    [final_k] records, or one for every candidate of
    [get_top20_products] when these are fewer. *)
Theorem number_of_recommendations
        G h sim stats ui username top_k final_k out :
  Loaded G h sim stats ui ->
  NoDup (map r_id (f_rows stats)) ->
  0 <= final_k ->
  result (get_final_recommendations G username top_k final_k) h = Ok out ->
  exists cand,
    returned_frame (get_top20_products G username top_k) h = Some cand /\
    NoDup (map r_id (f_rows cand)) /\
    List.length out
    = Nat.min (Z.to_nat final_k) (List.length (f_rows cand)).
Proof.
  intros L N Hk H. rewrite (result_recommendations _ _ _ _ _ _ _ _ L) in H.
  destruct (recommendations_inv _ _ _ _ _ _ _ H)
    as (cand & B & Hc & Hb & Ho).
  exists cand.
  split; [now apply (candidates_returned_frame _ _ _ _ _ _ _ _ L)|].
  split; [apply (candidates_ids_NoDup _ _ _ _ _ _ Hc); now intros _|].
  rewrite (final_records_length _ _ _ Ho), (take_length_min _ _ Hk).
  f_equal. rewrite <- (length_map r_id (f_rows B)),
             <- (length_map r_id (f_rows cand)).
  apply Permutation_length, (blended_ids_perm _ _ _ Hb).
Qed.

Lemma number_of_recommendations_witness :
  exists cand,
    returned_frame (get_top20_products ScenarioA.G "alice" 20) ScenarioA.h
    = Some cand /\
    NoDup (map r_id (f_rows cand)) /\
    List.length [ scenario_A_record "P1" (Num.dec 9 10) (Num.dec 27 100);
                  scenario_A_record "P2" (Num.dec 5 10) (Num.dec 15 100) ]
    = Nat.min (Z.to_nat 2) (List.length (f_rows cand)).
Proof.
  apply (number_of_recommendations
           ScenarioA.G ScenarioA.h ScenarioA.sim ScenarioA.stats None
           "alice" 20 2).
  - vm_compute. repeat split.
  - simpl. repeat constructor; simpl; intuition discriminate.
  - lia.
  - vm_compute. reflexivity.
Defined.

(** Every record [get_final_recommendations] returns carries floats under
    [pct_pos] and [mean_pos_prob], never a missing value, and under
    [blend] the binary64 value of [0.6 * s + 0.3 * pct_pos +
    0.1 * mean_pos_prob], where [s] is the score its product has in the
    candidate frame; the blend is [NaN] only when this value is. *)
Theorem returned_records_are_blended
        G h sim stats ui username top_k final_k out :
  Loaded G h sim stats ui ->
  result (get_final_recommendations G username top_k final_k) h = Ok out ->
  exists cand,
    returned_frame (get_top20_products G username top_k) h = Some cand /\
    forall d,
      In d out ->
      exists i s p m,
        record_id d = Some i /\
        In (i, s) (map scored (f_rows cand)) /\
        Py.get "pct_pos" d = Some (Py.PFloat p) /\
        Py.get "mean_pos_prob" d = Some (Py.PFloat m) /\
        Py.get "blend" d
        = Some (float_value (blend_formula s (Some p) (Some m))).
Proof.
  intros L H. rewrite (result_recommendations _ _ _ _ _ _ _ _ L) in H.
  destruct (recommendations_inv _ _ _ _ _ _ _ H)
    as (cand & B & Hc & Hb & Ho).
  exists cand.
  split; [now apply (candidates_returned_frame _ _ _ _ _ _ _ _ L)|].
  intros d Hd.
  destruct (final_records_In _ _ _ _ Ho Hd) as (r & Hr & Ed).
  apply take_In in Hr.
  destruct (blended_row_fields _ _ _ _ _ _ _ _ Hc Hb Hr)
    as (s & p & m & Hs & Hp & Hm & Hbl).
  destruct (blended_columns _ _ _ Hb) as (Cp & Cm & Cb & _).
  destruct (final_record_fields _ _ _ Ed) as (Eid & Fp & Fm & Fb).
  exists (r_id r), s, p, m.
  rewrite (Fp Cp), (Fm Cm), (Fb Cb), Hp, Hm, Hbl.
  repeat split; auto.
Qed.

Lemma returned_records_are_blended_witness :
  exists cand,
    returned_frame (get_top20_products ScenarioA.G "alice" 20) ScenarioA.h
    = Some cand /\
    forall d,
      In d [ scenario_A_record "P1" (Num.dec 9 10) (Num.dec 27 100);
             scenario_A_record "P2" (Num.dec 5 10) (Num.dec 15 100) ] ->
      exists i s p m,
        record_id d = Some i /\
        In (i, s) (map scored (f_rows cand)) /\
        Py.get "pct_pos" d = Some (Py.PFloat p) /\
        Py.get "mean_pos_prob" d = Some (Py.PFloat m) /\
        Py.get "blend" d
        = Some (float_value (blend_formula s (Some p) (Some m))).
Proof.
  apply (returned_records_are_blended
           ScenarioA.G ScenarioA.h ScenarioA.sim ScenarioA.stats None
           "alice" 20 2).
  - vm_compute. repeat split.
  - vm_compute. reflexivity.
Defined.

(** The records [get_final_recommendations] returns are in non-increasing
    order of their blend, those whose blend is [NaN] coming last. *)
Theorem recommendations_sorted_by_blend
        G h sim stats ui username top_k final_k out :
  Loaded G h sim stats ui ->
  result (get_final_recommendations G username top_k final_k) h = Ok out ->
  Sorted by_blend out.
Proof.
  intros L H. rewrite (result_recommendations _ _ _ _ _ _ _ _ L) in H.
  destruct (recommendations_inv _ _ _ _ _ _ _ H)
    as (cand & B & Hc & Hb & Ho).
  destruct (blended_columns _ _ _ Hb) as (_ & _ & Cb & _).
  pose proof (Sorted_take _ final_k _ (blended_sorted _ _ _ Hb)) as S.
  apply (final_records_sorted _ _ by_blend _) with (2 := S) (3 := Ho).
  intros a b da db Hge Ea Eb.
  apply final_record_fields in Ea, Eb.
  destruct Ea as (_ & _ & _ & Fa), Eb as (_ & _ & _ & Fb).
  unfold by_blend, record_blend.
  now rewrite (float_field_value _ _ _ (Fa Cb)),
    (float_field_value _ _ _ (Fb Cb)).
Qed.

Lemma recommendations_sorted_by_blend_witness :
  exists out,
    result (get_final_recommendations ScenarioA.G "alice" 20 2) ScenarioA.h
    = Ok out /\ Sorted by_blend out.
Proof.
  eexists. split; [vm_compute; reflexivity|].
  apply (recommendations_sorted_by_blend
           ScenarioA.G ScenarioA.h ScenarioA.sim ScenarioA.stats None
           "alice" 20 2).
  - vm_compute. repeat split.
  - vm_compute. reflexivity.
Defined.

(** No product is recommended twice: the identifiers of the returned
    records are pairwise distinct, for a user of the rating table always,
    and for any other user when the statistics table has one row per
    product. *)
Theorem no_product_recommended_twice
        G h sim stats ui username top_k final_k out :
  Loaded G h sim stats ui ->
  (known ui username = false -> NoDup (map r_id (f_rows stats))) ->
  result (get_final_recommendations G username top_k final_k) h = Ok out ->
  NoDup (map record_id out).
Proof.
  intros L N H. rewrite (result_recommendations _ _ _ _ _ _ _ _ L) in H.
  destruct (recommendations_inv _ _ _ _ _ _ _ H) as (cand & B & Hc & Hb & Ho).
  rewrite (final_records_ids _ _ _ Ho).
  rewrite <- (map_map r_id (@Some string)). apply NoDup_map_Some.
  rewrite <- take_map. apply take_NoDup.
  eapply Permutation_NoDup;
    [symmetry; apply (blended_ids_perm _ _ _ Hb)|].
  now apply (candidates_ids_NoDup _ _ _ _ _ _ Hc).
Qed.

Lemma no_product_recommended_twice_witness :
  exists out,
    result (get_final_recommendations ScenarioB.G "bob" 20 5) ScenarioB.h
    = Ok out /\ NoDup (map record_id out).
Proof.
  eexists. split; [vm_compute; reflexivity|].
  apply (no_product_recommended_twice
           ScenarioB.G ScenarioB.h ScenarioB.sim ScenarioB.stats
           (Some ScenarioB.user_item) "bob" 20 5).
  - vm_compute. repeat split.
  - discriminate.
  - vm_compute. reflexivity.
Defined.

(** Users who are not in the rating table all get the same answer: the
    username plays no part on the fallback path. *)
Theorem unknown_users_get_the_same_list
        G h sim stats ui username1 username2 top_k final_k :
  Loaded G h sim stats ui ->
  known ui username1 = false ->
  known ui username2 = false ->
  result (get_final_recommendations G username1 top_k final_k) h
  = result (get_final_recommendations G username2 top_k final_k) h.
Proof.
  intros L K1 K2. rewrite !(result_recommendations _ _ _ _ _ _ _ _ L).
  unfold recommendations, candidates, without_rated.
  unfold known in K1, K2. destruct ui as [m|]; [|reflexivity].
  rewrite K1, K2. reflexivity.
Qed.

Lemma unknown_users_get_the_same_list_witness :
  result (get_final_recommendations ScenarioB.G "carol" 20 5) ScenarioB.h
  = result (get_final_recommendations ScenarioB.G "dave" 20 5) ScenarioB.h.
Proof.
  apply (unknown_users_get_the_same_list
           ScenarioB.G ScenarioB.h ScenarioB.sim ScenarioB.stats
           (Some ScenarioB.user_item) "carol" "dave" 20 5).
  - vm_compute. repeat split.
  - reflexivity.
  - reflexivity.
Defined.

(** Every recommended product is a column of the similarity table when
    the user is in the rating table, and a product of the statistics
    table otherwise. *)
Theorem recommended_products_come_from_the_tables
        G h sim stats ui username top_k final_k out d i :
  Loaded G h sim stats ui ->
  result (get_final_recommendations G username top_k final_k) h = Ok out ->
  In d out ->
  record_id d = Some i ->
  if known ui username then In i (m_columns sim)
  else In i (map r_id (f_rows stats)).
Proof.
  intros L H Hd Hi. rewrite (result_recommendations _ _ _ _ _ _ _ _ L) in H.
  destruct (recommendations_inv _ _ _ _ _ _ _ H) as (cand & B & Hc & Hb & Ho).
  destruct (final_records_In _ _ _ _ Ho Hd) as (r & Hr & Ed).
  apply take_In in Hr. apply final_record_fields in Ed.
  destruct Ed as (Eid & _). rewrite Eid in Hi. inversion Hi; subst i.
  apply (candidates_ids_origin _ _ _ _ _ _ _ Hc).
  apply (blended_frame_ids _ _ _ _ Hb Hr).
Qed.

Lemma recommended_products_come_from_the_tables_witness :
  if known (Some ScenarioB.user_item) "bob"
  then In "B" (m_columns ScenarioB.sim)
  else In "B" (map r_id (f_rows ScenarioB.stats)).
Proof.
  apply (recommended_products_come_from_the_tables
           ScenarioB.G ScenarioB.h ScenarioB.sim ScenarioB.stats
           (Some ScenarioB.user_item) "bob" 20 5
           (match result (get_final_recommendations ScenarioB.G "bob" 20 5)
                         ScenarioB.h with
            | Ok out => out
            | Raise _ => []
            end)
           (nth 0 (match result (get_final_recommendations
                                   ScenarioB.G "bob" 20 5)
                                ScenarioB.h with
                   | Ok out => out
                   | Raise _ => []
                   end) [])).
  - vm_compute. repeat split.
  - vm_compute. reflexivity.
  - vm_compute. now left.
  - vm_compute. reflexivity.
Defined.

(* ===================================================================== *)
(** ** Failures of the candidate generator and of the blending *)
(* ===================================================================== *)

Lemma at_label_missing s c :
  ~ In c (map fst s) -> Mat.at_label s c = Raise KeyError.
Proof.
  induction s as [|[c' v] t IH]; cbn [Mat.at_label map fst In];
    intros N; [reflexivity|].
  destruct (String.eqb_spec c c') as [->|_]; [tauto|].
  apply IH. tauto.
Qed.

Lemma at_label_raises s c e : Mat.at_label s c = Raise e -> e = KeyError.
Proof.
  induction s as [|[c' v] t IH]; cbn [Mat.at_label]; intros H.
  - now inversion H.
  - destruct (String.eqb c c'); [discriminate | now apply IH].
Qed.

Lemma take_missing s labels r :
  In r labels -> ~ In r (map fst s) -> Mat.take s labels = Raise KeyError.
Proof.
  intros Hin N. induction labels as [|c t IH]; [destruct Hin|].
  cbn [Mat.take].
  destruct (Mat.at_label s c) as [v|e] eqn:Ea.
  - cbn [obind]. destruct Hin as [->|Hin].
    + rewrite (at_label_missing _ _ N) in Ea. discriminate.
    + now rewrite (IH Hin).
  - cbn [obind]. now rewrite (at_label_raises _ _ _ Ea).
Qed.

Lemma combine_labels (cols : list string) (vals : list Num.f64) x :
  In x (map fst (combine cols vals)) -> In x cols.
Proof.
  intros H. apply in_map_iff in H. destruct H as ([c v] & <- & H).
  now apply in_combine_l in H.
Qed.

Lemma loc2_missing sim item rated r :
  In r rated -> ~ In r (m_columns sim) ->
  Mat.loc2 sim item rated = Raise KeyError.
Proof.
  intros Hin N. unfold Mat.loc2, Mat.loc.
  destruct (Py.position item (m_index sim)) as [i|]; [|reflexivity].
  cbn [obind]. apply (take_missing _ _ r Hin).
  intros I. apply N. now apply combine_labels in I.
Qed.

Lemma score_loop_missing sim user_ratings rated r items :
  In r rated -> ~ In r (m_columns sim) ->
  forall scores,
    (exists item, In item items /\ Py.mem item rated = false) ->
    score_loop sim user_ratings rated items scores = Raise KeyError.
Proof.
  intros Hin N. induction items as [|i t IH]; intros scores (item & I & U).
  - destruct I.
  - cbn [score_loop]. destruct (Py.mem i rated) eqn:Ei.
    + apply IH. exists item. split; [|exact U].
      destruct I as [->|I]; [congruence | exact I].
    + destruct rated as [|r0 rs]; [destruct Hin|].
      unfold candidate_score. now rewrite (loc2_missing _ _ _ _ Hin N).
Qed.

Lemma result_get_top20_products G h sim stats ui username top_k e :
  Loaded G h sim stats ui ->
  candidates sim stats ui username top_k = Raise e ->
  result (get_top20_products G username top_k) h = Raise e.
Proof.
  intros L H.
  pose proof (get_top20_products_computes username top_k L) as C.
  rewrite H in C. destruct C as (h' & E & _).
  unfold result. now rewrite E.
Qed.

(** A positive rating of a product that is not a column of the similarity
    table makes both functions raise [KeyError] as soon as the table has a
    column the user has not rated: the lookup of line 74 fails, and the
    [try] of lines 157-162 is not around it. *)
Theorem rated_product_without_similarities_raises
        G h sim stats m username user_ratings top_k final_k rated item :
  Loaded G h sim stats (Some m) ->
  Mat.loc m username = Ok user_ratings ->
  In rated (Mat.positive_labels user_ratings) ->
  ~ In rated (m_columns sim) ->
  In item (m_columns sim) ->
  Py.mem item (Mat.positive_labels user_ratings) = false ->
  result (get_top20_products G username top_k) h = Raise KeyError /\
  result (get_final_recommendations G username top_k final_k) h
  = Raise KeyError.
Proof.
  intros L Hu Hr N Hi U.
  assert (C : candidates sim stats (Some m) username top_k = Raise KeyError).
  { unfold candidates. rewrite (loc_known _ _ _ Hu). cbn [negb].
    unfold personalised. rewrite Hu. cbn [obind].
    rewrite (score_loop_missing _ _ _ _ _ Hr N); [reflexivity|].
    now exists item. }
  split.
  - now apply (result_get_top20_products _ _ _ _ _ _ _ _ L).
  - rewrite (result_recommendations _ _ _ _ _ _ _ _ L).
    unfold recommendations. now rewrite C.
Qed.

Lemma rated_product_without_similarities_raises_witness :
  result (get_top20_products ScenarioGap.G "eve" 20) ScenarioGap.h
  = Raise KeyError /\
  result (get_final_recommendations ScenarioGap.G "eve" 20 5) ScenarioGap.h
  = Raise KeyError.
Proof.
  apply (rated_product_without_similarities_raises
           ScenarioGap.G ScenarioGap.h ScenarioB.sim ScenarioB.stats
           ScenarioGap.user_item "eve"
           [("A", Num.of_Z 0); ("Z", Num.of_Z 4)] 20 5
           "Z" "A").
  - vm_compute. repeat split.
  - reflexivity.
  - simpl. tauto.
  - simpl. intuition discriminate.
  - simpl. tauto.
  - reflexivity.
Defined.

(** When the statistics table has one row per product, once
    [get_top20_products] has returned a frame whose rating counts are
    finite the rest of [get_final_recommendations] cannot fail: a list is
    returned, for a user of the rating table always, and for any other
    user when the statistics table is indexed by the product
    identifier. *)
Theorem blending_adds_no_failure
        G h sim stats ui username top_k final_k cand :
  Loaded G h sim stats ui ->
  NoDup (map r_id (f_rows stats)) ->
  (known ui username = false -> f_index stats = IdIndex) ->
  returned_frame (get_top20_products G username top_k) h = Some cand ->
  finite_counts cand ->
  exists out,
    result (get_final_recommendations G username top_k final_k) h = Ok out.
Proof.
  intros L _ Hidx H F.
  apply (returned_frame_candidates _ _ _ _ _ _ _ _ L) in H.
  rewrite (result_recommendations _ _ _ _ _ _ _ _ L).
  unfold recommendations. rewrite H. cbn [obind].
  destruct (blended_frame_ok stats cand) as [B Hb]. rewrite Hb.
  cbn [obind]. rewrite (without_rated_id _ _ _ _ _ _ _ H Hb).
  unfold records_of.
  destruct (f_rows cand) as [|r0 rest] eqn:Er.
  { pose proof (blended_ids_perm _ _ _ Hb) as P. rewrite Er in P.
    cbn [map] in P. symmetry in P.
    apply Permutation_nil in P. apply map_eq_nil in P. rewrite P.
    assert (T : Py.take final_k (@nil Row) = [])
      by (unfold Py.take; destruct (0 <=? final_k); apply firstn_nil).
    rewrite T. now exists []. }
  apply final_records_ok.
  2:{ pose proof (blended_counts _ _ _ Hb F) as FB.
      unfold finite_counts in FB. rewrite Forall_forall in *.
      intros r Hr. apply FB. now apply take_In in Hr. }
  destruct (blended_columns _ _ _ Hb) as (_ & _ & _ & Hid). apply Hid.
  unfold candidates in H.
  assert (FB : Ok (fallback_frame stats top_k) = Ok cand ->
               known ui username = false ->
               f_index (indexed cand) = IdIndex).
  { intros E K. inversion E.
    now apply fallback_indexed, Hidx. }
  destruct ui as [m|]; [|now apply FB].
  destruct (Py.mem username (m_index m)) eqn:K; cbn [negb] in H;
    [|apply FB; [exact H | exact K]].
  destruct (personalised_of_rows _ _ _ _ _ _ H) as [rows ->].
  rewrite of_rows_rows in Er. subst rows. reflexivity.
Qed.

Lemma blending_adds_no_failure_witness :
  exists out,
    result (get_final_recommendations ScenarioB.G "bob" 20 5) ScenarioB.h
    = Ok out.
Proof.
  apply (blending_adds_no_failure
           ScenarioB.G ScenarioB.h ScenarioB.sim ScenarioB.stats
           (Some ScenarioB.user_item) "bob" 20 5
           (match returned_frame (get_top20_products ScenarioB.G "bob" 20)
                                 ScenarioB.h with
            | Some f => f
            | None => DF.of_rows []
            end)).
  - vm_compute. repeat split.
  - simpl. repeat constructor; simpl; intuition discriminate.
  - discriminate.
  - vm_compute. reflexivity.
  - unfold finite_counts. vm_compute.
    repeat constructor; intros x E; inversion E; discriminate.
Defined.

(* ===================================================================== *)
(** ** Loading the statistics table *)
(* ===================================================================== *)

Lemma keyed_reset_index stats :
  f_index stats = IdIndex -> DF.has c_id stats = false ->
  keyed (DF.reset_index stats) = keyed stats.
Proof.
  destruct stats as [idx cols rows]. cbn [f_index]. intros -> H.
  unfold keyed. rewrite H.
  unfold DF.reset_index, DF.has, DF.set_index_id in *.
  cbn [f_index f_columns f_rows] in *.
  change (DF.mem c_id (c_id :: cols)) with true. cbn [filter column_beq negb].
  f_equal. clear rows. induction cols as [|c t IH]; [reflexivity|].
  change (DF.mem c_id (c :: t)) with (column_beq c_id c || DF.mem c_id t) in H.
  apply orb_false_iff in H. destruct H as [Hc Ht].
  cbn [filter]. destruct (column_beq c c_id) eqn:E.
  - apply column_beq_eq in E. subst c. discriminate.
  - cbn [negb]. f_equal. now apply IH.
Qed.

(** A statistics table pickled with the identifiers as its ['id'] column
    and the same table pickled with the identifiers as its index give the
    same recommendations: line 20 makes the two alike. *)
Theorem id_column_or_id_index_load_alike
        sim stats ui username top_k final_k :
  f_index stats = IdIndex ->
  DF.has c_id stats = false ->
  result (get_final_recommendations
            (fst (boot sim (DF.reset_index stats) ui))
            username top_k final_k)
         (snd (boot sim (DF.reset_index stats) ui))
  = result (get_final_recommendations
              (fst (boot sim stats ui)) username top_k final_k)
           (snd (boot sim stats ui)).
Proof.
  intros Hi Hc.
  rewrite (result_recommendations _ _ _ _ _ _ _ _
             (boot_Loaded sim (DF.reset_index stats) ui)).
  rewrite (result_recommendations _ _ _ _ _ _ _ _
             (boot_Loaded sim stats ui)).
  now rewrite keyed_reset_index.
Qed.

Lemma id_column_or_id_index_load_alike_witness :
  result (get_final_recommendations
            (fst (boot ScenarioB.sim (DF.reset_index ScenarioB.stats)
                       (Some ScenarioB.user_item)))
            "bob" 20 5)
         (snd (boot ScenarioB.sim (DF.reset_index ScenarioB.stats)
                    (Some ScenarioB.user_item)))
  = result (get_final_recommendations
              (fst (boot ScenarioB.sim ScenarioB.stats
                         (Some ScenarioB.user_item)))
              "bob" 20 5)
           (snd (boot ScenarioB.sim ScenarioB.stats
                      (Some ScenarioB.user_item))).
Proof.
  apply (id_column_or_id_index_load_alike
           ScenarioB.sim ScenarioB.stats (Some ScenarioB.user_item)
           "bob" 20 5); reflexivity.
Defined.
